(** * virtual_assistant: the contact directory and its birthday query

    A shallow embedding of [src/virtual_assistant.py] (the classes [Name],
    [Phone], [Birthday], [Record] and [AddressBook]; their base class [Field]
    only stores the value) together with the parts of the Python runtime
    these classes call: [str.isdigit],
    [datetime.date] with its proleptic Gregorian ordinals,
    [datetime.strptime] and [date.strftime] for the one format the
    program uses.

    Conventions.
    - A Python [str] is a sequence of Unicode code points: [pystr] is
      [list N].  Literals of the program are written [str "..."].
    - A method that may raise returns a [result]; a method that mutates
      [self] is a computation in the monad [M] below, which threads the
      object's state and stops at the first exception, keeping the state
      the object had when the exception was raised.
    - What the program reads from its surroundings (the system clock behind
      [date.today()], the C library behind [strftime]) is the record [env].
    - Objects are held by value.  The program shares a record between the
      directory and its caller; nothing stated below depends on that. *)

From Stdlib Require Import ZArith NArith List String Ascii Bool Lia.
Import ListNotations.

Local Open Scope Z_scope.

(** ** Python strings *)

Definition char := N.
Definition pystr := list char.

Fixpoint str (s : string) : pystr :=
  match s with
  | EmptyString => []
  | String a s' => N_of_ascii a :: str s'
  end.

Definition len {A : Type} (l : list A) : Z := Z.of_nat (List.length l).

Fixpoint pystr_eqb (a b : pystr) : bool :=
  match a, b with
  | [], [] => true
  | x :: a', y :: b' => N.eqb x y && pystr_eqb a' b'
  | _, _ => false
  end.

(** [sep.join(parts)] *)
Fixpoint join (sep : pystr) (parts : list pystr) : pystr :=
  match parts with
  | [] => []
  | [p] => p
  | p :: rest => p ++ sep ++ join sep rest
  end.

(** [str(n)] of an integer: its decimal digits, with a sign when negative. *)
Fixpoint digits_loop (fuel : nat) (n : Z) (acc : pystr) : pystr :=
  match fuel with
  | O => acc
  | S fuel' =>
      let acc' := (0x30 + Z.to_N (n mod 10))%N :: acc in
      if n / 10 =? 0 then acc' else digits_loop fuel' (n / 10) acc'
  end.

Definition digits (n : Z) : pystr :=
  digits_loop (S (Z.to_nat (Z.log2 n))) n [].

Definition int_str (n : Z) : pystr :=
  if n <? 0 then 0x2D%N :: digits (- n) else digits n.

(** [s.zfill(width)] of a string of digits. *)
Definition zfill (width : nat) (s : pystr) : pystr :=
  repeat 0x30%N (width - List.length s) ++ s.

(** ** The Unicode character database, as far as the program consults it

    [str.isdigit] is true of a character whose Numeric_Type is Decimal or
    Digit; the regular expression class [\d] and [int()] accept the Decimal
    ones only.  The two tables are those of Unicode 14.0 (CPython 3.11).
    Every block of decimal digits lists the digits 0 to 9 in order and starts
    at a multiple of ten from the start of its range. *)

Module unicode.

Definition decimal_ranges : list (N * N) :=
  [ (0x30, 0x39); (0x660, 0x669); (0x6F0, 0x6F9); (0x7C0, 0x7C9);
    (0x966, 0x96F); (0x9E6, 0x9EF); (0xA66, 0xA6F); (0xAE6, 0xAEF);
    (0xB66, 0xB6F); (0xBE6, 0xBEF); (0xC66, 0xC6F); (0xCE6, 0xCEF);
    (0xD66, 0xD6F); (0xDE6, 0xDEF); (0xE50, 0xE59); (0xED0, 0xED9);
    (0xF20, 0xF29); (0x1040, 0x1049); (0x1090, 0x1099); (0x17E0, 0x17E9);
    (0x1810, 0x1819); (0x1946, 0x194F); (0x19D0, 0x19D9); (0x1A80, 0x1A89);
    (0x1A90, 0x1A99); (0x1B50, 0x1B59); (0x1BB0, 0x1BB9); (0x1C40, 0x1C49);
    (0x1C50, 0x1C59); (0xA620, 0xA629); (0xA8D0, 0xA8D9); (0xA900, 0xA909);
    (0xA9D0, 0xA9D9); (0xA9F0, 0xA9F9); (0xAA50, 0xAA59); (0xABF0, 0xABF9);
    (0xFF10, 0xFF19); (0x104A0, 0x104A9); (0x10D30, 0x10D39); (0x11066, 0x1106F);
    (0x110F0, 0x110F9); (0x11136, 0x1113F); (0x111D0, 0x111D9); (0x112F0, 0x112F9);
    (0x11450, 0x11459); (0x114D0, 0x114D9); (0x11650, 0x11659); (0x116C0, 0x116C9);
    (0x11730, 0x11739); (0x118E0, 0x118E9); (0x11950, 0x11959); (0x11C50, 0x11C59);
    (0x11D50, 0x11D59); (0x11DA0, 0x11DA9); (0x16A60, 0x16A69); (0x16AC0, 0x16AC9);
    (0x16B50, 0x16B59); (0x1D7CE, 0x1D7FF); (0x1E140, 0x1E149); (0x1E2F0, 0x1E2F9);
    (0x1E950, 0x1E959); (0x1FBF0, 0x1FBF9) ]%N.

(** Numeric_Type = Digit without being Decimal: superscripts, subscripts,
    circled and parenthesised digits and the like. *)
Definition other_digit_ranges : list (N * N) :=
  [ (0xB2, 0xB3); (0xB9, 0xB9); (0x1369, 0x1371); (0x19DA, 0x19DA);
    (0x2070, 0x2070); (0x2074, 0x2079); (0x2080, 0x2089); (0x2460, 0x2468);
    (0x2474, 0x247C); (0x2488, 0x2490); (0x24EA, 0x24EA); (0x24F5, 0x24FD);
    (0x24FF, 0x24FF); (0x2776, 0x277E); (0x2780, 0x2788); (0x278A, 0x2792);
    (0x10A40, 0x10A43); (0x10E60, 0x10E68); (0x11052, 0x1105A);
    (0x1F100, 0x1F10A) ]%N.

Definition in_range (c : char) (r : N * N) : bool :=
  (fst r <=? c)%N && (c <=? snd r)%N.

Definition in_ranges (c : char) (t : list (N * N)) : bool :=
  existsb (in_range c) t.

Definition isdecimal (c : char) : bool := in_ranges c decimal_ranges.

Definition isdigit (c : char) : bool :=
  isdecimal c || in_ranges c other_digit_ranges.

(** The value of a decimal digit, [None] for any other character. *)
Definition decimal (c : char) : option Z :=
  match find (in_range c) decimal_ranges with
  | Some (lo, _) => Some (Z.of_N ((c - lo) mod 10)%N)
  | None => None
  end.

End unicode.

(** ['0' <= c <= '9'] *)
Definition ascii_digit (c : char) : bool := (0x30 <=? c)%N && (c <=? 0x39)%N.

(** [s.isdigit()]: every character is a digit and there is at least one. *)
Definition isdigit (s : pystr) : bool :=
  match s with
  | [] => false
  | _ => forallb unicode.isdigit s
  end.

(** ** Exceptions and the two monads *)

Inductive exn : Type :=
| ValueError (msg : pystr)
| OverflowError (msg : pystr)
| TypeError (msg : pystr).

Inductive result (A : Type) : Type :=
| Ok (a : A)
| Raise (e : exn).
Arguments Ok {A} a.
Arguments Raise {A} e.

Definition bind {A B : Type} (r : result A) (k : A -> result B) : result B :=
  match r with
  | Ok a => k a
  | Raise e => Raise e
  end.

Declare Scope py_scope.
Delimit Scope py_scope with py.
Notation "x <- r ;; k" := (bind r (fun x => k))
  (at level 61, r at next level, right associativity) : py_scope.

(** A method of an object whose state has type [S]. *)
Definition M (S A : Type) : Type := S -> result A * S.

Definition ret {S A : Type} (a : A) : M S A := fun s => (Ok a, s).
Definition raise {S A : Type} (e : exn) : M S A := fun s => (Raise e, s).
Definition get {S : Type} : M S S := fun s => (Ok s, s).
Definition put {S : Type} (s' : S) : M S unit := fun _ => (Ok tt, s').
Definition lift {S A : Type} (r : result A) : M S A := fun s => (r, s).

Definition mbind {S A B : Type} (m : M S A) (k : A -> M S B) : M S B :=
  fun s => match m s with
           | (Ok a, s') => k a s'
           | (Raise e, s') => (Raise e, s')
           end.

Notation "x <~ m ;; k" := (mbind m (fun x => k))
  (at level 61, m at next level, right associativity) : py_scope.

(** What a call returned or raised, and the object afterwards. *)
Definition outcome {S A : Type} (p : result A * S) : result A := fst p.
Definition after {S A : Type} (p : result A * S) : S := snd p.

(** ** [datetime.date]

    The calendar arithmetic is that of CPython's [datetime] module
    ([Lib/_pydatetime.py]; the C implementation computes the same values, and
    the messages of the exceptions are the C ones).  [//] and [%] by a
    positive divisor are [Z.div] and [Z.modulo]. *)

Module datetime.

Definition MINYEAR : Z := 1.
Definition MAXYEAR : Z := 9999.
Definition _MAXORDINAL : Z := 3652059.

Definition b2z (b : bool) : Z := if b then 1 else 0.

(** [l[i]] for an index the callers keep within the list. *)
Definition index (l : list Z) (i : Z) : Z := nth (Z.to_nat i) l 0.

Definition _DAYS_IN_MONTH : list Z :=
  [-1; 31; 28; 31; 30; 31; 30; 31; 31; 30; 31; 30; 31].

(** The loop that fills [_DAYS_BEFORE_MONTH]: [dbm] is the running sum. *)
Fixpoint days_before_loop (dbm : Z) (dims : list Z) : list Z :=
  match dims with
  | [] => []
  | dim :: rest => dbm :: days_before_loop (dbm + dim) rest
  end.

Definition _DAYS_BEFORE_MONTH : list Z :=
  -1 :: days_before_loop 0 (tl _DAYS_IN_MONTH).

Definition _is_leap (year : Z) : bool :=
  (year mod 4 =? 0) && (negb (year mod 100 =? 0) || (year mod 400 =? 0)).

Definition _days_before_year (year : Z) : Z :=
  let y := year - 1 in
  y * 365 + y / 4 - y / 100 + y / 400.

Definition _days_in_month (year month : Z) : Z :=
  if (month =? 2) && _is_leap year then 29 else index _DAYS_IN_MONTH month.

Definition _days_before_month (year month : Z) : Z :=
  index _DAYS_BEFORE_MONTH month + b2z ((2 <? month) && _is_leap year).

Definition _ymd2ord (year month day : Z) : Z :=
  _days_before_year year + _days_before_month year month + day.

Definition _DI400Y : Z := _days_before_year 401.
Definition _DI100Y : Z := _days_before_year 101.
Definition _DI4Y : Z := _days_before_year 5.

Definition _ord2ymd (n : Z) : Z * Z * Z :=
  let n := n - 1 in
  let n400 := n / _DI400Y in
  let n := n mod _DI400Y in
  let year := n400 * 400 + 1 in
  let n100 := n / _DI100Y in
  let n := n mod _DI100Y in
  let n4 := n / _DI4Y in
  let n := n mod _DI4Y in
  let n1 := n / 365 in
  let n := n mod 365 in
  let year := year + (n100 * 100 + n4 * 4 + n1) in
  if (n1 =? 4) || (n100 =? 4) then (year - 1, 12, 31)
  else
    let leapyear := (n1 =? 3) && (negb (n4 =? 24) || (n100 =? 3)) in
    let month := Z.shiftr (n + 50) 5 in
    let preceding :=
      index _DAYS_BEFORE_MONTH month + b2z ((2 <? month) && leapyear) in
    if n <? preceding then
      let month := month - 1 in
      let preceding :=
        preceding - (index _DAYS_IN_MONTH month + b2z ((month =? 2) && leapyear)) in
      (year, month, n - preceding + 1)
    else (year, month, n - preceding + 1).

Record date : Type := mkdate { year : Z; month : Z; day : Z }.

(** [_check_date_fields]: what the constructor refuses. *)
Definition _check_date_fields (y m d : Z) : result unit :=
  if negb ((MINYEAR <=? y) && (y <=? MAXYEAR)) then
    Raise (ValueError (str "year " ++ int_str y ++ str " is out of range"))
  else if negb ((1 <=? m) && (m <=? 12)) then
    Raise (ValueError (str "month must be in 1..12"))
  else if negb ((1 <=? d) && (d <=? _days_in_month y m)) then
    Raise (ValueError (str "day is out of range for month"))
  else Ok tt.

(** [date(year, month, day)] *)
Definition new (y m d : Z) : result date :=
  (_ <- _check_date_fields y m d ;; Ok (mkdate y m d))%py.

(** [self.replace(year=..., month=..., day=...)]: an omitted argument keeps
    the field of [self]; the result goes through the constructor. *)
Definition replace (self : date) (y m d : option Z) : result date :=
  new (match y with Some v => v | None => year self end)
      (match m with Some v => v | None => month self end)
      (match d with Some v => v | None => day self end).

Definition toordinal (self : date) : Z :=
  _ymd2ord (year self) (month self) (day self).

Definition fromordinal (n : Z) : result date :=
  let '(y, m, d) := _ord2ymd n in new y m d.

Definition weekday (self : date) : Z := (toordinal self + 6) mod 7.

(** [self < other]: the fields compared as the tuple (year, month, day). *)
Definition lt (self other : date) : bool :=
  (year self <? year other)
  || ((year self =? year other)
      && ((month self <? month other)
          || ((month self =? month other) && (day self <? day other)))).

(** A [timedelta] of whole days, which is all the program builds. *)
Definition timedelta : Type := Z.
Definition days (td : timedelta) : Z := td.

(** [self - other] of two dates. *)
Definition sub (self other : date) : timedelta :=
  toordinal self - toordinal other.

(** [self + timedelta(days=n)] *)
Definition add (self : date) (td : timedelta) : result date :=
  let o := toordinal self + days td in
  if (0 <? o) && (o <=? _MAXORDINAL) then fromordinal o
  else Raise (OverflowError (str "date value out of range")).

(** The dates the constructor accepts: every [date] object of a run is one. *)
Definition valid (d : date) : bool :=
  (MINYEAR <=? year d) && (year d <=? MAXYEAR)
  && (1 <=? month d) && (month d <=? 12)
  && (1 <=? day d) && (day d <=? _days_in_month (year d) (month d)).

End datetime.

(** ** [datetime.strptime] and [date.strftime]

    A format is read as a sequence of directives and literal characters.
    [strptime] turns it into a regular expression, one group per directive,
    and matches it at the start of the data with Python's backtracking
    search: the alternatives of a group are tried in the order written and
    the first one that lets the rest of the pattern match is kept.  The
    groups below are the ones of [Lib/_strptime.py]:
    - [%d] is [3[0-1]|[1-2]\d|0[1-9]|[1-9]| [1-9]],
    - [%m] is [1[0-2]|0[1-9]|[1-9]],
    - [%Y] is [\d\d\d\d]. *)

Module _strptime.

Inductive directive : Type := pct_d | pct_m | pct_Y.

Inductive item : Type :=
| Directive (d : directive)
| Literal (c : char).

Definition directive_eqb (a b : directive) : bool :=
  match a, b with
  | pct_d, pct_d | pct_m, pct_m | pct_Y, pct_Y => true
  | _, _ => false
  end.

(** A character class, and an alternative as the classes of its characters. *)
Definition class : Type := char -> bool.
Definition exactly (a : N) : class := fun c => N.eqb c a.
Definition between (lo hi : N) : class := fun c => (lo <=? c)%N && (c <=? hi)%N.
Definition backslash_d : class := unicode.isdecimal.

Definition alternatives (d : directive) : list (list class) :=
  (match d with
   | pct_d => [ [exactly 0x33; between 0x30 0x31];
                [between 0x31 0x32; backslash_d];
                [exactly 0x30; between 0x31 0x39];
                [between 0x31 0x39];
                [exactly 0x20; between 0x31 0x39] ]
   | pct_m => [ [exactly 0x31; between 0x30 0x32];
                [exactly 0x30; between 0x31 0x39];
                [between 0x31 0x39] ]
   | pct_Y => [ [backslash_d; backslash_d; backslash_d; backslash_d] ]
   end)%N.

(** One alternative against the start of [s]: the text it matched and what
    follows. *)
Fixpoint match_alternative (alt : list class) (s : pystr) : option (pystr * pystr) :=
  match alt with
  | [] => Some ([], s)
  | cl :: alt' =>
      match s with
      | c :: s' =>
          if cl c then
            match match_alternative alt' s' with
            | Some (g, rest) => Some (c :: g, rest)
            | None => None
            end
          else None
      | [] => None
      end
  end.

Definition groups : Type := list (directive * pystr).

(** The first alternative, in order, that [attempt] accepts. *)
Fixpoint first_match {A : Type} (attempt : list class -> option A)
  (alts : list (list class)) : option A :=
  match alts with
  | [] => None
  | alt :: alts' =>
      match attempt alt with
      | Some r => Some r
      | None => first_match attempt alts'
      end
  end.

(** [format_regex.match(data_string)]: the groups found and the unmatched
    rest of the data. *)
Fixpoint regex_match (format : list item) (s : pystr) : option (groups * pystr) :=
  match format with
  | [] => Some ([], s)
  | Literal a :: format' =>
      match s with
      | c :: s' => if N.eqb c a then regex_match format' s' else None
      | [] => None
      end
  | Directive d :: format' =>
      first_match
        (fun alt =>
           match match_alternative alt s with
           | Some (g, s') =>
               match regex_match format' s' with
               | Some (gs, rest) => Some ((d, g) :: gs, rest)
               | None => None
               end
           | None => None
           end)
        (alternatives d)
  end.

Definition group (d : directive) (gs : groups) : option pystr :=
  match find (fun p => directive_eqb (fst p) d) gs with
  | Some (_, g) => Some g
  | None => None
  end.

Fixpoint int_loop (s : pystr) (acc : Z) : option Z :=
  match s with
  | [] => Some acc
  | c :: s' =>
      match unicode.decimal c with
      | Some v => int_loop s' (acc * 10 + v)
      | None => None
      end
  end.

Fixpoint lstrip (s : pystr) : pystr :=
  match s with
  | c :: s' => if N.eqb c 0x20 then lstrip s' else s
  | [] => []
  end.

(** [int(g)] of a matched group: decimal digits of any script after
    leading spaces.  [None] stands for the [ValueError] of a text that is not
    a number, which no group of the patterns above is. *)
Definition int (g : pystr) : option Z :=
  match lstrip g with
  | [] => None
  | ds => int_loop ds 0
  end.

(** The field a directive sets, and its default when the format has no such
    directive (year 1900, month 1, day 1). *)
Definition field (d : directive) (default : Z) (gs : groups) : result Z :=
  match group d gs with
  | None => Ok default
  | Some g =>
      match int g with
      | Some v => Ok v
      | None => Raise (ValueError (str "invalid literal for int() with base 10"))
      end
  end.

(** [datetime.strptime(data_string, format).date()] *)
Definition strptime (data_string : pystr) (format : list item) : result datetime.date :=
  match regex_match format data_string with
  | None => Raise (ValueError (str "time data does not match format"))
  | Some (gs, rest) =>
      match rest with
      | _ :: _ => Raise (ValueError (str "unconverted data remains"))
      | [] =>
          (y <- field pct_Y 1900 gs ;;
           m <- field pct_m 1 gs ;;
           d <- field pct_d 1 gs ;;
           datetime.new y m d)%py
      end
  end.

(** The C library's [%Y]: padded with zeros to four digits, or the bare
    number (glibc).  CPython calls the platform's [strftime] and, before
    3.13, passes its [%Y] through unchanged. *)
Inductive year_style : Type := year_padded | year_plain.

Definition format_directive (ys : year_style) (d : directive) (self : datetime.date) : pystr :=
  match d with
  | pct_d => zfill 2 (int_str (datetime.day self))
  | pct_m => zfill 2 (int_str (datetime.month self))
  | pct_Y =>
      match ys with
      | year_padded => zfill 4 (int_str (datetime.year self))
      | year_plain => int_str (datetime.year self)
      end
  end.

(** [self.strftime(format)] *)
Fixpoint strftime (ys : year_style) (self : datetime.date) (format : list item) : pystr :=
  match format with
  | [] => []
  | Literal c :: format' => c :: strftime ys self format'
  | Directive d :: format' => format_directive ys d self ++ strftime ys self format'
  end.

End _strptime.

(** ** [dict]: keys in insertion order

    [AddressBook] is a [UserDict]; its [data] is a [dict] from names to
    records.  A [dict] iterates in insertion order, and storing under a key
    already present keeps that key's place. *)

Module dict.

Definition t (V : Type) : Type := list (pystr * V).

(** [d.get(k)] *)
Fixpoint get {V : Type} (k : pystr) (d : t V) : option V :=
  match d with
  | [] => None
  | (k', v) :: d' => if pystr_eqb k' k then Some v else get k d'
  end.

(** [k in d] *)
Definition contains {V : Type} (k : pystr) (d : t V) : bool :=
  match get k d with Some _ => true | None => false end.

(** [d[k] = v] *)
Fixpoint setitem {V : Type} (k : pystr) (v : V) (d : t V) : t V :=
  match d with
  | [] => [(k, v)]
  | (k', v') :: d' =>
      if pystr_eqb k' k then (k', v) :: d' else (k', v') :: setitem k v d'
  end.

(** [del d[k]] for a key that is present. *)
Fixpoint delitem {V : Type} (k : pystr) (d : t V) : t V :=
  match d with
  | [] => []
  | (k', v') :: d' =>
      if pystr_eqb k' k then d' else (k', v') :: delitem k d'
  end.

(** [d.items()] *)
Definition items {V : Type} (d : t V) : list (pystr * V) := d.

Definition keys {V : Type} (d : t V) : list pystr := map fst d.

End dict.

(** ** Lists updated by index *)

(** The index at which [for index, x in enumerate(l)] first meets an [x]
    that satisfies [f]. *)
Fixpoint first_index {A : Type} (f : A -> bool) (l : list A) : option nat :=
  match l with
  | [] => None
  | x :: l' =>
      if f x then Some O
      else match first_index f l' with
           | Some i => Some (S i)
           | None => None
           end
  end.

(** [l.pop(index)] and [l[index] = v], for an index within the list. *)
Definition pop {A : Type} (index : nat) (l : list A) : list A :=
  firstn index l ++ skipn (S index) l.

Definition setindex {A : Type} (index : nat) (v : A) (l : list A) : list A :=
  firstn index l ++ v :: skipn (S index) l.

(** ** The program: [src/virtual_assistant.py] *)

Import _strptime.

Definition PHONE_LENGTH : Z := 10.
Definition DATE_FORMAT : pystr := str "%d.%m.%Y".
Definition WEEKEND_DAYS : Z := 5.
Definition DAYS_IN_WEEK : Z := 7.

(** A format string as [strptime] and [strftime] read it: [%d], [%m] and
    [%Y] are directives and any other character stands for itself.  (The
    model covers formats without blanks and without other directives, as
    [DATE_FORMAT] is.) *)
Fixpoint read_format (f : pystr) : list item :=
  match f with
  | [] => []
  | c :: f' =>
      match f' with
      | c' :: f'' =>
          if N.eqb c 0x25 && N.eqb c' 0x64 then Directive pct_d :: read_format f''
          else if N.eqb c 0x25 && N.eqb c' 0x6D then Directive pct_m :: read_format f''
          else if N.eqb c 0x25 && N.eqb c' 0x59 then Directive pct_Y :: read_format f''
          else Literal c :: read_format f'
      | [] => [Literal c]
      end
  end.

(** The surroundings of a run: the system clock, of which [date.today()]
    returns the date and drops the time of day (in seconds), and the C
    library's rendering of [%Y]. *)
Record env : Type := mkenv {
  clock : datetime.date;
  time_of_day : Z;
  libc_year : year_style
}.

Module Name.
(** [class Name(Field)]: the value as given. *)
Record t : Type := mk { value : pystr }.
Definition __init__ (value : pystr) : t := mk value.
End Name.

Module Phone.

Record t : Type := mk { value : pystr }.

(** The argument is a [str] by its type, so the [isinstance] test passes. *)
Definition _validate_phone (phone_number : pystr) : result unit :=
  if negb (isdigit phone_number) then
    Raise (ValueError (str "Phone must contain only digits."))
  else if negb (len phone_number =? PHONE_LENGTH) then
    Raise (ValueError (str "Phone must be exactly " ++ int_str PHONE_LENGTH ++ str " digits"))
  else Ok tt.

Definition __init__ (phone_number : pystr) : result t :=
  (_ <- _validate_phone phone_number ;; Ok (mk phone_number))%py.

End Phone.

Module Birthday.

Record t : Type := mk { value : datetime.date }.

Definition __init__ (value : pystr) : result t :=
  match strptime value (read_format DATE_FORMAT) with
  | Ok d => Ok (mk d)
  | Raise (ValueError _) =>
      Raise (ValueError (str "Invalid date format. Use " ++ DATE_FORMAT))
  | Raise e => Raise e
  end.

End Birthday.

Module Record.

Record t : Type := mk {
  name : Name.t;
  phones : list Phone.t;
  birthday : option Birthday.t
}.

Definition __init__ (name : pystr) : t := mk (Name.__init__ name) [] None.

Definition has_value (phone : pystr) (phone_obj : Phone.t) : bool :=
  pystr_eqb (Phone.value phone_obj) phone.

Definition find_phone (self : t) (phone : pystr) : option Phone.t :=
  find (has_value phone) (phones self).

Definition add_phone (phone_raw : pystr) : M t unit :=
  (self <~ get ;;
   match find_phone self phone_raw with
   | Some _ => raise (ValueError (str "This phone is already added."))
   | None =>
       new_phone <~ lift (Phone.__init__ phone_raw) ;;
       put (mk (name self) (phones self ++ [new_phone]) (birthday self))
   end)%py.

Definition remove_phone (phone_to_delete : pystr) : M t bool :=
  (self <~ get ;;
   match first_index (has_value phone_to_delete) (phones self) with
   | Some index =>
       _ <~ put (mk (name self) (pop index (phones self)) (birthday self)) ;;
       ret true
   | None => ret false
   end)%py.

Definition edit_phone (old_phone new_phone : pystr) : M t bool :=
  (self <~ get ;;
   match first_index (has_value old_phone) (phones self) with
   | Some index =>
       p <~ lift (Phone.__init__ new_phone) ;;
       _ <~ put (mk (name self) (setindex index p (phones self)) (birthday self)) ;;
       ret true
   | None => ret false
   end)%py.

Definition add_birthday (birthday : pystr) : M t unit :=
  (self <~ get ;;
   b <~ lift (Birthday.__init__ birthday) ;;
   put (mk (name self) (phones self) (Some b)))%py.

(** [__str__]; the sentinel of an absent birthday is an em dash. *)
Definition __str__ (e : env) (self : t) : pystr :=
  let phones := join (str "; ") (map Phone.value (phones self)) in
  let birthday :=
    match birthday self with
    | Some b => strftime (libc_year e) (Birthday.value b) (read_format DATE_FORMAT)
    | None => [0x2014%N]
    end in
  Name.value (name self) ++ str ": phones=[" ++ phones ++ str "], birthday=" ++ birthday.

End Record.

Module AddressBook.

Record t : Type := mk { data : dict.t Record.t }.

(** [AddressBook()]: an empty directory. *)
Definition __init__ : t := mk [].

Definition add_record (record : Record.t) : M t unit :=
  (self <~ get ;;
   put (mk (dict.setitem (Name.value (Record.name record)) record (data self))))%py.

Definition find (self : t) (name : pystr) : option Record.t :=
  dict.get name (data self).

Definition delete (name : pystr) : M t bool :=
  (self <~ get ;;
   if dict.contains name (data self) then
     _ <~ put (mk (dict.delitem name (data self))) ;;
     ret true
   else ret false)%py.

(** An element of the list [get_upcoming_birthdays] returns: the dict
    [{'name': ..., 'congratulation_date': ...}]. *)
Record entry : Type := mkentry { name : pystr; congratulation_date : pystr }.

(** The body of the [for] loop, from the item it is at, with the list built
    so far.  An exception leaves the loop and the method. *)
Fixpoint loop (e : env) (today : datetime.date) (items : list (pystr * Record.t))
  (upcoming_birthdays : list entry) : result (list entry) :=
  match items with
  | [] => Ok upcoming_birthdays
  | (name, record) :: items' =>
      match Record.birthday record with
      | None => loop e today items' upcoming_birthdays
      | Some b =>
          let birthday := Birthday.value b in
          (birthday_this_year <-
             datetime.replace birthday (Some (datetime.year today)) None None ;;
           birthday_this_year <-
             (if datetime.lt birthday_this_year today then
                datetime.replace birthday (Some (datetime.year today + 1)) None None
              else Ok birthday_this_year) ;;
           let days_until_birthday :=
             datetime.days (datetime.sub birthday_this_year today) in
           if (0 <=? days_until_birthday) && (days_until_birthday <=? DAYS_IN_WEEK) then
             let congratulation_date := birthday_this_year in
             congratulation_date <-
               (if WEEKEND_DAYS <=? datetime.weekday congratulation_date then
                  let days_to_monday :=
                    DAYS_IN_WEEK - datetime.weekday congratulation_date in
                  datetime.add congratulation_date days_to_monday
                else Ok congratulation_date) ;;
             loop e today items'
               (upcoming_birthdays ++
                [mkentry name
                   (strftime (libc_year e) congratulation_date (read_format DATE_FORMAT))])
           else loop e today items' upcoming_birthdays)%py
      end
  end.

(** [get_upcoming_birthdays(self)]: no parameter besides [self]; the date
    is read from the clock. *)
Definition get_upcoming_birthdays (self : t) (e : env) : result (list entry) :=
  let today := clock e in
  let upcoming_birthdays := [] in
  loop e today (dict.items (data self)) upcoming_birthdays.

(** A call of the method with positional arguments [args]: the method takes
    [self] alone, so any further argument is a [TypeError]. *)
Definition call_get_upcoming_birthdays (self : t) (args : list datetime.date) (e : env)
  : result (list entry) :=
  match args with
  | [] => get_upcoming_birthdays self e
  | _ :: _ =>
      Raise (TypeError
               (str "AddressBook.get_upcoming_birthdays() takes 1 positional argument but "
                ++ int_str (1 + len args) ++ str " were given"))
  end.

End AddressBook.

(** ** The command handlers and their decorator

    A handler receives the arguments of a command and the directory, and
    returns the text to print.  Besides the exceptions of the classes above
    it can raise what unpacking and indexing its arguments raise; the
    decorator [input_error] turns [ValueError], [KeyError] and [IndexError]
    into text and lets anything else through.

    A handler holds the record object that [find] gave it, or that it has
    just stored with [add_record]: what a method does to that object, it does
    to the entry of the directory.  [on_record] is such a call. *)

Inductive raised : Type :=
| Exn (e : exn)
| IndexError (msg : pystr)
| KeyError (msg : pystr).

Inductive returned (A : Type) : Type :=
| Returns (a : A)
| Raises (r : raised).
Arguments Returns {A} a.
Arguments Raises {A} r.

(** A function that works on the directory. *)
Definition H (A : Type) : Type := AddressBook.t -> returned A * AddressBook.t.

Definition hret {A : Type} (a : A) : H A := fun book => (Returns a, book).
Definition hraise {A : Type} (r : raised) : H A := fun book => (Raises r, book).

Definition hbind {A B : Type} (m : H A) (k : A -> H B) : H B :=
  fun book => match m book with
              | (Returns a, book') => k a book'
              | (Raises r, book') => (Raises r, book')
              end.

Notation "x <== m ;; k" := (hbind m (fun x => k))
  (at level 61, m at next level, right associativity) : py_scope.

(** A method of the directory, called by a handler. *)
Definition of_book {A : Type} (m : M AddressBook.t A) : H A :=
  fun book => match m book with
              | (Ok a, book') => (Returns a, book')
              | (Raise e, book') => (Raises (Exn e), book')
              end.

(** A method called on the record object that the directory holds under
    [name]: the entry is the object after the call, in its place. *)
Definition on_record {A : Type} (name : pystr) (record : Record.t) (m : M Record.t A) : H A :=
  fun book =>
    let entry record' := AddressBook.mk (dict.setitem name record' (AddressBook.data book)) in
    match m record with
    | (Ok a, record') => (Returns a, entry record')
    | (Raise e, record') => (Raises (Exn e), entry record')
    end.

(** [a, b, *_ = args] of a list that is too short. *)
Definition not_enough_values (expected : Z) (args : list pystr) : raised :=
  Exn (ValueError (str "not enough values to unpack (expected at least "
                   ++ int_str expected ++ str ", got " ++ int_str (len args) ++ str ")")).

Definition list_index_out_of_range : raised :=
  IndexError (str "list index out of range").

(** [", ".join(phone.value for phone in record.phones)] *)
Definition phones_text (record : Record.t) : pystr :=
  join (str ", ") (map Phone.value (Record.phones record)).

(** [input_error(func)], as applied to the arguments of one call. *)
Definition input_error {A : Type} (func : A -> H pystr) (args : A) : H pystr :=
  fun book =>
    match func args book with
    | (Raises (Exn (ValueError msg)), book') => (Returns msg, book')
    | (Raises (KeyError _), book') => (Returns (str "key error."), book')
    | (Raises (IndexError _), book') =>
        (Returns (str "Enter the argument for the command."), book')
    | other => other
    end.

(** The functions as written, before the decorator is applied. *)
Module func.

Definition add_birthday (args : list pystr) : H pystr :=
  match args with
  | name :: birthday :: _ =>
      fun book =>
        match AddressBook.find book name with
        | None =>
            let record := Record.__init__ name in
            (_ <== of_book (AddressBook.add_record record) ;;
             _ <== on_record name record (Record.add_birthday birthday) ;;
             hret (str "Contact '" ++ name ++ str "' created with birthday "
                   ++ birthday ++ str "."))%py book
        | Some record =>
            (_ <== on_record name record (Record.add_birthday birthday) ;;
             hret (str "Birthday " ++ birthday ++ str " added to contact '"
                   ++ name ++ str "'."))%py book
        end
  | _ => hraise (not_enough_values 2 args)
  end.

Definition show_birthday (e : env) (args : list pystr) : H pystr :=
  match args with
  | name :: _ =>
      fun book =>
        match AddressBook.find book name with
        | Some record =>
            match Record.birthday record with
            | Some b =>
                hret (str "Birthday of " ++ name ++ str " is "
                      ++ strftime (libc_year e) (Birthday.value b) (read_format DATE_FORMAT))
                     book
            | None =>
                hret (str "Error: Contact '" ++ name ++ str "' has no birthday.") book
            end
        | None => hret (str "Error: Contact '" ++ name ++ str "' not found.") book
        end
  | _ => hraise (not_enough_values 1 args)
  end.

Definition birthday_line (birthday : AddressBook.entry) : pystr :=
  AddressBook.name birthday ++ str ": " ++ AddressBook.congratulation_date birthday.

Definition birthdays (e : env) (_ : unit) : H pystr :=
  fun book =>
    match AddressBook.get_upcoming_birthdays book e with
    | Raise x => (Raises (Exn x), book)
    | Ok [] => (Returns (str "No upcoming birthdays."), book)
    | Ok upcoming_birthdays =>
        (Returns (join [0x0A%N]
                    (str "Upcoming birthdays:" :: map birthday_line upcoming_birthdays)),
         book)
    end.

Definition add_contact (args : list pystr) : H pystr :=
  match args with
  | [] => hret (str "Error: Please provide at least a name.")
  | name :: rest =>
      let phone := match rest with p :: _ => Some p | [] => None end in
      let given := match phone with Some (_ :: _) => true | _ => false end in
      let phone_text := match phone with Some p => p | None => [] end in
      fun book =>
        match AddressBook.find book name with
        | None =>
            let record := Record.__init__ name in
            (_ <== of_book (AddressBook.add_record record) ;;
             if given then
               _ <== on_record name record (Record.add_phone phone_text) ;;
               hret (str "Contact '" ++ name ++ str "' created with phone "
                     ++ phone_text ++ str ".")
             else
               hret (str "Contact '" ++ name ++ str "' created without phone."))%py book
        | Some record =>
            (if given then
               _ <== on_record name record (Record.add_phone phone_text) ;;
               hret (str "Phone " ++ phone_text ++ str " added to contact '"
                     ++ name ++ str "'.")
             else
               hret (str "Contact '" ++ name ++ str "' already exists."))%py book
        end
  end.

Definition change_contact (args : list pystr) : H pystr :=
  match args with
  | name :: old_phone :: new_phone :: _ =>
      fun book =>
        match AddressBook.find book name with
        | None => hret (str "Error: Contact '" ++ name ++ str "' not found.") book
        | Some record =>
            (found <== on_record name record (Record.edit_phone old_phone new_phone) ;;
             if found : bool then hret (str "Contact updated.")
             else hret (str "Error: Phone '" ++ old_phone ++ str "' not found."))%py book
        end
  | _ => hraise (not_enough_values 3 args)
  end.

Definition show_phone (args : list pystr) : H pystr :=
  match args with
  | [] => hraise list_index_out_of_range
  | name :: _ =>
      fun book =>
        match AddressBook.find book name with
        | Some record =>
            match Record.phones record with
            | _ :: _ =>
                hret (str "Phones of " ++ name ++ str ": " ++ phones_text record) book
            | [] => hret (str "Contact '" ++ name ++ str "' has no phones.") book
            end
        | None => hret (str "Error: Contact '" ++ name ++ str "' not found.") book
        end
  end.

Definition contact_line (item : pystr * Record.t) : pystr :=
  fst item ++ str ": " ++ phones_text (snd item).

Definition show_all (_ : unit) : H pystr :=
  fun book =>
    match dict.items (AddressBook.data book) with
    | [] => (Returns (str "No contacts found."), book)
    | items => (Returns (join [0x0A%N] (map contact_line items)), book)
    end.

End func.

(** The handlers, decorated. *)
Definition add_birthday : list pystr -> H pystr := input_error func.add_birthday.
Definition show_birthday (e : env) : list pystr -> H pystr := input_error (func.show_birthday e).
Definition birthdays (e : env) : H pystr := input_error (func.birthdays e) tt.
Definition add_contact : list pystr -> H pystr := input_error func.add_contact.
Definition change_contact : list pystr -> H pystr := input_error func.change_contact.
Definition show_phone : list pystr -> H pystr := input_error func.show_phone.
Definition show_all : H pystr := input_error func.show_all tt.

(** The table [commands] of [main]: the handler of each command word.  The
    entries of [all] and [birthdays] are the lambdas that drop the
    arguments. *)
Definition commands (e : env) : dict.t (list pystr -> H pystr) :=
  [ (str "add", add_contact);
    (str "change", change_contact);
    (str "phone", show_phone);
    (str "all", fun _ => show_all);
    (str "add-birthday", add_birthday);
    (str "show-birthday", show_birthday e);
    (str "birthdays", fun _ => birthdays e) ].

(** * Auxiliary definitions

    Definitions the statements and proofs below use: readings of the
    specification's words, to be compared with the program, and checkers run
    over finite ranges. *)

Section CalendarDefinitions.
Import datetime.

(** The tail of [_ord2ymd]: the month and the day of the month at offset [n]
    from 1 January, in a leap year or not. *)
Definition month_day (leapyear : bool) (n : Z) : Z * Z :=
  let month := Z.shiftr (n + 50) 5 in
  let preceding := index _DAYS_BEFORE_MONTH month + b2z ((2 <? month) && leapyear) in
  if n <? preceding then
    (month - 1,
     n - (preceding - (index _DAYS_IN_MONTH (month - 1) + b2z ((month - 1 =? 2) && leapyear))) + 1)
  else (month, n - preceding + 1).

(** What [month_day] has to satisfy; checked for each offset of a year. *)
Definition month_day_ok (leapyear : bool) (n : Z) : bool :=
  let '(m, d) := month_day leapyear n in
  (1 <=? m) && (m <=? 12) && (1 <=? d)
  && (d <=? (if (m =? 2) && leapyear then 29 else index _DAYS_IN_MONTH m))
  && (index _DAYS_BEFORE_MONTH m + b2z ((2 <? m) && leapyear) + d =? n + 1).

End CalendarDefinitions.

(** ** Dates as text *)

(** The value of an ASCII digit. *)
Definition digit_value (c : char) : Z := Z.of_N c - 48.

(** The specification's [DD.MM.YYYY] form: two digits of the day, a dot, two
    digits of the month, a dot, four digits of the year, all ASCII, and the
    three numbers a date of the calendar.  [Some d] gives that date. *)
Definition dd_mm_yyyy (s : pystr) : option datetime.date :=
  match s with
  | [d1; d2; p1; m1; m2; p2; y1; y2; y3; y4] =>
      if forallb ascii_digit [d1; d2; m1; m2; y1; y2; y3; y4]
         && N.eqb p1 0x2E && N.eqb p2 0x2E
      then
        let d :=
          datetime.mkdate
            (1000 * digit_value y1 + 100 * digit_value y2
             + 10 * digit_value y3 + digit_value y4)
            (10 * digit_value m1 + digit_value m2)
            (10 * digit_value d1 + digit_value d2) in
        if datetime.valid d then Some d else None
      else None
  | _ => None
  end.

(** The digits of a number below 10000, padded to four places, and of a
    number below 100, padded to two. *)
Definition four_digits (n : Z) : pystr :=
  [Z.to_N (48 + n / 1000); Z.to_N (48 + (n / 100) mod 10);
   Z.to_N (48 + (n / 10) mod 10); Z.to_N (48 + n mod 10)].

Definition two_digits (n : Z) : pystr :=
  [Z.to_N (48 + n / 10); Z.to_N (48 + n mod 10)].

(** What [int_str] and [zfill] have to produce; checked for each number
    below 10000. *)
Definition render_ok (n : Z) : bool :=
  pystr_eqb (zfill 4 (int_str n)) (four_digits n)
  && ((n <? 1000) || pystr_eqb (int_str n) (four_digits n))
  && ((100 <=? n) || pystr_eqb (zfill 2 (int_str n)) (two_digits n)).

(** The date [strptime] reads off a string, before the constructor checks
    it against the calendar: [None] when the string does not match the
    pattern of [DATE_FORMAT] from its first to its last character. *)
Definition parsed (s : pystr) : option datetime.date :=
  match regex_match (read_format DATE_FORMAT) s with
  | Some (gs, []) =>
      match field pct_Y 1900 gs, field pct_m 1 gs, field pct_d 1 gs with
      | Ok y, Ok m, Ok d => Some (datetime.mkdate y m d)
      | _, _, _ => None
      end
  | _ => None
  end.

(** What [Birthday] raises in place of any [ValueError] of [strptime]. *)
Definition invalid_date_format : exn :=
  ValueError (str "Invalid date format. Use %d.%m.%Y").

(** ** Histories of a record *)

(** A call of one of the methods of [Record] that change it. *)
Inductive op : Type :=
| call_add_phone (phone_raw : pystr)
| call_remove_phone (phone_to_delete : pystr)
| call_edit_phone (old_phone new_phone : pystr)
| call_add_birthday (birthday : pystr).

(** The record after the call, whether the call returned or raised. *)
Definition step (o : op) (self : Record.t) : Record.t :=
  match o with
  | call_add_phone phone_raw => after (Record.add_phone phone_raw self)
  | call_remove_phone phone_to_delete => after (Record.remove_phone phone_to_delete self)
  | call_edit_phone old_phone new_phone => after (Record.edit_phone old_phone new_phone self)
  | call_add_birthday birthday => after (Record.add_birthday birthday self)
  end.

Definition run (ops : list op) (self : Record.t) : Record.t :=
  fold_left (fun r o => step o r) ops self.

(** The records a program can hold: a fresh one after any calls. *)
Definition reachable (r : Record.t) : Prop :=
  exists name ops, r = run ops (Record.__init__ name).

Definition phone_values (self : Record.t) : list pystr :=
  map Phone.value (Record.phones self).

(** Every phone of the record passed the validation of [Phone]. *)
Definition valid_phones (self : Record.t) : Prop :=
  Forall (fun p => Phone._validate_phone (Phone.value p) = Ok tt) (Record.phones self).

Definition is_edit (o : op) : bool :=
  match o with
  | call_edit_phone _ _ => true
  | _ => false
  end.

Definition already_added : exn := ValueError (str "This phone is already added.").

(** ** The birthday window, in the specification's words *)

Section WindowDefinitions.
Import datetime.

(** The birthday with its year replaced. *)
Definition in_year (y : Z) (birthday : date) : date :=
  mkdate y (month birthday) (day birthday).

(** The occurrence the query looks at: the birthday in the year of [today],
    moved to the next year when that day is strictly before [today].  [None]
    when the calendar has no such day. *)
Definition occurrence (today birthday : date) : option date :=
  let this_year := in_year (year today) birthday in
  if valid this_year then
    if lt this_year today then
      let next_year := in_year (year today + 1) birthday in
      if valid next_year then Some next_year else None
    else Some this_year
  else None.

(** The difference in days from [today]. *)
Definition delta (today occ : date) : Z := toordinal occ - toordinal today.

Definition in_window (today occ : date) : bool :=
  (0 <=? delta today occ) && (delta today occ <=? 7).

(** The date [k] days after [d]. *)
Definition plus_days (d : date) (k : Z) : date :=
  let '(y, m, dd) := _ord2ymd (toordinal d + k) in mkdate y m dd.

(** The day of the greeting: a Saturday (weekday 5) or a Sunday (weekday 6)
    moves forward by 7 minus its weekday, any other day stays. *)
Definition congratulation (occ : date) : date :=
  if (weekday occ =? 5) || (weekday occ =? 6)
  then plus_days occ (7 - weekday occ)
  else occ.

End WindowDefinitions.

(** What the query has to emit for one item of the directory. *)
Definition emitted (e : env) (item : pystr * Record.t) : list AddressBook.entry :=
  match Record.birthday (snd item) with
  | None => []
  | Some b =>
      match occurrence (clock e) (Birthday.value b) with
      | Some occ =>
          if in_window (clock e) occ then
            [AddressBook.mkentry (fst item)
               (_strptime.strftime (libc_year e) (congratulation occ)
                  (read_format DATE_FORMAT))]
          else []
      | None => []
      end
  end.

Definition emits (e : env) (item : pystr * Record.t) : bool :=
  match emitted e item with
  | [] => false
  | _ :: _ => true
  end.

(** The calendar has the occurrence of the item's birthday, if it has one. *)
Definition projectable (today : datetime.date) (item : pystr * Record.t) : bool :=
  match Record.birthday (snd item) with
  | None => true
  | Some b =>
      match occurrence today (Birthday.value b) with
      | Some _ => true
      | None => false
      end
  end.

(** The names and birthdays of a directory, in its order: all the query
    reads of it. *)
Definition birthdays_of (book : AddressBook.t) : list (pystr * option Birthday.t) :=
  map (fun item : pystr * Record.t => (fst item, Record.birthday (snd item)))
      (AddressBook.data book).

(** A list of strings in ascending order, by code points. *)
Fixpoint pystr_leb (a b : pystr) : bool :=
  match a, b with
  | [], _ => true
  | _ :: _, [] => false
  | x :: a', y :: b' => (x <? y)%N || (N.eqb x y && pystr_leb a' b')
  end.

Fixpoint ascending (l : list pystr) : bool :=
  match l with
  | a :: ((b :: _) as rest) => pystr_leb a b && ascending rest
  | _ => true
  end.

(** One turn of the loop of [get_upcoming_birthdays]: what it appends to the
    list for the item it is at, or the exception it raises. *)
Definition turn (e : env) (item : pystr * Record.t) : result (list AddressBook.entry) :=
  match Record.birthday (snd item) with
  | None => Ok []
  | Some b =>
      let birthday := Birthday.value b in
      let today := clock e in
      (birthday_this_year <-
         datetime.replace birthday (Some (datetime.year today)) None None ;;
       birthday_this_year <-
         (if datetime.lt birthday_this_year today then
            datetime.replace birthday (Some (datetime.year today + 1)) None None
          else Ok birthday_this_year) ;;
       let days_until_birthday :=
         datetime.days (datetime.sub birthday_this_year today) in
       if (0 <=? days_until_birthday) && (days_until_birthday <=? DAYS_IN_WEEK) then
         congratulation_date <-
           (if WEEKEND_DAYS <=? datetime.weekday birthday_this_year then
              datetime.add birthday_this_year
                (DAYS_IN_WEEK - datetime.weekday birthday_this_year)
            else Ok birthday_this_year) ;;
         Ok [AddressBook.mkentry (fst item)
               (_strptime.strftime (libc_year e) congratulation_date
                  (read_format DATE_FORMAT))]
       else Ok [])%py
  end.

(** ** Invariants and effects, for the properties of the remaining code *)

(** What every record a program can hold satisfies. *)
Definition record_invariant (name0 : pystr) (r : Record.t) : Prop :=
  Record.name r = Name.mk name0
  /\ Forall (fun p => len (Phone.value p) = 10
                      /\ forallb unicode.isdigit (Phone.value p) = true) (Record.phones r)
  /\ (forall b, Record.birthday r = Some b -> datetime.valid (Birthday.value b) = true).

(** The keys of the directory are pairwise distinct, as the keys of a [dict]
    are. *)
Definition unique_keys (book : AddressBook.t) : Prop :=
  NoDup (dict.keys (AddressBook.data book)).

(** Every birthday of the directory is a date of the calendar, as every
    birthday that [Birthday] constructed is. *)
Definition valid_birthdays (book : AddressBook.t) : Prop :=
  Forall (fun item : pystr * Record.t =>
            forall b, Record.birthday (snd item) = Some b ->
                      datetime.valid (Birthday.value b) = true)
         (AddressBook.data book).

(** The birthdays for which replacing the year raises: 29 February when the
    year of [today] is no leap year or the day is already past, and any day
    already past in the last year of the calendar. *)
Definition lacks_occurrence (today birthday : datetime.date) : bool :=
  let y := datetime.year today in
  let past := datetime.lt (in_year y birthday) today in
  ((datetime.month birthday =? 2) && (datetime.day birthday =? 29)
   && (negb (datetime._is_leap y) || past))
  || ((y =? datetime.MAXYEAR) && past).

Definition raising (today : datetime.date) (item : pystr * Record.t) : bool :=
  match Record.birthday (snd item) with
  | Some b => lacks_occurrence today (Birthday.value b)
  | None => false
  end.

(** The directory with [record] as the entry of [name]: in the place of the
    entry it had, or at the end. *)
Definition store (name : pystr) (record : Record.t) (book : AddressBook.t) : AddressBook.t :=
  AddressBook.mk (dict.setitem name record (AddressBook.data book)).

Definition with_phones (record : Record.t) (phones : list Phone.t) : Record.t :=
  Record.mk (Record.name record) phones (Record.birthday record).

Definition with_birthday (record : Record.t) (b : Birthday.t) : Record.t :=
  Record.mk (Record.name record) (Record.phones record) (Some b).


(** The directories of a session: the empty directory of [main], and the
    directory after any handler of [commands] was called on one of them. *)
Inductive served (e : env) : AddressBook.t -> Prop :=
| served_start : served e AddressBook.__init__
| served_call (book : AddressBook.t) (command : pystr)
    (handler : list pystr -> H pystr) (args : list pystr) :
    served e book ->
    dict.get command (commands e) = Some handler ->
    served e (snd (handler args book)).

(** What every directory of a session satisfies: distinct keys, and under
    each key a record of that name with valid phones and a valid birthday. *)
Definition book_invariant (book : AddressBook.t) : Prop :=
  unique_keys book
  /\ Forall (fun item : pystr * Record.t => record_invariant (fst item) (snd item))
            (AddressBook.data book).

(** What the constructor of [date] raises for a day the month does not have. *)
Definition day_out_of_range : exn := ValueError (str "day is out of range for month").

(** * Properties of the runtime: the calendar *)

Section Calendar.
Import datetime.

(** The days before a year, by its place in the cycles of 400, 100, 4 and 1
    years. *)
Lemma days_before_year_split (q400 n100 n4 n1 : Z) :
  0 <= n100 <= 3 -> 0 <= n4 <= 24 -> 0 <= n1 <= 3 ->
  _days_before_year (q400 * 400 + 1 + (n100 * 100 + n4 * 4 + n1))
  = q400 * 146097 + n100 * 36524 + n4 * 1461 + n1 * 365.
Proof.
  intros H100 H4 H1. unfold _days_before_year. cbv zeta.
  Z.to_euclidean_division_equations. lia.
Qed.

(** The leap year test of [_ord2ymd] is [_is_leap]. *)
Lemma is_leap_split (q400 n100 n4 n1 : Z) :
  0 <= n100 <= 3 -> 0 <= n4 <= 24 -> 0 <= n1 <= 3 ->
  _is_leap (q400 * 400 + 1 + (n100 * 100 + n4 * 4 + n1))
  = (n1 =? 3) && (negb (n4 =? 24) || (n100 =? 3)).
Proof.
  intros H100 H4 H1. unfold _is_leap.
  set (y := q400 * 400 + 1 + (n100 * 100 + n4 * 4 + n1)).
  assert (E4 : (y mod 4 =? 0) = (n1 =? 3)).
  { apply eq_true_iff_eq. rewrite !Z.eqb_eq. subst y.
    Z.to_euclidean_division_equations. lia. }
  assert (E100 : (n1 =? 3) = true -> (y mod 100 =? 0) = (n4 =? 24)).
  { intros E. apply Z.eqb_eq in E. apply eq_true_iff_eq. rewrite !Z.eqb_eq. subst y.
    Z.to_euclidean_division_equations. lia. }
  assert (E400 : (n1 =? 3) = true -> (n4 =? 24) = true -> (y mod 400 =? 0) = (n100 =? 3)).
  { intros E E'. apply Z.eqb_eq in E, E'. apply eq_true_iff_eq. rewrite !Z.eqb_eq. subst y.
    Z.to_euclidean_division_equations. lia. }
  rewrite E4. destruct (n1 =? 3) eqn:A; [|reflexivity]. simpl.
  rewrite E100 by reflexivity. destruct (n4 =? 24) eqn:B; simpl.
  - rewrite E400; auto.
  - reflexivity.
Qed.

(** The month estimate of [_ord2ymd], checked on the 365 offsets. *)
Lemma month_day_table :
  forallb (fun n => month_day_ok true n && month_day_ok false n)
          (map Z.of_nat (seq 0 365)) = true.
Proof. vm_compute. reflexivity. Qed.

Lemma month_day_correct (leapyear : bool) (n : Z) :
  0 <= n <= 364 -> month_day_ok leapyear n = true.
Proof.
  intros Hn.
  pose proof month_day_table as T. rewrite forallb_forall in T.
  specialize (T n).
  assert (I : In n (map Z.of_nat (seq 0 365))).
  { apply in_map_iff. exists (Z.to_nat n). split; [lia|]. apply in_seq. lia. }
  apply T in I. apply andb_true_iff in I. destruct leapyear; tauto.
Qed.

(** [_ord2ymd] with its constants evaluated and its tail named. *)
Lemma ord2ymd_eq (n : Z) :
  _ord2ymd n =
  let n0 := n - 1 in
  let n400 := n0 / 146097 in
  let r400 := n0 mod 146097 in
  let n100 := r400 / 36524 in
  let r100 := r400 mod 36524 in
  let n4 := r100 / 1461 in
  let r4 := r100 mod 1461 in
  let n1 := r4 / 365 in
  let r1 := r4 mod 365 in
  let year := n400 * 400 + 1 + (n100 * 100 + n4 * 4 + n1) in
  if (n1 =? 4) || (n100 =? 4) then (year - 1, 12, 31)
  else let leapyear := (n1 =? 3) && (negb (n4 =? 24) || (n100 =? 3)) in
       (year, fst (month_day leapyear r1), snd (month_day leapyear r1)).
Proof.
  unfold _ord2ymd. change _DI400Y with 146097. change _DI100Y with 36524.
  change _DI4Y with 1461. cbv zeta.
  destruct (_ || _); [reflexivity|].
  unfold month_day. cbv zeta.
  destruct (_ <? _); reflexivity.
Qed.

(** [_ord2ymd] inverts [_ymd2ord]: an ordinal from 1 on is the ordinal of the
    year, month and day computed for it, and these form a date. *)
Lemma ord2ymd_correct (n : Z) :
  1 <= n ->
  let '(y, m, d) := _ord2ymd n in
  1 <= y /\ 1 <= m <= 12 /\ 1 <= d <= _days_in_month y m /\ _ymd2ord y m d = n.
Proof.
  intros Hn. rewrite ord2ymd_eq. cbv zeta.
  set (n0 := n - 1).
  set (n400 := n0 / 146097). set (r400 := n0 mod 146097).
  set (n100 := r400 / 36524). set (r100 := r400 mod 36524).
  set (n4 := r100 / 1461). set (r4 := r100 mod 1461).
  set (n1 := r4 / 365). set (r1 := r4 mod 365).
  assert (E400 : n0 = 146097 * n400 + r400 /\ 0 <= r400 < 146097 /\ 0 <= n400).
  { subst n400 r400. pose proof (Z.div_mod n0 146097). pose proof (Z.mod_pos_bound n0 146097).
    assert (0 <= n0 / 146097) by (apply Z.div_pos; lia). lia. }
  assert (E100 : r400 = 36524 * n100 + r100 /\ 0 <= r100 < 36524 /\ 0 <= n100 <= 4).
  { subst n100 r100. pose proof (Z.div_mod r400 36524). pose proof (Z.mod_pos_bound r400 36524).
    assert (0 <= r400 / 36524) by (apply Z.div_pos; lia).
    assert (r400 / 36524 < 5) by (apply Z.div_lt_upper_bound; lia). lia. }
  assert (E4 : r100 = 1461 * n4 + r4 /\ 0 <= r4 < 1461 /\ 0 <= n4 <= 24).
  { subst n4 r4. pose proof (Z.div_mod r100 1461). pose proof (Z.mod_pos_bound r100 1461).
    assert (0 <= r100 / 1461) by (apply Z.div_pos; lia).
    assert (r100 / 1461 < 25) by (apply Z.div_lt_upper_bound; lia). lia. }
  assert (E1 : r4 = 365 * n1 + r1 /\ 0 <= r1 < 365 /\ 0 <= n1 <= 4).
  { subst n1 r1. pose proof (Z.div_mod r4 365). pose proof (Z.mod_pos_bound r4 365).
    assert (0 <= r4 / 365) by (apply Z.div_pos; lia).
    assert (r4 / 365 < 5) by (apply Z.div_lt_upper_bound; lia). lia. }
  clearbody n400 r400 n100 r100 n4 r4 n1 r1.
  destruct ((n1 =? 4) || (n100 =? 4)) eqn:Edge.
  - (* the last day of a 4-year or 400-year cycle *)
    apply orb_true_iff in Edge. rewrite !Z.eqb_eq in Edge.
    assert (Hy : exists q a b c, 0 <= q /\ 0 <= a <= 3 /\ 0 <= b <= 24 /\ 0 <= c <= 3
               /\ n400 * 400 + 1 + (n100 * 100 + n4 * 4 + n1) - 1
                  = q * 400 + 1 + (a * 100 + b * 4 + c)
               /\ ((c =? 3) && (negb (b =? 24) || (a =? 3))) = true
               /\ n = q * 146097 + a * 36524 + b * 1461 + c * 365 + 366).
    { destruct Edge as [Edge|Edge].
      - destruct (Z.eq_dec n100 4) as [F|F].
        + exists n400, 3, 24, 3. repeat split; try lia.
        + exists n400, n100, n4, 3. repeat split; lia.
      - exists n400, 3, 24, 3. repeat split; try lia. }
    destruct Hy as (q & a & b & c & Hq & Ha & Hb & Hc & Ey & Leap & En).
    rewrite Ey. unfold _ymd2ord, _days_in_month, _days_before_month.
    rewrite days_before_year_split, is_leap_split by lia.
    rewrite Leap. change (index _DAYS_IN_MONTH 12) with 31.
    change (index _DAYS_BEFORE_MONTH 12) with 334. simpl. repeat split; lia.
  - apply orb_false_iff in Edge. rewrite !Z.eqb_neq in Edge.
    set (leapyear := (n1 =? 3) && (negb (n4 =? 24) || (n100 =? 3))).
    pose proof (month_day_correct leapyear r1) as MD.
    unfold month_day_ok in MD. destruct (month_day leapyear r1) as [m d]. simpl fst. simpl snd.
    specialize (MD ltac:(lia)).
    rewrite !andb_true_iff in MD. rewrite !Z.leb_le, Z.eqb_eq in MD.
    unfold _ymd2ord, _days_in_month, _days_before_month.
    rewrite days_before_year_split, is_leap_split by lia.
    fold leapyear. repeat split; try lia.
Qed.

(** A year has 365 days, and one more when it is a leap year. *)
Lemma days_before_year_succ (y : Z) :
  _days_before_year (y + 1) = _days_before_year y + 365 + b2z (_is_leap y).
Proof.
  unfold _days_before_year, _is_leap, b2z. cbv zeta.
  replace (y + 1 - 1) with y by lia.
  destruct (y mod 4 =? 0) eqn:A; destruct (y mod 100 =? 0) eqn:B;
    destruct (y mod 400 =? 0) eqn:C; simpl;
    rewrite ?Z.eqb_eq, ?Z.eqb_neq in *;
    Z.to_euclidean_division_equations; lia.
Qed.

Lemma days_before_year_mono (y y' : Z) :
  y <= y' -> _days_before_year y <= _days_before_year y'.
Proof.
  intros H. unfold _days_before_year. cbv zeta.
  Z.to_euclidean_division_equations. lia.
Qed.

Lemma valid_iff (d : date) :
  valid d = true <->
  1 <= year d <= 9999 /\ 1 <= month d <= 12 /\ 1 <= day d <= _days_in_month (year d) (month d).
Proof.
  unfold valid, MINYEAR, MAXYEAR. rewrite !andb_true_iff, !Z.leb_le. tauto.
Qed.

Lemma month_cases (m : Z) :
  1 <= m <= 12 ->
  m = 1 \/ m = 2 \/ m = 3 \/ m = 4 \/ m = 5 \/ m = 6 \/
  m = 7 \/ m = 8 \/ m = 9 \/ m = 10 \/ m = 11 \/ m = 12.
Proof. lia. Qed.

(** Evaluate the table look-ups and the tests on constants of a goal. *)
Ltac eval_term t :=
  let v := eval vm_compute in t in change t with v in *.

Ltac eval_tables :=
  repeat match goal with
         | H : context [index ?l ?m] |- _ => eval_term (index l m)
         | |- context [index ?l ?m] => eval_term (index l m)
         | H : context [b2z ?b] |- _ => eval_term (b2z b)
         | |- context [b2z ?b] => eval_term (b2z b)
         | H : context [if ?b then ?x else ?y] |- _ => eval_term (if b then x else y)
         | |- context [if ?b then ?x else ?y] => eval_term (if b then x else y)
         end.

Lemma day_of_year_bounds (y m d : Z) :
  1 <= m <= 12 -> 1 <= d <= _days_in_month y m ->
  1 <= _days_before_month y m + d <= 365 + b2z (_is_leap y).
Proof.
  intros Hm Hd. unfold _days_in_month, _days_before_month in *.
  destruct (_is_leap y);
    destruct (month_cases m Hm) as [E|[E|[E|[E|[E|[E|[E|[E|[E|[E|[E|E]]]]]]]]]]];
    subst m; eval_tables; lia.
Qed.

(** The ordinals of the dates are the numbers from 1 to [_MAXORDINAL]. *)
Lemma toordinal_bounds (d : date) :
  valid d = true -> 1 <= toordinal d <= _MAXORDINAL.
Proof.
  intros V. apply valid_iff in V. destruct V as (Hy & Hm & Hd).
  pose proof (day_of_year_bounds _ _ _ Hm Hd) as B.
  pose proof (days_before_year_succ (year d)) as S.
  pose proof (days_before_year_mono 1 (year d) ltac:(lia)) as L.
  pose proof (days_before_year_mono (year d + 1) 10000 ltac:(lia)) as U.
  change (_days_before_year 1) with 0 in L.
  change (_days_before_year 10000) with 3652059 in U.
  unfold toordinal, _ymd2ord, _MAXORDINAL. lia.
Qed.

(** The constructor accepts exactly the valid fields, and raises [ValueError]
    on the others. *)
Lemma new_valid (y m d : Z) :
  valid (mkdate y m d) = true -> new y m d = Ok (mkdate y m d).
Proof.
  unfold valid, new, _check_date_fields. simpl. rewrite !andb_true_iff.
  intros (((((A & B) & C) & D) & E) & F).
  rewrite A, B, C, D, E, F. reflexivity.
Qed.

Lemma new_inv (y m d : Z) (x : date) :
  new y m d = Ok x -> x = mkdate y m d /\ valid x = true.
Proof.
  unfold new, _check_date_fields, valid.
  destruct (MINYEAR <=? y) eqn:A; destruct (y <=? MAXYEAR) eqn:B; simpl; try discriminate.
  destruct (1 <=? m) eqn:C; destruct (m <=? 12) eqn:D; simpl; try discriminate.
  destruct (1 <=? d) eqn:E; destruct (d <=? _days_in_month y m) eqn:F; simpl; try discriminate.
  intros H. inversion H. subst x. simpl. rewrite A, B, C, D, E, F. auto.
Qed.

Lemma new_raises (y m d : Z) :
  valid (mkdate y m d) = false -> exists msg, new y m d = Raise (ValueError msg).
Proof.
  unfold new, _check_date_fields, valid. simpl.
  destruct (MINYEAR <=? y); destruct (y <=? MAXYEAR); simpl; eauto.
  destruct (1 <=? m); destruct (m <=? 12); simpl; eauto.
  destruct (1 <=? d); destruct (d <=? _days_in_month y m); simpl; eauto.
  discriminate.
Qed.

(** [fromordinal] returns the date of an ordinal within the calendar. *)
Lemma fromordinal_ok (n : Z) :
  1 <= n <= _MAXORDINAL ->
  exists d, fromordinal n = Ok d /\ valid d = true /\ toordinal d = n.
Proof.
  intros [Lo Hi]. pose proof (ord2ymd_correct n Lo) as C.
  unfold fromordinal. destruct (_ord2ymd n) as [[y m] d].
  destruct C as (Hy & Hm & Hd & E).
  assert (Y : y <= 9999).
  { destruct (Z_le_gt_dec y 9999) as [|G]; [assumption|exfalso].
    pose proof (days_before_year_mono 10000 y ltac:(lia)) as L.
    change (_days_before_year 10000) with 3652059 in L.
    pose proof (day_of_year_bounds _ _ _ Hm Hd).
    unfold _ymd2ord, _MAXORDINAL in *. lia. }
  assert (V : valid (mkdate y m d) = true).
  { apply valid_iff. simpl. lia. }
  exists (mkdate y m d). rewrite (new_valid _ _ _ V). auto.
Qed.

(** Adding days within the calendar: the ordinal and the weekday move along. *)
Lemma add_ok (d : date) (k : Z) :
  1 <= toordinal d + k <= _MAXORDINAL ->
  exists d', add d k = Ok d' /\ valid d' = true
             /\ toordinal d' = toordinal d + k
             /\ weekday d' = (weekday d + k) mod 7.
Proof.
  intros B. unfold add, days.
  replace ((0 <? toordinal d + k) && (toordinal d + k <=? _MAXORDINAL)) with true
    by (symmetry; apply andb_true_iff; rewrite Z.ltb_lt, Z.leb_le; lia).
  destruct (fromordinal_ok _ B) as (d' & E & V & O).
  exists d'. repeat split; auto.
  unfold weekday. rewrite O. Z.to_euclidean_division_equations. lia.
Qed.

Lemma weekday_range (d : date) : 0 <= weekday d <= 6.
Proof. unfold weekday. pose proof (Z.mod_pos_bound (toordinal d + 6) 7). lia. Qed.

(** Moving a weekend day to Monday never leaves the calendar: the last day,
    31 December 9999, is a Friday. *)
Lemma weekend_shift_ok (d : date) :
  valid d = true -> 5 <= weekday d ->
  exists d', add d (7 - weekday d) = Ok d' /\ valid d' = true
             /\ toordinal d' = toordinal d + (7 - weekday d)
             /\ weekday d' = 0.
Proof.
  intros V W. pose proof (toordinal_bounds d V) as B. pose proof (weekday_range d) as R.
  assert (B' : 1 <= toordinal d + (7 - weekday d) <= _MAXORDINAL).
  { unfold weekday, _MAXORDINAL in *. Z.to_euclidean_division_equations. lia. }
  destruct (add_ok d _ B') as (d' & E & V' & O & Wd).
  exists d'. repeat split; auto. rewrite Wd.
  replace (weekday d + (7 - weekday d)) with 7 by lia. reflexivity.
Qed.

Lemma day_of_year_lt (y m d m' d' : Z) :
  1 <= m <= 12 -> 1 <= d <= _days_in_month y m ->
  1 <= m' <= 12 -> 1 <= d' <= _days_in_month y m' ->
  (m < m' \/ (m = m' /\ d < d')) <->
  _days_before_month y m + d < _days_before_month y m' + d'.
Proof.
  intros Hm Hd Hm' Hd'. unfold _days_in_month, _days_before_month in *.
  destruct (_is_leap y);
    destruct (month_cases m Hm) as [E|[E|[E|[E|[E|[E|[E|[E|[E|[E|[E|E]]]]]]]]]]];
    destruct (month_cases m' Hm') as [E'|[E'|[E'|[E'|[E'|[E'|[E'|[E'|[E'|[E'|[E'|E']]]]]]]]]]];
    subst m m'; eval_tables; lia.
Qed.

(** The order of dates as tuples is the order of their ordinals. *)
Lemma lt_toordinal (a b : date) :
  valid a = true -> valid b = true ->
  lt a b = (toordinal a <? toordinal b).
Proof.
  intros Va Vb. apply valid_iff in Va, Vb.
  destruct Va as (Hya & Hma & Hda). destruct Vb as (Hyb & Hmb & Hdb).
  pose proof (day_of_year_bounds _ _ _ Hma Hda) as Ba.
  pose proof (day_of_year_bounds _ _ _ Hmb Hdb) as Bb.
  pose proof (days_before_year_succ (year a)) as Sa.
  pose proof (days_before_year_succ (year b)) as Sb.
  unfold lt, toordinal, _ymd2ord.
  apply eq_true_iff_eq.
  rewrite !orb_true_iff, !andb_true_iff, !orb_true_iff, !andb_true_iff.
  rewrite !Z.ltb_lt, !Z.eqb_eq.
  destruct (Z.lt_trichotomy (year a) (year b)) as [L|[E|G]].
  - pose proof (days_before_year_mono (year a + 1) (year b) ltac:(lia)). split; [lia|]. intros _. left. exact L.
  - pose proof (day_of_year_lt (year a) (month a) (day a) (month b) (day b) Hma Hda Hmb) as T.
    rewrite E in *. specialize (T Hdb). split.
    + intros [C|[_ C]]; [lia|]. apply T in C. lia.
    + intros C. right. split; [reflexivity|]. apply T. lia.
  - pose proof (days_before_year_mono (year b + 1) (year a) ltac:(lia)). split; [lia|]. intros C. lia.
Qed.

End Calendar.


(** * Properties of the runtime: strings *)

Lemma pystr_eqb_eq (a b : pystr) : pystr_eqb a b = true <-> a = b.
Proof.
  revert b. induction a as [|x a IH]; destruct b as [|y b]; simpl; split; try congruence.
  - rewrite andb_true_iff, N.eqb_eq, IH. intros [-> ->]. reflexivity.
  - intros E. inversion E. subst. rewrite N.eqb_refl. apply IH. reflexivity.
Qed.

Lemma pystr_eqb_refl (a : pystr) : pystr_eqb a a = true.
Proof. apply pystr_eqb_eq. reflexivity. Qed.

Lemma pystr_eqb_neq (a b : pystr) : pystr_eqb a b = false <-> a <> b.
Proof.
  rewrite <- pystr_eqb_eq. destruct (pystr_eqb a b); split; congruence.
Qed.

Lemma ascii_digit_isdecimal (c : char) :
  ascii_digit c = true -> unicode.isdecimal c = true.
Proof.
  intros H. unfold unicode.isdecimal, unicode.in_ranges, unicode.decimal_ranges.
  simpl existsb. apply orb_true_iff. left. exact H.
Qed.

Lemma ascii_digit_isdigit (c : char) :
  ascii_digit c = true -> unicode.isdigit c = true.
Proof.
  intros H. unfold unicode.isdigit. rewrite ascii_digit_isdecimal; auto.
Qed.

Lemma isdigit_forallb (s : pystr) :
  isdigit s = true <-> s <> [] /\ forallb unicode.isdigit s = true.
Proof.
  destruct s as [|c s].
  - simpl. split; [discriminate|]. intros [H _]. congruence.
  - change (isdigit (c :: s)) with (forallb unicode.isdigit (c :: s)).
    split; [intros H; split; [discriminate|assumption] | tauto].
Qed.

(** * [Phone] *)

(** [Phone._validate_phone] passes exactly the strings of ten digits. *)
Lemma validate_phone_ok (s : pystr) :
  Phone._validate_phone s = Ok tt <->
  forallb unicode.isdigit s = true /\ len s = 10.
Proof.
  unfold Phone._validate_phone, PHONE_LENGTH.
  destruct (isdigit s) eqn:D; simpl.
  - apply isdigit_forallb in D. destruct D as [_ D].
    destruct (len s =? 10) eqn:L; simpl.
    + apply Z.eqb_eq in L. tauto.
    + apply Z.eqb_neq in L. split; [discriminate|tauto].
  - split; [discriminate|]. intros [F L].
    assert (isdigit s = true); [|congruence].
    apply isdigit_forallb. split; [|assumption].
    intros ->. discriminate.
Qed.

Lemma validate_phone_raises (s : pystr) :
  Phone._validate_phone s = Ok tt \/
  exists msg, Phone._validate_phone s = Raise (ValueError msg).
Proof.
  unfold Phone._validate_phone.
  destruct (isdigit s); simpl; eauto. destruct (len s =? PHONE_LENGTH); simpl; eauto.
Qed.

Lemma Phone_init_eq (s : pystr) :
  Phone.__init__ s =
  match Phone._validate_phone s with
  | Ok _ => Ok (Phone.mk s)
  | Raise e => Raise e
  end.
Proof. reflexivity. Qed.

(** C4, as the code has it.  [Phone] accepts a string exactly when it has
    ten characters and each is a digit for [str.isdigit], which counts the
    digits of every script and the superscript and circled ones besides the
    ASCII ones.  The value of the constructed phone is the string given.
    Construction raises [ValueError] when the length is not ten or some
    character is not such a digit, and it succeeds on every string of ten
    ASCII digits. *)
Theorem Phone_construction (s : pystr) :
  (forallb unicode.isdigit s = true /\ len s = 10 <->
   Phone.__init__ s = Ok (Phone.mk s))
  /\ (forall p, Phone.__init__ s = Ok p -> Phone.value p = s)
  /\ (len s <> 10 \/ (exists c, In c s /\ unicode.isdigit c = false) ->
      exists msg, Phone.__init__ s = Raise (ValueError msg))
  /\ (forallb ascii_digit s = true /\ len s = 10 ->
      Phone.__init__ s = Ok (Phone.mk s)).
Proof.
  rewrite Phone_init_eq.
  pose proof (validate_phone_ok s) as V.
  split; [|split; [|split]].
  - split.
    + intros H. apply V in H. rewrite H. reflexivity.
    + intros H. apply V.
      destruct (Phone._validate_phone s) as [[]|e]; [reflexivity|discriminate].
  - intros p. destruct (Phone._validate_phone s); [|discriminate].
    intros H. inversion H. reflexivity.
  - intros H. destruct (validate_phone_raises s) as [E|[msg E]].
    + apply V in E. destruct E as [F L]. exfalso. destruct H as [H|(c & I & D)].
      * contradiction.
      * rewrite forallb_forall in F. apply F in I. congruence.
    + exists msg. rewrite E. reflexivity.
  - intros [F L].
    assert (E : Phone._validate_phone s = Ok tt).
    { apply V. split; [|assumption]. rewrite forallb_forall in *.
      intros c I. apply ascii_digit_isdigit. auto. }
    rewrite E. reflexivity.
Qed.

(** Ten times the superscript two, U+00B2: no ASCII digit is among the
    characters, and [Phone] accepts the string. *)
Lemma Phone_construction_counterexample :
  let s := repeat 0xB2%N 10 in
  len s = 10
  /\ (exists c, In c s /\ ascii_digit c = false)
  /\ Phone.__init__ s = Ok (Phone.mk s).
Proof.
  cbv zeta. split; [reflexivity|]. split; [|reflexivity].
  exists 0xB2%N. split; [left; reflexivity | reflexivity].
Qed.

(** * [Birthday]: parsing and formatting *)

Lemma ascii_digit_cases (c : char) :
  ascii_digit c = true ->
  (c = 48 \/ c = 49 \/ c = 50 \/ c = 51 \/ c = 52 \/ c = 53 \/ c = 54 \/ c = 55 \/ c = 56 \/ c = 57)%N.
Proof. unfold ascii_digit. rewrite andb_true_iff, !N.leb_le. lia. Qed.

Lemma ascii_digit_value (c : char) :
  ascii_digit c = true -> 0 <= digit_value c <= 9.
Proof. unfold ascii_digit, digit_value. rewrite andb_true_iff, !N.leb_le. lia. Qed.

Lemma decimal_ascii (c : char) :
  ascii_digit c = true -> unicode.decimal c = Some (digit_value c).
Proof.
  intros H. unfold unicode.decimal, unicode.decimal_ranges. simpl find.
  change (unicode.in_range c (48%N, 57%N)) with (ascii_digit c). rewrite H.
  unfold digit_value. f_equal.
  unfold ascii_digit in H. rewrite andb_true_iff, !N.leb_le in H.
  rewrite N.mod_small by lia. lia.
Qed.

Ltac digit_cases H :=
  destruct (ascii_digit_cases _ H) as [?|[?|[?|[?|[?|[?|[?|[?|[?|?]]]]]]]]]; subst.

(** The groups of a string in DD.MM.YYYY form: with two digits of a day, the
    first alternative of [%d] that matches takes both. *)
Lemma regex_match_day (f' : list item) (d1 d2 : char) (rest : pystr) gs rest' :
  ascii_digit d1 = true -> ascii_digit d2 = true ->
  1 <= 10 * digit_value d1 + digit_value d2 <= 31 ->
  regex_match f' rest = Some (gs, rest') ->
  regex_match (Directive pct_d :: f') (d1 :: d2 :: rest)
  = Some ((pct_d, [d1; d2]) :: gs, rest').
Proof.
  intros H1 H2 V K.
  digit_cases H1; digit_cases H2; vm_compute in V;
    try (exfalso; destruct V as [A B]; first [now apply A | now apply B]).
  all: simpl; rewrite K; reflexivity.
Qed.

Lemma regex_match_month (f' : list item) (m1 m2 : char) (rest : pystr) gs rest' :
  ascii_digit m1 = true -> ascii_digit m2 = true ->
  1 <= 10 * digit_value m1 + digit_value m2 <= 12 ->
  regex_match f' rest = Some (gs, rest') ->
  regex_match (Directive pct_m :: f') (m1 :: m2 :: rest)
  = Some ((pct_m, [m1; m2]) :: gs, rest').
Proof.
  intros H1 H2 V K.
  digit_cases H1; digit_cases H2; vm_compute in V;
    try (exfalso; destruct V as [A B]; first [now apply A | now apply B]).
  all: simpl; rewrite K; reflexivity.
Qed.

Lemma regex_match_year (f' : list item) (y1 y2 y3 y4 : char) (rest : pystr) gs rest' :
  ascii_digit y1 = true -> ascii_digit y2 = true ->
  ascii_digit y3 = true -> ascii_digit y4 = true ->
  regex_match f' rest = Some (gs, rest') ->
  regex_match (Directive pct_Y :: f') (y1 :: y2 :: y3 :: y4 :: rest)
  = Some ((pct_Y, [y1; y2; y3; y4]) :: gs, rest').
Proof.
  intros H1 H2 H3 H4 K.
  apply ascii_digit_isdecimal in H1, H2, H3, H4.
  cbn [regex_match alternatives first_match match_alternative].
  unfold backslash_d. rewrite H1, H2, H3, H4, K. reflexivity.
Qed.

Lemma regex_match_literal (f' : list item) (a : char) (rest : pystr) :
  regex_match (Literal a :: f') (a :: rest) = regex_match f' rest.
Proof. cbn [regex_match]. rewrite N.eqb_refl. reflexivity. Qed.

Lemma lstrip_ascii_digit (c : char) (s : pystr) :
  ascii_digit c = true -> lstrip (c :: s) = c :: s.
Proof.
  intros H. simpl. destruct (N.eqb c 32) eqn:E; [|reflexivity].
  apply N.eqb_eq in E. subst c. discriminate.
Qed.

Lemma int_two_digits (a b : char) :
  ascii_digit a = true -> ascii_digit b = true ->
  int [a; b] = Some (10 * digit_value a + digit_value b).
Proof.
  intros Ha Hb. unfold int. rewrite lstrip_ascii_digit by assumption.
  cbn [int_loop]. rewrite (decimal_ascii a Ha), (decimal_ascii b Hb).
  f_equal. lia.
Qed.

Lemma int_four_digits (a b c d : char) :
  ascii_digit a = true -> ascii_digit b = true ->
  ascii_digit c = true -> ascii_digit d = true ->
  int [a; b; c; d]
  = Some (1000 * digit_value a + 100 * digit_value b + 10 * digit_value c + digit_value d).
Proof.
  intros Ha Hb Hc Hd. unfold int. rewrite lstrip_ascii_digit by assumption.
  cbn [int_loop].
  rewrite (decimal_ascii a Ha), (decimal_ascii b Hb), (decimal_ascii c Hc), (decimal_ascii d Hd).
  f_equal. lia.
Qed.

Lemma DATE_FORMAT_items :
  read_format DATE_FORMAT
  = [Directive pct_d; Literal 0x2E%N; Directive pct_m; Literal 0x2E%N; Directive pct_Y].
Proof. reflexivity. Qed.

(** The shape of a string in DD.MM.YYYY form. *)
Lemma dd_mm_yyyy_inv (s : pystr) (d : datetime.date) :
  dd_mm_yyyy s = Some d ->
  exists d1 d2 m1 m2 y1 y2 y3 y4,
    s = [d1; d2; 0x2E; m1; m2; 0x2E; y1; y2; y3; y4]%N
    /\ forallb ascii_digit [d1; d2; m1; m2; y1; y2; y3; y4] = true
    /\ d = datetime.mkdate
             (1000 * digit_value y1 + 100 * digit_value y2
              + 10 * digit_value y3 + digit_value y4)
             (10 * digit_value m1 + digit_value m2)
             (10 * digit_value d1 + digit_value d2)
    /\ datetime.valid d = true.
Proof.
  unfold dd_mm_yyyy.
  destruct s as [|d1 [|d2 [|p1 [|m1 [|m2 [|p2 [|y1 [|y2 [|y3 [|y4 [|? ?]]]]]]]]]]];
    try discriminate.
  destruct (forallb ascii_digit _ && N.eqb p1 46 && N.eqb p2 46) eqn:E; [|discriminate].
  rewrite !andb_true_iff, !N.eqb_eq in E. destruct E as [[F ->] ->].
  cbv zeta. destruct (datetime.valid _) eqn:V; [|discriminate].
  intros H. inversion H. subst d.
  exists d1, d2, m1, m2, y1, y2, y3, y4. auto.
Qed.

Lemma days_in_month_le_31 (y m : Z) :
  1 <= m <= 12 -> datetime._days_in_month y m <= 31.
Proof.
  intros Hm. unfold datetime._days_in_month.
  destruct (datetime._is_leap y);
    destruct (month_cases m Hm) as [E|[E|[E|[E|[E|[E|[E|[E|[E|[E|[E|E]]]]]]]]]]];
    subst m; vm_compute; discriminate.
Qed.

(** [strptime] reads a string in DD.MM.YYYY form as the date it denotes. *)
Lemma strptime_dd_mm_yyyy (s : pystr) (d : datetime.date) :
  dd_mm_yyyy s = Some d -> strptime s (read_format DATE_FORMAT) = Ok d.
Proof.
  intros H. apply dd_mm_yyyy_inv in H.
  destruct H as (d1 & d2 & m1 & m2 & y1 & y2 & y3 & y4 & -> & F & -> & V).
  cbn [forallb] in F. rewrite !andb_true_iff in F.
  destruct F as (Hd1 & Hd2 & Hm1 & Hm2 & Hy1 & Hy2 & Hy3 & Hy4 & _).
  pose proof V as V'. apply valid_iff in V'. cbn [datetime.year datetime.month datetime.day] in V'.
  destruct V' as (Vy & Vm & Vd).
  pose proof (days_in_month_le_31 (1000 * digit_value y1 + 100 * digit_value y2
                                   + 10 * digit_value y3 + digit_value y4) _ Vm) as D31.
  assert (R : regex_match (read_format DATE_FORMAT)
                [d1; d2; 0x2E; m1; m2; 0x2E; y1; y2; y3; y4]%N
              = Some ([(pct_d, [d1; d2]); (pct_m, [m1; m2]); (pct_Y, [y1; y2; y3; y4])], [])).
  { rewrite DATE_FORMAT_items.
    apply regex_match_day; [assumption | assumption | lia |].
    rewrite regex_match_literal.
    apply regex_match_month; [assumption | assumption | lia |].
    rewrite regex_match_literal.
    apply regex_match_year; auto. }
  unfold strptime. rewrite R.
  unfold field, group. cbn [find directive_eqb fst].
  rewrite int_four_digits, !int_two_digits by assumption.
  cbn [bind]. apply new_valid. exact V.
Qed.

Lemma render_table : forallb render_ok (map Z.of_nat (seq 0 (Z.to_nat 10000))) = true.
Proof. vm_compute. reflexivity. Qed.

Lemma render_correct (n : Z) : 0 <= n <= 9999 -> render_ok n = true.
Proof.
  intros Hn. pose proof render_table as T. rewrite forallb_forall in T.
  apply T. apply in_map_iff. exists (Z.to_nat n). split; [lia|]. apply in_seq. lia.
Qed.

Lemma zfill4_int_str (n : Z) : 0 <= n <= 9999 -> zfill 4 (int_str n) = four_digits n.
Proof.
  intros Hn. pose proof (render_correct n Hn) as R. unfold render_ok in R.
  rewrite !andb_true_iff in R. apply pystr_eqb_eq. tauto.
Qed.

Lemma int_str_four (n : Z) : 1000 <= n <= 9999 -> int_str n = four_digits n.
Proof.
  intros Hn. pose proof (render_correct n ltac:(lia)) as R. unfold render_ok in R.
  rewrite !andb_true_iff, !orb_true_iff in R. destruct R as [[_ [R|R]] _].
  - apply Z.ltb_lt in R. lia.
  - apply pystr_eqb_eq. exact R.
Qed.

Lemma zfill2_int_str (n : Z) : 0 <= n <= 99 -> zfill 2 (int_str n) = two_digits n.
Proof.
  intros Hn. pose proof (render_correct n ltac:(lia)) as R. unfold render_ok in R.
  rewrite !andb_true_iff, !orb_true_iff in R. destruct R as [_ [R|R]].
  - apply Z.leb_le in R. lia.
  - apply pystr_eqb_eq. exact R.
Qed.

Lemma two_digits_of (a b : char) :
  ascii_digit a = true -> ascii_digit b = true ->
  two_digits (10 * digit_value a + digit_value b) = [a; b].
Proof.
  intros Ha Hb. unfold ascii_digit in *. rewrite andb_true_iff, !N.leb_le in Ha, Hb.
  unfold two_digits, digit_value.
  f_equal; [|f_equal]; Z.to_euclidean_division_equations; lia.
Qed.

Lemma four_digits_of (a b c d : char) :
  ascii_digit a = true -> ascii_digit b = true ->
  ascii_digit c = true -> ascii_digit d = true ->
  four_digits (1000 * digit_value a + 100 * digit_value b + 10 * digit_value c + digit_value d)
  = [a; b; c; d].
Proof.
  intros Ha Hb Hc Hd. unfold ascii_digit in *.
  rewrite andb_true_iff, !N.leb_le in Ha, Hb, Hc, Hd.
  unfold four_digits, digit_value.
  f_equal; [|f_equal; [|f_equal; [|f_equal]]];
    Z.to_euclidean_division_equations; lia.
Qed.

(** [strftime] writes that date as the string, the year permitting. *)
Lemma strftime_dd_mm_yyyy (ys : year_style) (s : pystr) (d : datetime.date) :
  dd_mm_yyyy s = Some d ->
  ys = year_padded \/ 1000 <= datetime.year d ->
  strftime ys d (read_format DATE_FORMAT) = s.
Proof.
  intros H Y. apply dd_mm_yyyy_inv in H.
  destruct H as (d1 & d2 & m1 & m2 & y1 & y2 & y3 & y4 & -> & F & -> & V).
  cbn [forallb] in F. rewrite !andb_true_iff in F.
  destruct F as (Hd1 & Hd2 & Hm1 & Hm2 & Hy1 & Hy2 & Hy3 & Hy4 & _).
  apply valid_iff in V. cbn [datetime.year datetime.month datetime.day] in V, Y.
  destruct V as (Vy & Vm & Vd).
  pose proof (ascii_digit_value _ Hd1). pose proof (ascii_digit_value _ Hd2).
  rewrite DATE_FORMAT_items.
  cbn [strftime format_directive datetime.year datetime.month datetime.day].
  rewrite !zfill2_int_str, !two_digits_of by (assumption || lia).
  assert (E : match ys with
              | year_padded => zfill 4 (int_str (1000 * digit_value y1 + 100 * digit_value y2
                                                 + 10 * digit_value y3 + digit_value y4))
              | year_plain => int_str (1000 * digit_value y1 + 100 * digit_value y2
                                       + 10 * digit_value y3 + digit_value y4)
              end = [y1; y2; y3; y4]).
  { destruct ys.
    - rewrite zfill4_int_str by lia. apply four_digits_of; assumption.
    - destruct Y as [Y|Y]; [discriminate|].
      rewrite int_str_four by lia. apply four_digits_of; assumption. }
  rewrite E. reflexivity.
Qed.

Lemma field_cases (d : directive) (default : Z) (gs : groups) :
  (exists v, field d default gs = Ok v)
  \/ (exists msg, field d default gs = Raise (ValueError msg)).
Proof.
  unfold field. destruct (group d gs) as [g|]; [|eauto].
  destruct (int g); eauto.
Qed.

(** [Birthday.__init__] in one equation. *)
Lemma Birthday_init_parsed (s : pystr) :
  Birthday.__init__ s =
  match parsed s with
  | Some d => if datetime.valid d then Ok (Birthday.mk d) else Raise invalid_date_format
  | None => Raise invalid_date_format
  end.
Proof.
  unfold Birthday.__init__, parsed, strptime.
  destruct (regex_match (read_format DATE_FORMAT) s) as [[gs [|c rest]]|]; try reflexivity.
  destruct (field_cases pct_Y 1900 gs) as [[y ->]|[msg ->]]; [|reflexivity].
  destruct (field_cases pct_m 1 gs) as [[m ->]|[msg ->]]; [|reflexivity].
  destruct (field_cases pct_d 1 gs) as [[d ->]|[msg ->]]; [|reflexivity].
  cbn [bind]. destruct (datetime.valid (datetime.mkdate y m d)) eqn:V.
  - rewrite (new_valid _ _ _ V). reflexivity.
  - destruct (new_raises _ _ _ V) as [msg ->]. reflexivity.
Qed.

(** C5, as the code has it.  For every string in DD.MM.YYYY form,
    [Birthday] succeeds with the date the string denotes, and formatting that
    date with [DATE_FORMAT] gives the string back when the year is 1000 or
    later, or when the C library pads [%Y] to four digits.  Construction
    raises the [ValueError] of [Birthday] for every string that [strptime]
    does not match against [DATE_FORMAT] from end to end, and for every
    string whose fields are no date of the calendar; a birthday that was
    constructed is a date of the calendar. *)
Theorem Birthday_round_trip :
  (forall (ys : year_style) (s : pystr) (d : datetime.date),
      dd_mm_yyyy s = Some d ->
      Birthday.__init__ s = Ok (Birthday.mk d)
      /\ (ys = year_padded \/ 1000 <= datetime.year d ->
          strftime ys d (read_format DATE_FORMAT) = s))
  /\ (forall s : pystr,
         parsed s = None \/ (exists d, parsed s = Some d /\ datetime.valid d = false) ->
         Birthday.__init__ s = Raise invalid_date_format)
  /\ (forall (s : pystr) (b : Birthday.t),
         Birthday.__init__ s = Ok b ->
         parsed s = Some (Birthday.value b) /\ datetime.valid (Birthday.value b) = true).
Proof.
  split; [|split].
  - intros ys s d H. split.
    + unfold Birthday.__init__. rewrite (strptime_dd_mm_yyyy s d H). reflexivity.
    + apply strftime_dd_mm_yyyy. exact H.
  - intros s H. rewrite Birthday_init_parsed.
    destruct H as [->|(d & -> & ->)]; reflexivity.
  - intros s b. rewrite Birthday_init_parsed.
    destruct (parsed s) as [d|]; [|discriminate].
    destruct (datetime.valid d) eqn:V; [|discriminate].
    intros H. inversion H. subst b. auto.
Qed.

(** The year 999 where the C library does not pad [%Y]: the string is in
    DD.MM.YYYY form and [Birthday] accepts it, and the date is formatted
    with a year of three digits. *)
Lemma Birthday_round_trip_counterexample :
  let s := str "01.01.0999" in
  let d := datetime.mkdate 999 1 1 in
  dd_mm_yyyy s = Some d
  /\ Birthday.__init__ s = Ok (Birthday.mk d)
  /\ strftime year_plain d (read_format DATE_FORMAT) = str "01.01.999"
  /\ strftime year_plain d (read_format DATE_FORMAT) <> s.
Proof.
  cbv zeta. repeat split; try reflexivity. vm_compute. discriminate.
Qed.

(** [strptime] is more lenient than the DD.MM.YYYY form: a day or a month of
    one digit and a decimal digit of another script are read as well, and
    such strings are not what formatting gives back. *)
Example Birthday_lenient_forms :
  Birthday.__init__ (str "1.2.2000") = Ok (Birthday.mk (datetime.mkdate 2000 2 1))
  /\ Birthday.__init__ ([0x31; 0x665] ++ str ".01.2000")%N
     = Ok (Birthday.mk (datetime.mkdate 2000 1 15))
  /\ strftime year_padded (datetime.mkdate 2000 2 1) (read_format DATE_FORMAT)
     = str "01.02.2000".
Proof. repeat split. Qed.

(** Strings [Birthday] refuses: a day the month does not have, the year 0,
    text after the year, another separator. *)
Example Birthday_refused :
  Forall (fun s => Birthday.__init__ (str s) = Raise invalid_date_format)
         ["30.02.2000"; "29.02.2001"; "01.01.0000"; "01.02.20001"; "01-02-2000"; ""]%string.
Proof. repeat constructor. Qed.

(** Where the program formats a birthday: the text of a record ends with the
    birthday as [strftime] writes it. *)
Lemma Record_str_birthday (e : env) (self : Record.t) (b : Birthday.t) :
  Record.birthday self = Some b ->
  Record.__str__ e self
  = Name.value (Record.name self) ++ str ": phones=["
    ++ join (str "; ") (map Phone.value (Record.phones self))
    ++ str "], birthday="
    ++ strftime (libc_year e) (Birthday.value b) (read_format DATE_FORMAT).
Proof. intros B. unfold Record.__str__. rewrite B. reflexivity. Qed.

(** * [Record] *)

Section Records.
Import Record.

Lemma has_value_true (raw : pystr) (p : Phone.t) :
  has_value raw p = true <-> Phone.value p = raw.
Proof. unfold has_value. apply pystr_eqb_eq. Qed.

Lemma find_phone_some (self : t) (raw : pystr) :
  In raw (phone_values self) <-> exists p, find_phone self raw = Some p.
Proof.
  unfold find_phone, phone_values. induction (phones self) as [|q l IH]; simpl.
  - split; [tauto|]. intros [p H]. discriminate.
  - destruct (has_value raw q) eqn:E.
    + apply has_value_true in E. split; eauto.
    + split.
      * intros [H|H]; [|apply IH; exact H].
        apply has_value_true in H. congruence.
      * intros H. right. apply IH. exact H.
Qed.

Lemma find_phone_none (self : t) (raw : pystr) :
  ~ In raw (phone_values self) <-> find_phone self raw = None.
Proof.
  rewrite find_phone_some. destruct (find_phone self raw); split; try congruence.
  - intros H. exfalso. apply H. eauto.
  - intros _ [p H]. discriminate.
Qed.

Lemma first_index_some {A : Type} (f : A -> bool) (l : list A) (i : nat) :
  first_index f l = Some i ->
  exists x, nth_error l i = Some x /\ f x = true
            /\ forall j y, (j < i)%nat -> nth_error l j = Some y -> f y = false.
Proof.
  revert i. induction l as [|a l IH]; simpl; intros i H; [discriminate|].
  destruct (f a) eqn:E.
  - inversion H. subst i. exists a. repeat split; auto. intros j y Hj. lia.
  - destruct (first_index f l) as [k|]; [|discriminate]. inversion H. subst i.
    destruct (IH k eq_refl) as (x & N & F & B). exists x. repeat split; auto.
    intros [|j] y Hj Hy; simpl in Hy.
    + congruence.
    + apply (B j); [lia|assumption].
Qed.

Lemma first_index_none {A : Type} (f : A -> bool) (l : list A) :
  first_index f l = None <-> forall x, In x l -> f x = false.
Proof.
  induction l as [|a l IH]; simpl.
  - split; [tauto|reflexivity].
  - destruct (f a) eqn:E.
    + split; [discriminate|]. intros H. rewrite H in E by auto. discriminate.
    + destruct (first_index f l).
      * split; [discriminate|]. intros H.
        assert (C : Some n = None) by (apply IH; auto). discriminate.
      * split; [|reflexivity]. intros _ x [<-|I]; [assumption|]. apply IH; auto.
Qed.

Lemma first_index_in (self : t) (raw : pystr) :
  In raw (phone_values self) <-> exists i, first_index (has_value raw) (phones self) = Some i.
Proof.
  unfold phone_values. split.
  - intros I. destruct (first_index (has_value raw) (phones self)) eqn:E; [eauto|].
    exfalso. apply in_map_iff in I. destruct I as (p & V & I).
    rewrite first_index_none in E. apply E in I.
    apply has_value_true in V. congruence.
  - intros [i E]. apply first_index_some in E. destruct E as (x & N & F & _).
    apply in_map_iff. exists x. split; [apply has_value_true; assumption|].
    eapply nth_error_In; eauto.
Qed.

Lemma setindex_length {A : Type} (i : nat) (v : A) (l : list A) :
  (i < List.length l)%nat -> List.length (setindex i v l) = List.length l.
Proof.
  intros H. unfold setindex. rewrite length_app, length_firstn.
  cbn [List.length]. rewrite length_skipn. lia.
Qed.

Lemma setindex_nth_same {A : Type} (i : nat) (v : A) (l : list A) :
  (i < List.length l)%nat -> nth_error (setindex i v l) i = Some v.
Proof.
  intros H. unfold setindex.
  rewrite nth_error_app2; rewrite length_firstn; [|lia].
  replace (i - Nat.min i (List.length l))%nat with 0%nat by lia. reflexivity.
Qed.

Lemma setindex_cons {A : Type} (i : nat) (v a : A) (l : list A) :
  setindex (S i) v (a :: l) = a :: setindex i v l.
Proof. reflexivity. Qed.

Lemma setindex_nth_other {A : Type} (i j : nat) (v : A) (l : list A) :
  (i < List.length l)%nat -> j <> i -> nth_error (setindex i v l) j = nth_error l j.
Proof.
  revert i j. induction l as [|a l IH]; intros i j H N; simpl in H; [lia|].
  destruct i as [|i].
  - destruct j as [|j]; [congruence|]. reflexivity.
  - rewrite setindex_cons. destruct j as [|j]; [reflexivity|].
    simpl. apply IH; lia.
Qed.

Lemma first_index_lt {A : Type} (f : A -> bool) (l : list A) (i : nat) :
  first_index f l = Some i -> (i < List.length l)%nat.
Proof.
  intros H. apply first_index_some in H. destruct H as (x & N & _).
  apply nth_error_Some. congruence.
Qed.

(** The three ways [add_phone] ends. *)
Lemma add_phone_eq (self : t) (raw : pystr) :
  add_phone raw self =
  match find_phone self raw with
  | Some _ => (Raise already_added, self)
  | None =>
      match Phone._validate_phone raw with
      | Raise e => (Raise e, self)
      | Ok _ => (Ok tt, mk (name self) (phones self ++ [Phone.mk raw]) (birthday self))
      end
  end.
Proof.
  unfold add_phone, mbind, get, raise, lift, put, Phone.__init__.
  destruct (find_phone self raw); [reflexivity|].
  destruct (Phone._validate_phone raw); reflexivity.
Qed.

Lemma edit_phone_eq (self : t) (old new : pystr) :
  edit_phone old new self =
  match first_index (has_value old) (phones self) with
  | Some index =>
      match Phone._validate_phone new with
      | Raise e => (Raise e, self)
      | Ok _ => (Ok true, mk (name self) (setindex index (Phone.mk new) (phones self))
                             (birthday self))
      end
  | None => (Ok false, self)
  end.
Proof.
  unfold edit_phone, mbind, get, raise, lift, put, ret, Phone.__init__.
  destruct (first_index (has_value old) (phones self)); [|reflexivity].
  destruct (Phone._validate_phone new); reflexivity.
Qed.

Lemma remove_phone_eq (self : t) (raw : pystr) :
  remove_phone raw self =
  match first_index (has_value raw) (phones self) with
  | Some index => (Ok true, mk (name self) (pop index (phones self)) (birthday self))
  | None => (Ok false, self)
  end.
Proof.
  unfold remove_phone, mbind, get, put, ret.
  destruct (first_index (has_value raw) (phones self)); reflexivity.
Qed.

Lemma add_birthday_eq (self : t) (raw : pystr) :
  add_birthday raw self =
  match Birthday.__init__ raw with
  | Ok b => (Ok tt, mk (name self) (phones self) (Some b))
  | Raise e => (Raise e, self)
  end.
Proof.
  unfold add_birthday, mbind, get, put, lift.
  destruct (Birthday.__init__ raw); reflexivity.
Qed.

Lemma Phone_init_validate (s : pystr) (e : exn) :
  Phone.__init__ s = Raise e <-> Phone._validate_phone s = Raise e.
Proof.
  rewrite Phone_init_eq. destruct (Phone._validate_phone s); split; congruence.
Qed.

(** ** The phones of a reachable record are valid *)

Lemma in_firstn {A : Type} (n : nat) (l : list A) (x : A) :
  In x (firstn n l) -> In x l.
Proof.
  revert l. induction n as [|n IH]; intros [|a l]; simpl; try tauto.
  intros [H|H]; [left; assumption | right; apply IH; assumption].
Qed.

Lemma in_skipn {A : Type} (n : nat) (l : list A) (x : A) :
  In x (skipn n l) -> In x l.
Proof.
  revert l. induction n as [|n IH]; intros [|a l]; simpl; try tauto.
  intros H. right. apply IH. assumption.
Qed.

Lemma Forall_setindex {A : Type} (P : A -> Prop) (i : nat) (v : A) (l : list A) :
  Forall P l -> P v -> Forall P (setindex i v l).
Proof.
  intros F V. unfold setindex. apply Forall_app. split.
  - apply Forall_forall. intros x I. apply in_firstn in I.
    rewrite Forall_forall in F. auto.
  - constructor; [assumption|]. apply Forall_forall. intros x I.
    apply in_skipn in I. rewrite Forall_forall in F. auto.
Qed.

Lemma Forall_pop {A : Type} (P : A -> Prop) (i : nat) (l : list A) :
  Forall P l -> Forall P (pop i l).
Proof.
  intros F. unfold pop. rewrite Forall_forall in *. intros x I.
  apply in_app_or in I. destruct I as [I|I].
  - apply in_firstn in I. auto.
  - apply in_skipn in I. auto.
Qed.

Lemma step_valid_phones (o : op) (self : t) :
  valid_phones self -> valid_phones (step o self).
Proof.
  unfold valid_phones. intros V. destruct o as [raw|raw|old new|raw]; simpl.
  - rewrite add_phone_eq. destruct (find_phone self raw); [exact V|].
    destruct (Phone._validate_phone raw) as [[]|e] eqn:E; [|exact V].
    simpl. apply Forall_app. split; [exact V|]. constructor; [exact E|constructor].
  - rewrite remove_phone_eq.
    destruct (first_index (has_value raw) (phones self)); [|exact V].
    simpl. apply Forall_pop. exact V.
  - rewrite edit_phone_eq.
    destruct (first_index (has_value old) (phones self)); [|exact V].
    destruct (Phone._validate_phone new) as [[]|e] eqn:E; [|exact V].
    simpl. apply Forall_setindex; assumption.
  - rewrite add_birthday_eq. destruct (Birthday.__init__ raw); exact V.
Qed.

Lemma run_valid_phones (ops : list op) (self : t) :
  valid_phones self -> valid_phones (run ops self).
Proof.
  revert self. induction ops as [|o ops IH]; intros self V; [exact V|].
  simpl. apply IH. apply step_valid_phones. exact V.
Qed.

Lemma reachable_valid_phones (self : t) : reachable self -> valid_phones self.
Proof.
  intros (n & ops & ->). apply run_valid_phones. constructor.
Qed.

(** C7.  On a record a program can hold, [add_phone] raises the
    duplicate error when the value is among the phones, and passes on the
    validation error of [Phone] for a value that is not valid; the record is
    unchanged in both cases.  Otherwise it appends the phone at the end, and
    every call that returns lengthens the list by exactly one. *)
Theorem add_phone_contract (self : t) (phone_raw : pystr) :
  reachable self ->
  (In phone_raw (phone_values self) ->
   add_phone phone_raw self = (Raise already_added, self))
  /\ (forall e, Phone.__init__ phone_raw = Raise e ->
                add_phone phone_raw self = (Raise e, self))
  /\ (~ In phone_raw (phone_values self) ->
      Phone.__init__ phone_raw = Ok (Phone.mk phone_raw) ->
      add_phone phone_raw self
      = (Ok tt, mk (name self) (phones self ++ [Phone.mk phone_raw]) (birthday self)))
  /\ (outcome (add_phone phone_raw self) = Ok tt ->
      phones (after (add_phone phone_raw self)) = phones self ++ [Phone.mk phone_raw]
      /\ len (phones (after (add_phone phone_raw self))) = len (phones self) + 1).
Proof.
  intros R. apply reachable_valid_phones in R. rewrite add_phone_eq.
  split; [|split; [|split]].
  - intros I. apply find_phone_some in I. destruct I as [p ->]. reflexivity.
  - intros e E. apply Phone_init_validate in E.
    destruct (find_phone self phone_raw) as [p|] eqn:F.
    + exfalso. apply find_some in F. destruct F as [I V].
      apply has_value_true in V. unfold valid_phones in R.
      rewrite Forall_forall in R. apply R in I. congruence.
    + rewrite E. reflexivity.
  - intros N V. apply find_phone_none in N. rewrite N.
    rewrite Phone_init_eq in V.
    destruct (Phone._validate_phone phone_raw); [reflexivity|discriminate].
  - destruct (find_phone self phone_raw); [discriminate|].
    destruct (Phone._validate_phone phone_raw); [|discriminate].
    intros _. simpl. split; [reflexivity|].
    unfold len. rewrite length_app. simpl. lia.
Qed.

(** The record of Ann after one [add_phone]: the same value again is
    refused, another value is appended. *)
Lemma add_phone_contract_witness :
  let self := run [call_add_phone (str "1111111111")] (__init__ (str "Ann")) in
  reachable self
  /\ add_phone (str "1111111111") self = (Raise already_added, self)
  /\ phones (after (add_phone (str "2222222222") self))
     = phones self ++ [Phone.mk (str "2222222222")].
Proof.
  cbv zeta.
  assert (R : reachable (run [call_add_phone (str "1111111111")] (__init__ (str "Ann")))).
  { exists (str "Ann"), [call_add_phone (str "1111111111")]. reflexivity. }
  split; [exact R|].
  destruct (add_phone_contract _ (str "1111111111") R) as (A & _).
  destruct (add_phone_contract _ (str "2222222222") R) as (_ & _ & _ & B).
  split.
  - apply A. vm_compute. left. reflexivity.
  - apply B. reflexivity.
Defined.

(** C6, as the code has it.  [edit_phone] looks for the old value first.
    When it is among the phones and the new value is not valid, the
    validation error is raised and the record is unchanged.  When it is there
    and the new value is valid, the first phone with the old value is replaced
    where it stands: the other positions and the length are as before, and
    the call returns [True].  When the old value is absent the call returns
    [False] and the record is unchanged, whatever the new value is. *)
Theorem edit_phone_contract (self : t) (old_phone new_phone : pystr) :
  (In old_phone (phone_values self) ->
   forall e, Phone.__init__ new_phone = Raise e ->
             edit_phone old_phone new_phone self = (Raise e, self))
  /\ (In old_phone (phone_values self) ->
      Phone.__init__ new_phone = Ok (Phone.mk new_phone) ->
      exists index p,
        first_index (has_value old_phone) (phones self) = Some index
        /\ nth_error (phones self) index = Some p /\ Phone.value p = old_phone
        /\ edit_phone old_phone new_phone self
           = (Ok true, mk (name self) (setindex index (Phone.mk new_phone) (phones self))
                          (birthday self))
        /\ nth_error (phones (after (edit_phone old_phone new_phone self))) index
           = Some (Phone.mk new_phone)
        /\ (forall j, j <> index ->
                      nth_error (phones (after (edit_phone old_phone new_phone self))) j
                      = nth_error (phones self) j)
        /\ len (phones (after (edit_phone old_phone new_phone self))) = len (phones self))
  /\ (~ In old_phone (phone_values self) ->
      edit_phone old_phone new_phone self = (Ok false, self)).
Proof.
  rewrite edit_phone_eq. split; [|split].
  - intros I e E. apply first_index_in in I. destruct I as [i ->].
    apply Phone_init_validate in E. rewrite E. reflexivity.
  - intros I V. apply first_index_in in I. destruct I as [i I]. rewrite I.
    rewrite Phone_init_eq in V.
    destruct (Phone._validate_phone new_phone); [|discriminate].
    pose proof (first_index_lt _ _ _ I) as L.
    destruct (first_index_some _ _ _ I) as (p & N & F & _).
    exists i, p. simpl.
    repeat split; auto.
    + apply has_value_true. exact F.
    + apply setindex_nth_same. exact L.
    + intros j J. apply setindex_nth_other; assumption.
    + unfold len. rewrite setindex_length by exact L. reflexivity.
  - intros N.
    destruct (first_index (has_value old_phone) (phones self)) as [i|] eqn:E; [|reflexivity].
    exfalso. apply N. apply first_index_in. eauto.
Qed.

(** The new value [abc] is not valid, the old value is not among the phones:
    [edit_phone] returns [False] and raises nothing. *)
Lemma edit_phone_absent_invalid_counterexample :
  let self := run [call_add_phone (str "1111111111")] (__init__ (str "Ann")) in
  (exists msg, Phone.__init__ (str "abc") = Raise (ValueError msg))
  /\ edit_phone (str "2222222222") (str "abc") self = (Ok false, self).
Proof.
  cbv zeta. split; [eexists; reflexivity | reflexivity].
Qed.

(** C3, which the code breaks.  After [add_phone("1111111111")],
    [add_phone("2222222222")] and [edit_phone("1111111111", "2222222222")] on
    a fresh record the phone list holds the value 2222222222 twice:
    [edit_phone] does not look for the new value among the phones, as
    [add_phone] does. *)
Theorem edit_phone_makes_duplicate :
  let ops := [call_add_phone (str "1111111111");
              call_add_phone (str "2222222222");
              call_edit_phone (str "1111111111") (str "2222222222")] in
  let self := run ops (__init__ (str "Ann")) in
  reachable self
  /\ phone_values self = [str "2222222222"; str "2222222222"]
  /\ ~ NoDup (phone_values self).
Proof.
  cbv zeta. split; [eexists; eexists; reflexivity|].
  split; [reflexivity|].
  intros H. inversion H as [|x l N _]. apply N. left. reflexivity.
Qed.

(** ** Without [edit_phone] the phones stay distinct *)

Lemma NoDup_snoc {A : Type} (l : list A) (x : A) :
  NoDup l -> ~ In x l -> NoDup (l ++ [x]).
Proof.
  induction l as [|a l IH]; simpl; intros N I.
  - constructor; [tauto|constructor].
  - inversion N as [|? ? Na Nl]. subst. constructor.
    + rewrite in_app_iff. simpl. intros [H|[H|[]]]; [tauto|]. apply I. left. congruence.
    + apply IH; [assumption|]. tauto.
Qed.

Lemma NoDup_pop {A : Type} (i : nat) (l : list A) :
  NoDup l -> NoDup (pop i l).
Proof.
  revert i. induction l as [|a l IH]; intros i N.
  - unfold pop. destruct i; constructor.
  - inversion N as [|? ? Na Nl]. subst. destruct i as [|i].
    + exact Nl.
    + change (pop (S i) (a :: l)) with (a :: pop i l). constructor; [|apply IH; exact Nl].
      intros I. apply Na. unfold pop in I. apply in_app_or in I.
      destruct I as [I|I]; [eapply in_firstn | eapply in_skipn]; eassumption.
Qed.

Lemma map_pop {A B : Type} (f : A -> B) (i : nat) (l : list A) :
  map f (pop i l) = pop i (map f l).
Proof.
  unfold pop. rewrite map_app, firstn_map, skipn_map. reflexivity.
Qed.

Lemma step_nodup (o : op) (self : t) :
  is_edit o = false ->
  NoDup (phone_values self) -> NoDup (phone_values (step o self)).
Proof.
  unfold phone_values. intros E N. destruct o as [raw|raw|old new|raw]; simpl.
  - rewrite add_phone_eq. destruct (find_phone self raw) eqn:F; [exact N|].
    destruct (Phone._validate_phone raw); [|exact N].
    simpl. rewrite map_app. apply NoDup_snoc; [exact N|].
    apply find_phone_none. exact F.
  - rewrite remove_phone_eq.
    destruct (first_index (has_value raw) (phones self)); [|exact N].
    simpl. rewrite map_pop. apply NoDup_pop. exact N.
  - discriminate.
  - rewrite add_birthday_eq. destruct (Birthday.__init__ raw); exact N.
Qed.

Lemma run_nodup (ops : list op) (self : t) :
  forallb (fun o => negb (is_edit o)) ops = true ->
  NoDup (phone_values self) -> NoDup (phone_values (run ops self)).
Proof.
  revert self. induction ops as [|o ops IH]; intros self F N; [exact N|].
  simpl in F. apply andb_true_iff in F. destruct F as [E F].
  simpl. apply IH; [exact F|]. apply step_nodup; [|exact N].
  destruct (is_edit o); [discriminate|reflexivity].
Qed.

(** X3.  The phones of a record are pairwise distinct after any calls of
    [add_phone], [remove_phone] and [add_birthday] on a fresh record. *)
Theorem phones_distinct_without_edit (name : pystr) (ops : list op) :
  forallb (fun o => negb (is_edit o)) ops = true ->
  NoDup (phone_values (run ops (__init__ name))).
Proof.
  intros F. apply run_nodup; [exact F|]. constructor.
Qed.

(** A history with a repeated [add_phone], which is refused. *)
Lemma phones_distinct_without_edit_witness :
  NoDup (phone_values
           (run [call_add_phone (str "1111111111");
                 call_add_phone (str "1111111111");
                 call_add_phone (str "2222222222");
                 call_remove_phone (str "1111111111");
                 call_add_birthday (str "29.02.2000")]
                (__init__ (str "Ann")))).
Proof.
  apply (phones_distinct_without_edit (str "Ann")). reflexivity.
Defined.

End Records.

(** * [AddressBook]: the directory *)

Section Directory.

Lemma dict_get_setitem_same {V : Type} (k : pystr) (v : V) (d : dict.t V) :
  dict.get k (dict.setitem k v d) = Some v.
Proof.
  induction d as [|[k' v'] d IH]; simpl.
  - rewrite pystr_eqb_refl. reflexivity.
  - destruct (pystr_eqb k' k) eqn:E; simpl; rewrite E; [reflexivity|exact IH].
Qed.

Lemma dict_get_setitem_other {V : Type} (k k0 : pystr) (v : V) (d : dict.t V) :
  k0 <> k -> dict.get k0 (dict.setitem k v d) = dict.get k0 d.
Proof.
  intros N. induction d as [|[k' v'] d IH]; simpl.
  - apply pystr_eqb_neq in N.
    destruct (pystr_eqb k k0) eqn:E; [|reflexivity].
    apply pystr_eqb_eq in E. apply pystr_eqb_neq in N. congruence.
  - destruct (pystr_eqb k' k) eqn:E; simpl.
    + apply pystr_eqb_eq in E. subst k'.
      destruct (pystr_eqb k k0) eqn:E0; [|reflexivity].
      apply pystr_eqb_eq in E0. congruence.
    + destruct (pystr_eqb k' k0); [reflexivity|exact IH].
Qed.

Lemma dict_keys_setitem_present {V : Type} (k : pystr) (v : V) (d : dict.t V) :
  dict.contains k d = true -> dict.keys (dict.setitem k v d) = dict.keys d.
Proof.
  unfold dict.contains, dict.keys. induction d as [|[k' v'] d IH]; simpl; [discriminate|].
  destruct (pystr_eqb k' k) eqn:E; simpl; [reflexivity|].
  intros H. f_equal. apply IH. exact H.
Qed.

Lemma add_record_eq (self : AddressBook.t) (record : Record.t) :
  AddressBook.add_record record self
  = (Ok tt, AddressBook.mk
              (dict.setitem (Name.value (Record.name record)) record
                            (AddressBook.data self))).
Proof. reflexivity. Qed.

(** C8.  After [add_record] of two records with the same name, the
    second after the first, the entry of that name is the second record, with
    its phones and its birthday and nothing of the first; the entries of all
    other names are as in the directory before the two calls, and the second
    call adds no key. *)
Theorem add_record_replaces (book : AddressBook.t) (first second : Record.t) :
  Name.value (Record.name first) = Name.value (Record.name second) ->
  let name := Name.value (Record.name second) in
  let book1 := after (AddressBook.add_record first book) in
  let book2 := after (AddressBook.add_record second book1) in
  AddressBook.find book2 name = Some second
  /\ (forall other, other <> name ->
                    AddressBook.find book2 other = AddressBook.find book other)
  /\ dict.keys (AddressBook.data book2) = dict.keys (AddressBook.data book1).
Proof.
  intros E. cbv zeta. rewrite !add_record_eq. unfold after, AddressBook.find. simpl.
  split; [|split].
  - apply dict_get_setitem_same.
  - intros other N. rewrite dict_get_setitem_other by exact N.
    rewrite E. apply dict_get_setitem_other. exact N.
  - apply dict_keys_setitem_present. unfold dict.contains.
    rewrite E, dict_get_setitem_same. reflexivity.
Qed.

(** Two records named Ann stored in a directory that holds Bob. *)
Lemma add_record_replaces_witness :
  let first :=
    run [call_add_phone (str "1111111111"); call_add_birthday (str "01.02.2000")]
        (Record.__init__ (str "Ann")) in
  let second := run [call_add_phone (str "2222222222")] (Record.__init__ (str "Ann")) in
  let bob := Record.__init__ (str "Bob") in
  let book := after (AddressBook.add_record bob AddressBook.__init__) in
  let book2 :=
    after (AddressBook.add_record second (after (AddressBook.add_record first book))) in
  AddressBook.find book2 (str "Ann") = Some second
  /\ AddressBook.find book2 (str "Bob") = Some bob
  /\ dict.keys (AddressBook.data book2) = [str "Bob"; str "Ann"].
Proof.
  cbv zeta.
  destruct (add_record_replaces
              (after (AddressBook.add_record (Record.__init__ (str "Bob"))
                                             AddressBook.__init__))
              (run [call_add_phone (str "1111111111"); call_add_birthday (str "01.02.2000")]
                   (Record.__init__ (str "Ann")))
              (run [call_add_phone (str "2222222222")] (Record.__init__ (str "Ann")))
              eq_refl) as (A & B & C).
  split; [exact A|]. split.
  - rewrite B; [reflexivity|]. discriminate.
  - rewrite C. reflexivity.
Defined.

Lemma dict_keys_setitem_absent {V : Type} (k : pystr) (v : V) (d : dict.t V) :
  dict.contains k d = false -> dict.keys (dict.setitem k v d) = dict.keys d ++ [k].
Proof.
  unfold dict.contains, dict.keys. induction d as [|[k' v'] d IH]; simpl; [reflexivity|].
  destruct (pystr_eqb k' k) eqn:E; simpl; [discriminate|].
  intros H. f_equal. apply IH. exact H.
Qed.

End Directory.

(** * The birthday query *)

Section Query.
Import datetime.

Lemma replace_year (b : date) (y : Z) :
  replace b (Some y) None None = new y (month b) (day b).
Proof. reflexivity. Qed.

Lemma add_plus_days (d d' : date) (k : Z) :
  add d k = Ok d' -> d' = plus_days d k.
Proof.
  unfold add, plus_days, fromordinal, days.
  destruct ((0 <? toordinal d + k) && (toordinal d + k <=? _MAXORDINAL)); [|discriminate].
  destruct (_ord2ymd (toordinal d + k)) as [[y m] dd].
  intros H. apply new_inv in H. tauto.
Qed.

(** The weekend test of the program and the one of the specification. *)
Lemma weekend_test (d : date) :
  (WEEKEND_DAYS <=? weekday d) = ((weekday d =? 5) || (weekday d =? 6)).
Proof.
  pose proof (weekday_range d). unfold WEEKEND_DAYS.
  destruct (5 <=? weekday d) eqn:A; destruct (weekday d =? 5) eqn:B;
    destruct (weekday d =? 6) eqn:C; simpl; try reflexivity; exfalso;
    rewrite ?Z.leb_le, ?Z.leb_gt, ?Z.eqb_eq, ?Z.eqb_neq in *; lia.
Qed.

Lemma shift_to_monday (d : date) :
  valid d = true ->
  (if WEEKEND_DAYS <=? weekday d
   then add d (DAYS_IN_WEEK - weekday d)
   else Ok d) = Ok (congratulation d).
Proof.
  intros V. unfold congratulation. rewrite <- weekend_test.
  destruct (WEEKEND_DAYS <=? weekday d) eqn:W; [|reflexivity].
  apply Z.leb_le in W. unfold WEEKEND_DAYS in W.
  destruct (weekend_shift_ok d V W) as (d' & E & _).
  unfold DAYS_IN_WEEK. rewrite E. f_equal. apply add_plus_days. exact E.
Qed.

(** An occurrence is a date of the calendar. *)
Lemma occurrence_valid (today b occ : date) :
  occurrence today b = Some occ -> valid occ = true.
Proof.
  unfold occurrence. cbv zeta.
  destruct (valid (in_year (year today) b)) eqn:V1; [|discriminate].
  destruct (lt (in_year (year today) b) today).
  - destruct (valid (in_year (year today + 1) b)) eqn:V2; [|discriminate].
    intros H. inversion H. subst. exact V2.
  - intros H. inversion H. subst. exact V1.
Qed.

(** An occurrence is never before [today]: the lower bound of the window
    holds for every occurrence. *)
Lemma occurrence_not_past (today b occ : date) :
  valid today = true -> occurrence today b = Some occ -> 0 <= delta today occ.
Proof.
  intros VT H. pose proof (occurrence_valid _ _ _ H) as VO.
  unfold occurrence in H. cbv zeta in H. unfold delta.
  destruct (valid (in_year (year today) b)) eqn:V1; [|discriminate].
  destruct (lt (in_year (year today) b) today) eqn:L.
  - destruct (valid (in_year (year today + 1) b)) eqn:V2; [|discriminate].
    inversion H. subst occ.
    assert (LT : lt today (in_year (year today + 1) b) = true).
    { unfold lt, in_year. cbn [year].
      replace (year today <? year today + 1) with true by (symmetry; apply Z.ltb_lt; lia).
      reflexivity. }
    rewrite (lt_toordinal _ _ VT V2) in LT. apply Z.ltb_lt in LT. lia.
  - inversion H. subst occ. rewrite (lt_toordinal _ _ V1 VT) in L.
    apply Z.ltb_ge in L. lia.
Qed.

(** The loop, one turn at a time. *)
Lemma loop_turn (e : env) (item : pystr * Record.t)
  (items : list (pystr * Record.t)) (acc : list AddressBook.entry) :
  AddressBook.loop e (clock e) (item :: items) acc
  = bind (turn e item) (fun l => AddressBook.loop e (clock e) items (acc ++ l)).
Proof.
  destruct item as [name record]. unfold turn. cbn [AddressBook.loop snd fst].
  destruct (Record.birthday record) as [b|]; [|cbn [bind]; rewrite app_nil_r; reflexivity].
  cbv zeta.
  destruct (replace (Birthday.value b) (Some (year (clock e))) None None) as [d1|x];
    [|reflexivity].
  cbn [bind].
  destruct (if lt d1 (clock e)
            then replace (Birthday.value b) (Some (year (clock e) + 1)) None None
            else Ok d1) as [d2|x]; [|reflexivity].
  cbn [bind].
  destruct ((0 <=? days (sub d2 (clock e))) && (days (sub d2 (clock e)) <=? DAYS_IN_WEEK));
    [|cbn [bind]; rewrite app_nil_r; reflexivity].
  destruct (if WEEKEND_DAYS <=? weekday d2 then add d2 (DAYS_IN_WEEK - weekday d2) else Ok d2);
    reflexivity.
Qed.

(** A turn appends what the specification describes, or raises when the
    calendar lacks the occurrence. *)
Lemma turn_cases (e : env) (item : pystr * Record.t) :
  (projectable (clock e) item = true /\ turn e item = Ok (emitted e item))
  \/ (projectable (clock e) item = false /\ exists msg, turn e item = Raise (ValueError msg)).
Proof.
  unfold projectable, emitted, turn.
  destruct (Record.birthday (snd item)) as [b|]; [|left; auto].
  cbv zeta. rewrite !replace_year. unfold occurrence. cbv zeta.
  change (mkdate (year (clock e)) (month (Birthday.value b)) (day (Birthday.value b)))
    with (in_year (year (clock e)) (Birthday.value b)).
  change (mkdate (year (clock e) + 1) (month (Birthday.value b)) (day (Birthday.value b)))
    with (in_year (year (clock e) + 1) (Birthday.value b)).
  destruct (valid (in_year (year (clock e)) (Birthday.value b))) eqn:V1.
  2:{ right. destruct (new_raises _ _ _ V1) as [msg E]. rewrite E.
      split; [reflexivity|]. exists msg. reflexivity. }
  rewrite (new_valid _ _ _ V1). cbn [bind].
  fold (in_year (year (clock e)) (Birthday.value b)).
  destruct (lt (in_year (year (clock e)) (Birthday.value b)) (clock e)).
  - destruct (valid (in_year (year (clock e) + 1) (Birthday.value b))) eqn:V2.
    2:{ right. destruct (new_raises _ _ _ V2) as [msg E]. rewrite E.
        split; [reflexivity|]. exists msg. reflexivity. }
    rewrite (new_valid _ _ _ V2). cbn [bind].
    fold (in_year (year (clock e) + 1) (Birthday.value b)).
    left. split; [reflexivity|].
    unfold in_window, delta, sub, days, DAYS_IN_WEEK at 1.
    destruct ((0 <=? _) && (_ <=? 7)); [|reflexivity].
    rewrite (shift_to_monday _ V2). reflexivity.
  - cbn [bind]. left. split; [reflexivity|].
    unfold in_window, delta, sub, days, DAYS_IN_WEEK at 1.
    destruct ((0 <=? _) && (_ <=? 7)); [|reflexivity].
    rewrite (shift_to_monday _ V1). reflexivity.
Qed.

Lemma loop_projectable (e : env) (items : list (pystr * Record.t))
  (acc : list AddressBook.entry) :
  forallb (projectable (clock e)) items = true ->
  AddressBook.loop e (clock e) items acc = Ok (acc ++ flat_map (emitted e) items).
Proof.
  revert acc. induction items as [|item items IH]; intros acc P.
  - simpl. rewrite app_nil_r. reflexivity.
  - simpl in P. apply andb_true_iff in P. destruct P as [P1 P2].
    rewrite loop_turn.
    destruct (turn_cases e item) as [[_ E]|[F _]]; [|congruence].
    rewrite E. cbn [bind]. rewrite IH by exact P2.
    cbn [flat_map]. rewrite app_assoc. reflexivity.
Qed.

Lemma loop_not_projectable (e : env) (items : list (pystr * Record.t))
  (acc : list AddressBook.entry) :
  forallb (projectable (clock e)) items = false ->
  exists msg, AddressBook.loop e (clock e) items acc = Raise (ValueError msg).
Proof.
  revert acc. induction items as [|item items IH]; intros acc P; [discriminate|].
  rewrite loop_turn.
  destruct (turn_cases e item) as [[T E]|[_ [msg E]]]; rewrite E; cbn [bind].
  - simpl in P. rewrite T in P. apply IH. exact P.
  - eauto.
Qed.

Lemma get_upcoming_birthdays_eq (book : AddressBook.t) (e : env) :
  AddressBook.get_upcoming_birthdays book e
  = AddressBook.loop e (clock e) (AddressBook.data book) [].
Proof. reflexivity. Qed.

(** What the query returns is what the specification describes, in the
    directory's order. *)
Lemma query_returns (book : AddressBook.t) (e : env) (out : list AddressBook.entry) :
  AddressBook.get_upcoming_birthdays book e = Ok out ->
  out = flat_map (emitted e) (AddressBook.data book).
Proof.
  rewrite get_upcoming_birthdays_eq. intros H.
  destruct (forallb (projectable (clock e)) (AddressBook.data book)) eqn:P.
  - rewrite loop_projectable in H by exact P. inversion H. reflexivity.
  - destruct (loop_not_projectable e _ [] P) as [msg E]. congruence.
Qed.

(** X1.  The query returns exactly when the calendar has the occurrence
    of every birthday of the directory, and then it returns, in the
    directory's order, one entry for each record whose occurrence is zero to
    seven days after the date of the clock: the record's key and its
    congratulation date as text.  A record without a birthday gives no
    entry. *)
Theorem upcoming_birthdays_spec (book : AddressBook.t) (e : env) :
  (forallb (projectable (clock e)) (AddressBook.data book) = true ->
   AddressBook.get_upcoming_birthdays book e
   = Ok (flat_map (emitted e) (AddressBook.data book)))
  /\ (forall out,
         AddressBook.get_upcoming_birthdays book e = Ok out ->
         forallb (projectable (clock e)) (AddressBook.data book) = true
         /\ out = flat_map (emitted e) (AddressBook.data book))
  /\ (forall name record,
         Record.birthday record = None -> emitted e (name, record) = []).
Proof.
  rewrite get_upcoming_birthdays_eq. split; [|split].
  - intros P. rewrite loop_projectable by exact P. reflexivity.
  - intros out H.
    destruct (forallb (projectable (clock e)) (AddressBook.data book)) eqn:P.
    + rewrite loop_projectable in H by exact P. inversion H. auto.
    + destruct (loop_not_projectable e _ [] P) as [msg E]. congruence.
  - intros name record B. unfold emitted. cbn [snd]. rewrite B. reflexivity.
Qed.



Lemma emitted_name (e : env) (item : pystr * Record.t) :
  map AddressBook.name (emitted e item) = if emits e item then [fst item] else [].
Proof.
  unfold emits, emitted. destruct (Record.birthday (snd item)); [|reflexivity].
  destruct (occurrence (clock e) _); [|reflexivity].
  destruct (in_window (clock e) _); reflexivity.
Qed.

Lemma emitted_names (e : env) (items : list (pystr * Record.t)) :
  map AddressBook.name (flat_map (emitted e) items) = map fst (filter (emits e) items).
Proof.
  induction items as [|item items IH]; [reflexivity|].
  cbn [flat_map filter]. rewrite map_app, emitted_name, IH.
  destruct (emits e item); reflexivity.
Qed.

(** ** A birthday on 29 February *)

Lemma leap_years_apart (y : Z) : _is_leap y = true -> _is_leap (y + 1) = false.
Proof.
  unfold _is_leap. rewrite andb_true_iff, Z.eqb_eq. intros [H _].
  assert (E : ((y + 1) mod 4 =? 0) = false).
  { apply Z.eqb_neq. Z.to_euclidean_division_equations. lia. }
  rewrite E. reflexivity.
Qed.

Lemma leap_day_valid (y : Z) (b : date) :
  month b = 2 -> day b = 29 -> valid (in_year y b) = true -> _is_leap y = true.
Proof.
  intros M D V. apply valid_iff in V. unfold in_year in V.
  cbn [year month day] in V. rewrite M, D in V. unfold _days_in_month in V.
  destruct (_is_leap y); [reflexivity|]. vm_compute in V. exfalso. apply V. reflexivity.
Qed.

Lemma occurrence_leap_day (today b : date) :
  month b = 2 -> day b = 29 ->
  _is_leap (year today) = false \/ lt (in_year (year today) b) today = true ->
  occurrence today b = None.
Proof.
  intros M D H. unfold occurrence. cbv zeta.
  destruct (valid (in_year (year today) b)) eqn:V1; [|reflexivity].
  pose proof (leap_day_valid _ b M D V1) as L1.
  destruct H as [H|H]; [congruence|]. rewrite H.
  destruct (valid (in_year (year today + 1) b)) eqn:V2; [|reflexivity].
  pose proof (leap_day_valid _ b M D V2) as L2.
  rewrite (leap_years_apart _ L1) in L2. discriminate.
Qed.

(** C10.  The query is not total.  The directory that holds one record,
    Bob with the birthday 29.02.2000, is built by the program's own
    operations, and on 17 May 2023 the query raises [ValueError] on it.  In
    general the query raises a [ValueError] whenever some record of the
    directory has its birthday on 29 February and the year of the clock is no
    leap year, or it is one and 29 February is already past. *)
Theorem leap_day_birthday_raises :
  (exists (book : AddressBook.t) (e : env),
      book = after (AddressBook.add_record
                      (run [call_add_birthday (str "29.02.2000")]
                           (Record.__init__ (str "Bob")))
                      AddressBook.__init__)
      /\ AddressBook.find book (str "Bob")
         = Some (Record.mk (Name.mk (str "Bob")) []
                           (Some (Birthday.mk (mkdate 2000 2 29))))
      /\ valid (clock e) = true
      /\ AddressBook.get_upcoming_birthdays book e
         = Raise (ValueError (str "day is out of range for month")))
  /\ (forall (book : AddressBook.t) (e : env) (name : pystr) (record : Record.t)
             (b : Birthday.t),
         In (name, record) (AddressBook.data book) ->
         Record.birthday record = Some b ->
         month (Birthday.value b) = 2 -> day (Birthday.value b) = 29 ->
         _is_leap (year (clock e)) = false
         \/ lt (in_year (year (clock e)) (Birthday.value b)) (clock e) = true ->
         exists msg,
           AddressBook.get_upcoming_birthdays book e = Raise (ValueError msg)).
Proof.
  split.
  - eexists. exists (mkenv (mkdate 2023 5 17) 0 year_padded).
    split; [reflexivity|]. repeat split.
  - intros book e name record b I B M D H.
    rewrite get_upcoming_birthdays_eq. apply loop_not_projectable.
    destruct (forallb (projectable (clock e)) (AddressBook.data book)) eqn:P; [|reflexivity].
    rewrite forallb_forall in P. apply P in I.
    unfold projectable in I. cbn [snd] in I. rewrite B in I.
    rewrite (occurrence_leap_day _ _ M D H) in I. discriminate.
Qed.

(** C1, which the code breaks.  The clock says 17 May 2023.  Ann's
    birthday, 17.05.1990, falls on that day, so the query has to emit her with
    the congratulation date 17.05.2023, and on the directory of Ann alone it
    does.  With Bob, born 29.02.2000, in the directory as well, replacing the
    year of his birthday raises [ValueError] and the query emits nothing. *)
Theorem leap_day_hides_due_birthday :
  let ann := run [call_add_birthday (str "17.05.1990")] (Record.__init__ (str "Ann")) in
  let bob := run [call_add_birthday (str "29.02.2000")] (Record.__init__ (str "Bob")) in
  let alone := after (AddressBook.add_record ann AddressBook.__init__) in
  let book := after (AddressBook.add_record bob alone) in
  let e := mkenv (mkdate 2023 5 17) 0 year_padded in
  emitted e (str "Ann", ann) = [AddressBook.mkentry (str "Ann") (str "17.05.2023")]
  /\ AddressBook.get_upcoming_birthdays alone e
     = Ok [AddressBook.mkentry (str "Ann") (str "17.05.2023")]
  /\ AddressBook.get_upcoming_birthdays book e
     = Raise (ValueError (str "day is out of range for month")).
Proof. cbv zeta. repeat split. Qed.

(** C9.  What the query returns lists the keys of the emitted records in
    the order in which the directory iterates, which is the order of
    insertion: a record under a new name goes to the end.  The order is not by
    name and not by date: with Zed inserted before Ann, Zed (greeted on
    20.05.2024) comes before Ann (greeted on 17.05.2024). *)
Theorem upcoming_birthdays_order :
  (forall (book : AddressBook.t) (e : env) (out : list AddressBook.entry),
      AddressBook.get_upcoming_birthdays book e = Ok out ->
      map AddressBook.name out = map fst (filter (emits e) (AddressBook.data book)))
  /\ (forall (book : AddressBook.t) (record : Record.t),
         AddressBook.find book (Name.value (Record.name record)) = None ->
         dict.keys (AddressBook.data (after (AddressBook.add_record record book)))
         = dict.keys (AddressBook.data book) ++ [Name.value (Record.name record)])
  /\ (exists (book : AddressBook.t) (e : env),
         dict.keys (AddressBook.data book) = [str "Zed"; str "Ann"]
         /\ AddressBook.get_upcoming_birthdays book e
            = Ok [AddressBook.mkentry (str "Zed") (str "20.05.2024");
                  AddressBook.mkentry (str "Ann") (str "17.05.2024")]
         /\ ascending [str "Zed"; str "Ann"] = false
         /\ lt (mkdate 2024 5 17) (mkdate 2024 5 20) = true).
Proof.
  split; [|split].
  - intros book e out H. apply query_returns in H. subst out.
    apply emitted_names.
  - intros book record H. rewrite add_record_eq. unfold after. simpl.
    apply dict_keys_setitem_absent. unfold dict.contains.
    unfold AddressBook.find in H. rewrite H. reflexivity.
  - exists (after (AddressBook.add_record
                     (run [call_add_birthday (str "17.05.1985")] (Record.__init__ (str "Ann")))
                     (after (AddressBook.add_record
                               (run [call_add_birthday (str "18.05.1990")]
                                    (Record.__init__ (str "Zed")))
                               AddressBook.__init__)))),
           (mkenv (mkdate 2024 5 17) 0 year_padded).
    repeat split.
Qed.

(** ** What the query depends on *)

Lemma turn_depends (e1 e2 : env) (item1 item2 : pystr * Record.t) :
  clock e1 = clock e2 -> libc_year e1 = libc_year e2 ->
  fst item1 = fst item2 -> Record.birthday (snd item1) = Record.birthday (snd item2) ->
  turn e1 item1 = turn e2 item2.
Proof.
  intros C L N B. unfold turn. rewrite C, L, N, B. reflexivity.
Qed.

Lemma loop_depends (e1 e2 : env) (items1 items2 : list (pystr * Record.t))
  (acc : list AddressBook.entry) :
  clock e1 = clock e2 -> libc_year e1 = libc_year e2 ->
  map (fun item : pystr * Record.t => (fst item, Record.birthday (snd item))) items1
  = map (fun item : pystr * Record.t => (fst item, Record.birthday (snd item))) items2 ->
  AddressBook.loop e1 (clock e1) items1 acc = AddressBook.loop e2 (clock e2) items2 acc.
Proof.
  intros C L. revert items2 acc.
  induction items1 as [|item1 items1 IH]; intros [|item2 items2] acc H;
    try discriminate; [reflexivity|].
  cbn [map] in H. inversion H as [[N B T]].
  rewrite !loop_turn, (turn_depends e1 e2 item1 item2 C L N B).
  destruct (turn e2 item2) as [l|x]; [|reflexivity].
  cbn [bind]. apply IH. exact T.
Qed.

(** C2, as the code has it.  The query called with no argument is a
    function of the date of the clock, of the C library's [%Y] and of the
    names and birthdays of the directory in its order: two runs that agree on
    these return the same list or raise the same exception, whatever the time
    of day and the phones are. *)
Theorem upcoming_birthdays_deterministic (book1 book2 : AddressBook.t) (e1 e2 : env) :
  clock e1 = clock e2 -> libc_year e1 = libc_year e2 ->
  birthdays_of book1 = birthdays_of book2 ->
  AddressBook.call_get_upcoming_birthdays book1 [] e1
  = AddressBook.call_get_upcoming_birthdays book2 [] e2.
Proof.
  intros C L B. unfold AddressBook.call_get_upcoming_birthdays.
  rewrite !get_upcoming_birthdays_eq. apply loop_depends; assumption.
Qed.

(** The same clock date at another time of day, and a phone more for Ann. *)
Lemma upcoming_birthdays_deterministic_witness :
  let ann := run [call_add_birthday (str "17.05.1990")] (Record.__init__ (str "Ann")) in
  let ann' := run [call_add_phone (str "1111111111")] ann in
  let book := after (AddressBook.add_record ann AddressBook.__init__) in
  let book' := after (AddressBook.add_record ann' AddressBook.__init__) in
  AddressBook.call_get_upcoming_birthdays book [] (mkenv (mkdate 2023 5 17) 0 year_padded)
  = AddressBook.call_get_upcoming_birthdays book' [] (mkenv (mkdate 2023 5 17) 86399 year_padded).
Proof.
  cbv zeta. apply upcoming_birthdays_deterministic; reflexivity.
Defined.

(** A date handed to the query is a [TypeError]; and with the same directory
    and the same (empty) arguments the answer changes with the clock. *)
Lemma upcoming_birthdays_clock_counterexample :
  let ann := run [call_add_birthday (str "17.05.1990")] (Record.__init__ (str "Ann")) in
  let book := after (AddressBook.add_record ann AddressBook.__init__) in
  let today := mkdate 2023 5 17 in
  let e := mkenv (mkdate 2023 6 30) 0 year_padded in
  AddressBook.call_get_upcoming_birthdays book [today] e
  = Raise (TypeError (str "AddressBook.get_upcoming_birthdays() takes 1 positional argument but 2 were given"))
  /\ AddressBook.call_get_upcoming_birthdays book [] (mkenv today 0 year_padded)
     = Ok [AddressBook.mkentry (str "Ann") (str "17.05.2023")]
  /\ AddressBook.call_get_upcoming_birthdays book [] e = Ok [].
Proof. cbv zeta. repeat split. Qed.

End Query.

(** * More of [Record] *)

Section MoreRecords.
Import Record.

Lemma first_index_app_absent {A : Type} (f : A -> bool) (l : list A) (x : A) :
  (forall y, In y l -> f y = false) -> f x = true ->
  first_index f (l ++ [x]) = Some (List.length l).
Proof.
  intros N T. induction l as [|a l IH]; simpl.
  - rewrite T. reflexivity.
  - rewrite (N a) by (left; reflexivity). rewrite IH; [reflexivity|].
    intros y I. apply N. right. exact I.
Qed.

Lemma pop_last {A : Type} (l : list A) (x : A) : pop (List.length l) (l ++ [x]) = l.
Proof.
  induction l as [|a l IH]; [reflexivity|].
  change (pop (List.length (a :: l)) ((a :: l) ++ [x]))
    with (a :: pop (List.length l) (l ++ [x])).
  rewrite IH. reflexivity.
Qed.

Lemma find_app_absent {A : Type} (f : A -> bool) (l : list A) (x : A) :
  (forall y, In y l -> f y = false) -> f x = true -> find f (l ++ [x]) = Some x.
Proof.
  intros N T. induction l as [|a l IH]; simpl.
  - rewrite T. reflexivity.
  - rewrite (N a) by (left; reflexivity). apply IH. intros y I. apply N. right. exact I.
Qed.

Lemma find_phone_absent (self : t) (raw : pystr) :
  find_phone self raw = None -> forall p, In p (phones self) -> has_value raw p = false.
Proof. intros F p I. exact (find_none _ _ F p I). Qed.

(** X4.  After a call of [add_phone] that returned, [find_phone] finds
    the phone with the value given, [remove_phone] of that value gives back
    the record as it was before, and a second [add_phone] of it is refused as
    a duplicate. *)
Theorem add_phone_round_trips (self : t) (phone_raw : pystr) :
  outcome (add_phone phone_raw self) = Ok tt ->
  find_phone (after (add_phone phone_raw self)) phone_raw = Some (Phone.mk phone_raw)
  /\ remove_phone phone_raw (after (add_phone phone_raw self)) = (Ok true, self)
  /\ outcome (add_phone phone_raw (after (add_phone phone_raw self))) = Raise already_added.
Proof.
  rewrite add_phone_eq.
  destruct (find_phone self phone_raw) as [p|] eqn:F; [discriminate|].
  destruct (Phone._validate_phone phone_raw) as [[]|x]; [|discriminate].
  intros _. unfold after, outcome. cbn [fst snd].
  pose proof (find_phone_absent self phone_raw F) as N.
  assert (T : has_value phone_raw (Phone.mk phone_raw) = true)
    by (apply has_value_true; reflexivity).
  assert (E : find_phone (mk (name self) (phones self ++ [Phone.mk phone_raw]) (birthday self))
                phone_raw = Some (Phone.mk phone_raw)).
  { unfold find_phone. cbn [phones]. apply find_app_absent; assumption. }
  split; [exact E|]. split.
  - rewrite remove_phone_eq. cbn [phones name birthday].
    rewrite (first_index_app_absent _ _ _ N T), pop_last.
    destruct self; reflexivity.
  - rewrite add_phone_eq, E. reflexivity.
Qed.

Lemma add_phone_round_trips_witness :
  let self := run [call_add_phone (str "1111111111")] (__init__ (str "Ann")) in
  find_phone (after (add_phone (str "2222222222") self)) (str "2222222222")
  = Some (Phone.mk (str "2222222222"))
  /\ remove_phone (str "2222222222") (after (add_phone (str "2222222222") self))
     = (Ok true, self).
Proof.
  cbv zeta.
  destruct (add_phone_round_trips
              (run [call_add_phone (str "1111111111")] (__init__ (str "Ann")))
              (str "2222222222") eq_refl) as (A & B & _).
  split; assumption.
Defined.

Lemma pop_length {A : Type} (i : nat) (l : list A) :
  (i < List.length l)%nat -> List.length (pop i l) = (List.length l - 1)%nat.
Proof.
  intros H. unfold pop. rewrite length_app, length_firstn, length_skipn. lia.
Qed.

Lemma pop_nth_before {A : Type} (i j : nat) (l : list A) :
  (j < i)%nat -> nth_error (pop i l) j = nth_error l j.
Proof.
  revert i j. induction l as [|a l IH]; intros i j H.
  - unfold pop. rewrite firstn_nil, skipn_nil. reflexivity.
  - destruct i as [|i]; [lia|]. change (pop (S i) (a :: l)) with (a :: pop i l).
    destruct j as [|j]; [reflexivity|]. simpl. apply IH. lia.
Qed.

Lemma pop_nth_after {A : Type} (i j : nat) (l : list A) :
  (i <= j)%nat -> nth_error (pop i l) j = nth_error l (S j).
Proof.
  revert i j. induction l as [|a l IH]; intros i j H.
  - unfold pop. rewrite firstn_nil, skipn_nil. simpl. destruct j; reflexivity.
  - destruct i as [|i].
    + reflexivity.
    + change (pop (S i) (a :: l)) with (a :: pop i l).
      destruct j as [|j]; [lia|]. simpl. apply IH. lia.
Qed.

Lemma pop_absent {A : Type} (i : nat) (l : list A) (x : A) :
  NoDup l -> nth_error l i = Some x -> ~ In x (pop i l).
Proof.
  revert i. induction l as [|a l IH]; intros i N E.
  - destruct i; discriminate.
  - inversion N as [|? ? Na Nl]. subst. destruct i as [|i].
    + simpl in E. inversion E. subst. exact Na.
    + change (pop (S i) (a :: l)) with (a :: pop i l). simpl in E.
      intros [H|H].
      * subst. apply Na. eapply nth_error_In. exact E.
      * exact (IH i Nl E H).
Qed.

(** X5.  [remove_phone] of a value that is not among the phones returns
    [False] and leaves the record unchanged.  Otherwise it returns [True] and
    removes the first phone with that value and no other: the phones before
    it and after it keep their order, and the list is one shorter.  When the
    values were distinct, the value is gone. *)
Theorem remove_phone_contract (self : t) (phone_to_delete : pystr) :
  (~ In phone_to_delete (phone_values self) ->
   remove_phone phone_to_delete self = (Ok false, self))
  /\ (In phone_to_delete (phone_values self) ->
      exists index,
        first_index (has_value phone_to_delete) (phones self) = Some index
        /\ nth_error (phone_values self) index = Some phone_to_delete
        /\ (forall j v, (j < index)%nat -> nth_error (phone_values self) j = Some v ->
                        v <> phone_to_delete)
        /\ remove_phone phone_to_delete self
           = (Ok true, mk (name self) (pop index (phones self)) (birthday self))
        /\ len (phones (after (remove_phone phone_to_delete self))) = len (phones self) - 1
        /\ (forall j, (j < index)%nat ->
                      nth_error (phones (after (remove_phone phone_to_delete self))) j
                      = nth_error (phones self) j)
        /\ (forall j, (index <= j)%nat ->
                      nth_error (phones (after (remove_phone phone_to_delete self))) j
                      = nth_error (phones self) (S j)))
  /\ (NoDup (phone_values self) ->
      ~ In phone_to_delete (phone_values (after (remove_phone phone_to_delete self)))).
Proof.
  rewrite remove_phone_eq. split; [|split].
  - intros N.
    destruct (first_index (has_value phone_to_delete) (phones self)) eqn:E; [|reflexivity].
    exfalso. apply N. apply first_index_in. eauto.
  - intros I. apply first_index_in in I. destruct I as [i E]. rewrite E.
    pose proof (first_index_lt _ _ _ E) as L.
    destruct (first_index_some _ _ _ E) as (p & Np & F & B).
    apply has_value_true in F. exists i. unfold after. cbn [snd phones].
    split; [reflexivity|]. split; [|split; [|split; [|split; [|split]]]].
    + unfold phone_values. rewrite nth_error_map, Np. simpl. congruence.
    + intros j v J Nv. unfold phone_values in Nv. rewrite nth_error_map in Nv.
      destruct (nth_error (phones self) j) as [q|] eqn:Q; [|discriminate].
      simpl in Nv. inversion Nv. subst v. specialize (B j q J Q).
      intros C. apply has_value_true in C. congruence.
    + reflexivity.
    + unfold len. rewrite pop_length by exact L. lia.
    + intros j J. apply pop_nth_before. exact J.
    + intros j J. apply pop_nth_after. exact J.
  - intros N.
    destruct (first_index (has_value phone_to_delete) (phones self)) as [i|] eqn:E.
    + unfold after, phone_values. cbn [snd phones]. rewrite map_pop.
      apply pop_absent; [exact N|].
      destruct (first_index_some _ _ _ E) as (p & Np & F & _).
      apply has_value_true in F. rewrite nth_error_map, Np. simpl. congruence.
    + unfold after. cbn [snd]. intros I. apply first_index_in in I.
      destruct I as [i I]. congruence.
Qed.

End MoreRecords.

Section MoreRecords2.
Import Record.

Lemma Birthday_init_valid (s : pystr) (b : Birthday.t) :
  Birthday.__init__ s = Ok b -> datetime.valid (Birthday.value b) = true.
Proof.
  rewrite Birthday_init_parsed. destruct (parsed s) as [d|]; [|discriminate].
  destruct (datetime.valid d) eqn:V; [|discriminate].
  intros H. inversion H. exact V.
Qed.

Lemma step_name (o : op) (self : t) : name (step o self) = name self.
Proof.
  destruct o as [raw|raw|old new|raw]; simpl.
  - rewrite add_phone_eq. destruct (find_phone self raw); [reflexivity|].
    destruct (Phone._validate_phone raw); reflexivity.
  - rewrite remove_phone_eq. destruct (first_index _ _); reflexivity.
  - rewrite edit_phone_eq. destruct (first_index _ _); [|reflexivity].
    destruct (Phone._validate_phone new); reflexivity.
  - rewrite add_birthday_eq. destruct (Birthday.__init__ raw); reflexivity.
Qed.

Lemma step_birthday_valid (o : op) (self : t) :
  (forall b, birthday self = Some b -> datetime.valid (Birthday.value b) = true) ->
  forall b, birthday (step o self) = Some b -> datetime.valid (Birthday.value b) = true.
Proof.
  intros V. destruct o as [raw|raw|old new|raw]; simpl.
  - rewrite add_phone_eq. destruct (find_phone self raw); [exact V|].
    destruct (Phone._validate_phone raw); exact V.
  - rewrite remove_phone_eq. destruct (first_index _ _); exact V.
  - rewrite edit_phone_eq. destruct (first_index _ _); [|exact V].
    destruct (Phone._validate_phone new); exact V.
  - rewrite add_birthday_eq. destruct (Birthday.__init__ raw) as [b0|x] eqn:E; [|exact V].
    simpl. intros b H. inversion H. subst b. exact (Birthday_init_valid _ _ E).
Qed.

Lemma valid_phones_digits (self : t) :
  valid_phones self ->
  Forall (fun p => len (Phone.value p) = 10
                   /\ forallb unicode.isdigit (Phone.value p) = true) (phones self).
Proof.
  unfold valid_phones. intros V. rewrite Forall_forall in *. intros p I.
  apply V in I. apply validate_phone_ok in I. tauto.
Qed.

Lemma step_invariant (name0 : pystr) (o : op) (self : t) :
  record_invariant name0 self -> record_invariant name0 (step o self).
Proof.
  intros (N & P & B). split; [|split].
  - rewrite step_name. exact N.
  - apply valid_phones_digits. apply step_valid_phones.
    unfold valid_phones. rewrite Forall_forall in *. intros p I.
    apply validate_phone_ok. apply P in I. tauto.
  - apply step_birthday_valid. exact B.
Qed.

(** X6.  Whatever is called on a fresh record, it keeps the name it was
    constructed with, each of its phones is a string of exactly ten digits,
    and its birthday, if it has one, is a date of the calendar. *)
Theorem record_invariants (name0 : pystr) (ops : list op) :
  record_invariant name0 (run ops (__init__ name0)).
Proof.
  assert (G : forall self, record_invariant name0 self ->
                           record_invariant name0 (run ops self)).
  { induction ops as [|o ops IH]; intros self I; [exact I|].
    simpl. apply IH. apply step_invariant. exact I. }
  apply G. split; [reflexivity|]. split; [constructor|]. intros b H. discriminate.
Qed.

End MoreRecords2.

(** * Formatting, then parsing *)

Lemma two_digits_form (n : Z) :
  0 <= n <= 99 ->
  exists a b, two_digits n = [a; b] /\ ascii_digit a = true /\ ascii_digit b = true
              /\ 10 * digit_value a + digit_value b = n.
Proof.
  intros H. unfold two_digits. eexists. eexists. split; [reflexivity|].
  unfold ascii_digit, digit_value. rewrite !andb_true_iff, !N.leb_le.
  repeat split; Z.to_euclidean_division_equations; lia.
Qed.

Lemma four_digits_form (n : Z) :
  0 <= n <= 9999 ->
  exists a b c d, four_digits n = [a; b; c; d]
                  /\ forallb ascii_digit [a; b; c; d] = true
                  /\ 1000 * digit_value a + 100 * digit_value b
                     + 10 * digit_value c + digit_value d = n.
Proof.
  intros H. unfold four_digits. do 4 eexists. split; [reflexivity|].
  cbn [forallb]. unfold ascii_digit, digit_value. rewrite !andb_true_iff, !N.leb_le.
  repeat split; Z.to_euclidean_division_equations; lia.
Qed.

Lemma strftime_in_form (ys : year_style) (d : datetime.date) :
  datetime.valid d = true ->
  ys = year_padded \/ 1000 <= datetime.year d ->
  dd_mm_yyyy (strftime ys d (read_format DATE_FORMAT)) = Some d.
Proof.
  intros V Y. pose proof V as V'. apply valid_iff in V'. destruct V' as (Vy & Vm & Vd).
  pose proof (days_in_month_le_31 (datetime.year d) _ Vm) as D31.
  rewrite DATE_FORMAT_items.
  cbn [strftime format_directive].
  rewrite !zfill2_int_str by lia.
  assert (E : match ys with
              | year_padded => zfill 4 (int_str (datetime.year d))
              | year_plain => int_str (datetime.year d)
              end = four_digits (datetime.year d)).
  { destruct ys; [apply zfill4_int_str; lia|].
    destruct Y as [Y|Y]; [discriminate|]. apply int_str_four. lia. }
  rewrite E.
  destruct (two_digits_form (datetime.day d) ltac:(lia)) as (d1 & d2 & -> & Hd1 & Hd2 & Ed).
  destruct (two_digits_form (datetime.month d) ltac:(lia)) as (m1 & m2 & -> & Hm1 & Hm2 & Em).
  destruct (four_digits_form (datetime.year d) ltac:(lia))
    as (y1 & y2 & y3 & y4 & -> & Hy & Ey).
  cbn [app]. unfold dd_mm_yyyy. cbn [forallb] in *.
  rewrite !andb_true_iff in Hy. destruct Hy as (Hy1 & Hy2 & Hy3 & Hy4 & _).
  rewrite Hd1, Hd2, Hm1, Hm2, Hy1, Hy2, Hy3, Hy4. cbn [andb N.eqb Pos.eqb].
  cbv zeta. rewrite Ed, Em, Ey. destruct d as [y m dd]. cbn [datetime.year datetime.month datetime.day] in *.
  rewrite V. reflexivity.
Qed.

(** X7.  Formatting, then parsing: [Birthday] reads the text that
    [strftime] writes for a date with [DATE_FORMAT] as that date, when the
    year has four digits or the C library pads it to four. *)
Theorem Birthday_of_formatted (ys : year_style) (d : datetime.date) :
  datetime.valid d = true ->
  ys = year_padded \/ 1000 <= datetime.year d ->
  Birthday.__init__ (strftime ys d (read_format DATE_FORMAT)) = Ok (Birthday.mk d).
Proof.
  intros V Y. unfold Birthday.__init__.
  rewrite (strptime_dd_mm_yyyy _ d (strftime_in_form ys d V Y)). reflexivity.
Qed.

Lemma Birthday_of_formatted_witness :
  Birthday.__init__ (strftime year_plain (datetime.mkdate 2024 2 29) (read_format DATE_FORMAT))
  = Ok (Birthday.mk (datetime.mkdate 2024 2 29)).
Proof.
  apply Birthday_of_formatted; [reflexivity|]. right. simpl. lia.
Defined.

(** * More of [AddressBook] *)

Section MoreDirectory.

Lemma dict_get_none {V : Type} (k : pystr) (d : dict.t V) :
  dict.get k d = None <-> ~ In k (dict.keys d).
Proof.
  unfold dict.keys. induction d as [|[k' v'] d IH]; simpl.
  - tauto.
  - destruct (pystr_eqb k' k) eqn:E.
    + apply pystr_eqb_eq in E. split; [discriminate|]. intros H. exfalso. auto.
    + apply pystr_eqb_neq in E. rewrite IH. tauto.
Qed.

Lemma dict_delitem_absent {V : Type} (k : pystr) (d : dict.t V) :
  dict.get k d = None -> dict.delitem k d = d.
Proof.
  induction d as [|[k' v'] d IH]; simpl; [reflexivity|].
  destruct (pystr_eqb k' k); [discriminate|]. intros H. rewrite IH by exact H. reflexivity.
Qed.

Lemma dict_get_delitem_other {V : Type} (k k0 : pystr) (d : dict.t V) :
  k0 <> k -> dict.get k0 (dict.delitem k d) = dict.get k0 d.
Proof.
  intros N. induction d as [|[k' v'] d IH]; simpl; [reflexivity|].
  destruct (pystr_eqb k' k) eqn:E; simpl.
  - apply pystr_eqb_eq in E. subst k'.
    destruct (pystr_eqb k k0) eqn:E0; [|reflexivity].
    apply pystr_eqb_eq in E0. congruence.
  - destruct (pystr_eqb k' k0); [reflexivity|exact IH].
Qed.

Lemma dict_keys_delitem {V : Type} (k : pystr) (d : dict.t V) :
  forall x, In x (dict.keys (dict.delitem k d)) -> In x (dict.keys d).
Proof.
  unfold dict.keys. induction d as [|[k' v'] d IH]; simpl; [tauto|].
  destruct (pystr_eqb k' k); simpl; intros x H; [tauto|].
  destruct H as [H|H]; [tauto|]. right. apply IH. exact H.
Qed.

Lemma dict_get_delitem_same {V : Type} (k : pystr) (d : dict.t V) :
  NoDup (dict.keys d) -> dict.get k (dict.delitem k d) = None.
Proof.
  unfold dict.keys. induction d as [|[k' v'] d IH]; simpl; intros N; [reflexivity|].
  inversion N as [|? ? Na Nl]. subst.
  destruct (pystr_eqb k' k) eqn:E; simpl.
  - apply pystr_eqb_eq in E. subst k'. apply dict_get_none. exact Na.
  - rewrite E. apply IH. exact Nl.
Qed.

Lemma dict_delitem_setitem_absent {V : Type} (k : pystr) (v : V) (d : dict.t V) :
  dict.get k d = None -> dict.delitem k (dict.setitem k v d) = d.
Proof.
  induction d as [|[k' v'] d IH]; simpl.
  - rewrite pystr_eqb_refl. reflexivity.
  - destruct (pystr_eqb k' k) eqn:E; [discriminate|]. simpl. rewrite E.
    intros H. rewrite IH by exact H. reflexivity.
Qed.

Lemma dict_keys_delitem_split {V : Type} (k : pystr) (d : dict.t V) :
  dict.contains k d = true ->
  exists before after,
    dict.keys d = before ++ k :: after /\ ~ In k before
    /\ dict.keys (dict.delitem k d) = before ++ after.
Proof.
  unfold dict.contains, dict.keys. induction d as [|[k' v'] d IH]; simpl; [discriminate|].
  destruct (pystr_eqb k' k) eqn:E.
  - apply pystr_eqb_eq in E. subst k'. intros _. exists [], (map fst d). auto.
  - intros H. destruct (IH H) as (b & a & E1 & N & E2).
    exists (k' :: b), a. simpl. rewrite E1, E2. repeat split; auto.
    apply pystr_eqb_neq in E. intros [C|C]; auto.
Qed.

Lemma delete_eq (self : AddressBook.t) (name : pystr) :
  AddressBook.delete name self =
  if dict.contains name (AddressBook.data self)
  then (Ok true, AddressBook.mk (dict.delitem name (AddressBook.data self)))
  else (Ok false, self).
Proof.
  unfold AddressBook.delete, mbind, get, put, ret.
  destruct (dict.contains name (AddressBook.data self)); reflexivity.
Qed.

(** X8.  [delete] of a name that is not a key returns [False] and leaves
    the directory unchanged.  Of a key it returns [True] and removes that one
    entry: every other name is found as before, and the keys keep their
    order.  With distinct keys the name is not found afterwards. *)
Theorem delete_contract (book : AddressBook.t) (name : pystr) :
  (AddressBook.find book name = None -> AddressBook.delete name book = (Ok false, book))
  /\ (forall record, AddressBook.find book name = Some record ->
        outcome (AddressBook.delete name book) = Ok true
        /\ (forall other, other <> name ->
              AddressBook.find (after (AddressBook.delete name book)) other
              = AddressBook.find book other)
        /\ (exists before after',
              dict.keys (AddressBook.data book) = before ++ name :: after'
              /\ ~ In name before
              /\ dict.keys (AddressBook.data (after (AddressBook.delete name book)))
                 = before ++ after'))
  /\ (unique_keys book ->
      AddressBook.find (after (AddressBook.delete name book)) name = None
      /\ unique_keys (after (AddressBook.delete name book))).
Proof.
  rewrite delete_eq. unfold AddressBook.find, dict.contains.
  split; [|split].
  - intros ->. reflexivity.
  - intros record E. rewrite E. unfold outcome, after. cbn [fst snd AddressBook.data].
    split; [reflexivity|]. split.
    + intros other N. apply dict_get_delitem_other. exact N.
    + apply dict_keys_delitem_split. unfold dict.contains. rewrite E. reflexivity.
  - intros U. unfold unique_keys in *.
    destruct (dict.get name (AddressBook.data book)) eqn:E;
      unfold after; cbn [snd AddressBook.data].
    + split; [apply dict_get_delitem_same; exact U|].
      destruct (dict_keys_delitem_split name (AddressBook.data book)) as (b & a & E1 & N & E2).
      { unfold dict.contains. rewrite E. reflexivity. }
      rewrite E2. rewrite E1 in U. apply NoDup_remove_1 in U. exact U.
    + split; assumption.
Qed.

(** X9.  A record stored under a name the directory did not have is
    found under that name, and [delete] of the name gives back the directory
    as it was. *)
Theorem add_record_then_delete (book : AddressBook.t) (record : Record.t) :
  let name := Name.value (Record.name record) in
  AddressBook.find book name = None ->
  AddressBook.find (after (AddressBook.add_record record book)) name = Some record
  /\ AddressBook.delete name (after (AddressBook.add_record record book)) = (Ok true, book).
Proof.
  cbv zeta. intros A. rewrite add_record_eq. unfold after. cbn [snd].
  unfold AddressBook.find in *. cbn [AddressBook.data].
  split; [apply dict_get_setitem_same|].
  rewrite delete_eq. cbn [AddressBook.data]. unfold dict.contains.
  rewrite dict_get_setitem_same, dict_delitem_setitem_absent by exact A.
  destruct book; reflexivity.
Qed.

Lemma add_record_then_delete_witness :
  let book := after (AddressBook.add_record (Record.__init__ (str "Bob")) AddressBook.__init__) in
  let ann := run [call_add_phone (str "1111111111")] (Record.__init__ (str "Ann")) in
  AddressBook.delete (str "Ann") (after (AddressBook.add_record ann book)) = (Ok true, book).
Proof.
  cbv zeta.
  exact (proj2 (add_record_then_delete
                  (after (AddressBook.add_record (Record.__init__ (str "Bob"))
                                                 AddressBook.__init__))
                  (run [call_add_phone (str "1111111111")] (Record.__init__ (str "Ann")))
                  eq_refl)).
Defined.

End MoreDirectory.

Section MoreQuery.
Import datetime.

Lemma congratulation_weekday (occ : date) :
  valid occ = true ->
  valid (congratulation occ) = true
  /\ weekday (congratulation occ) <= 4
  /\ toordinal occ <= toordinal (congratulation occ) <= toordinal occ + 2.
Proof.
  intros V. pose proof (weekday_range occ) as R. unfold congratulation.
  destruct ((weekday occ =? 5) || (weekday occ =? 6)) eqn:W.
  - apply orb_true_iff in W. rewrite !Z.eqb_eq in W.
    destruct (weekend_shift_ok occ V ltac:(lia)) as (d' & E & V' & O & Wd).
    apply add_plus_days in E. subst d'. repeat split; try assumption; lia.
  - apply orb_false_iff in W. rewrite !Z.eqb_neq in W. repeat split; try assumption; lia.
Qed.

Lemma emitted_entry (e : env) (item : pystr * Record.t) (x : AddressBook.entry) :
  In x (emitted e item) ->
  exists b occ,
    Record.birthday (snd item) = Some b
    /\ occurrence (clock e) (Birthday.value b) = Some occ
    /\ in_window (clock e) occ = true
    /\ x = AddressBook.mkentry (fst item)
             (strftime (libc_year e) (congratulation occ) (read_format DATE_FORMAT)).
Proof.
  unfold emitted. destruct (Record.birthday (snd item)) as [b|]; [|intros []].
  destruct (occurrence (clock e) (Birthday.value b)) as [occ|] eqn:O; [|intros []].
  destruct (in_window (clock e) occ) eqn:W; [|intros []].
  intros [<-|[]]. exists b, occ. auto.
Qed.

(** X10.  Every entry the query returns belongs to a key of the
    directory, and its congratulation date is the text of a date of the
    calendar that is no Saturday and no Sunday, not before the date of the
    clock and at most nine days after it. *)
Theorem upcoming_dates (book : AddressBook.t) (e : env) (out : list AddressBook.entry) :
  AddressBook.get_upcoming_birthdays book e = Ok out ->
  Forall (fun x =>
            exists record c,
              In (AddressBook.name x, record) (AddressBook.data book)
              /\ AddressBook.congratulation_date x
                 = strftime (libc_year e) c (read_format DATE_FORMAT)
              /\ valid c = true
              /\ weekday c <= 4
              /\ 0 <= toordinal c - toordinal (clock e) <= 9)
         out.
Proof.
  intros H. apply query_returns in H. subst out. apply Forall_forall. intros x I.
  apply in_flat_map in I. destruct I as ([name record] & I & X).
  apply emitted_entry in X. destruct X as (b & occ & B & O & W & ->).
  pose proof (occurrence_valid _ _ _ O) as V.
  destruct (congratulation_weekday occ V) as (Vc & Wc & Oc).
  unfold in_window, delta in W. apply andb_true_iff in W. rewrite !Z.leb_le in W.
  exists record, (congratulation occ). cbn [AddressBook.name AddressBook.congratulation_date fst].
  repeat split; try assumption; lia.
Qed.

Lemma upcoming_dates_witness :
  let zed := run [call_add_birthday (str "25.05.1990")] (Record.__init__ (str "Zed")) in
  let book := after (AddressBook.add_record zed AddressBook.__init__) in
  let e := mkenv (mkdate 2024 5 18) 0 year_padded in
  Forall (fun x =>
            exists record c,
              In (AddressBook.name x, record) (AddressBook.data book)
              /\ AddressBook.congratulation_date x
                 = strftime (libc_year e) c (read_format DATE_FORMAT)
              /\ valid c = true
              /\ weekday c <= 4
              /\ 0 <= toordinal c - toordinal (clock e) <= 9)
         [AddressBook.mkentry (str "Zed") (str "27.05.2024")].
Proof.
  cbv zeta.
  exact (upcoming_dates
           (after (AddressBook.add_record
                     (run [call_add_birthday (str "25.05.1990")]
                          (Record.__init__ (str "Zed")))
                     AddressBook.__init__))
           (mkenv (mkdate 2024 5 18) 0 year_padded) _ eq_refl).
Defined.

(** ** When the query raises *)

Lemma in_year_valid (y : Z) (b : date) :
  valid b = true -> 1 <= y <= 9999 ->
  valid (in_year y b) = negb ((month b =? 2) && (day b =? 29) && negb (_is_leap y)).
Proof.
  intros V Y. apply valid_iff in V. destruct V as (_ & Hm & Hd).
  apply eq_true_iff_eq. rewrite valid_iff. unfold in_year. cbn [year month day].
  rewrite negb_true_iff.
  unfold _days_in_month in *.
  destruct (_is_leap y); destruct (_is_leap (year b));
    destruct (month_cases _ Hm) as [E|[E|[E|[E|[E|[E|[E|[E|[E|[E|[E|E]]]]]]]]]]];
    rewrite E in *; cbn [Z.eqb Pos.eqb andb negb] in *;
    repeat match goal with
           | H : context [index ?l ?m] |- _ =>
               let v := eval vm_compute in (index l m) in change (index l m) with v in H
           | |- context [index ?l ?m] =>
               let v := eval vm_compute in (index l m) in change (index l m) with v
           end;
    try (split; [reflexivity | intros _; lia]);
    try (rewrite ?andb_false_r; split; [reflexivity | intros _; lia]).
  all: destruct (day b =? 29) eqn:D; rewrite ?Z.eqb_eq, ?Z.eqb_neq in D;
    cbn [andb negb]; split; try reflexivity; try discriminate; intros; lia.
Qed.

Lemma occurrence_none (today b : date) :
  valid today = true -> valid b = true ->
  (occurrence today b = None <-> lacks_occurrence today b = true).
Proof.
  intros VT VB. pose proof VT as VT'. apply valid_iff in VT'. destruct VT' as (Hy & _ & _).
  assert (VN : valid (in_year (year today + 1) b)
               = if year today =? 9999 then false
                 else negb ((month b =? 2) && (day b =? 29)
                            && negb (_is_leap (year today + 1)))).
  { destruct (year today =? 9999) eqn:E.
    - apply Z.eqb_eq in E. destruct (valid (in_year (year today + 1) b)) eqn:V; [|reflexivity].
      apply valid_iff in V. cbn [in_year year] in V. lia.
    - apply Z.eqb_neq in E. apply in_year_valid; [exact VB|lia]. }
  unfold occurrence, lacks_occurrence, MAXYEAR. cbv zeta.
  rewrite (in_year_valid (year today) b VB Hy), VN.
  destruct ((month b =? 2) && (day b =? 29));
    destruct (_is_leap (year today)) eqn:L1;
    try rewrite (leap_years_apart _ L1);
    destruct (lt (in_year (year today) b) today);
    destruct (year today =? 9999);
    try destruct (_is_leap (year today + 1));
    cbn; split; intros H; try reflexivity; try discriminate.
Qed.

Lemma projectable_raising (today : date) (item : pystr * Record.t) :
  valid today = true ->
  (forall b, Record.birthday (snd item) = Some b -> valid (Birthday.value b) = true) ->
  projectable today item = negb (raising today item).
Proof.
  intros VT VB. unfold projectable, raising.
  destruct (Record.birthday (snd item)) as [b|]; [|reflexivity].
  specialize (VB b eq_refl). pose proof (occurrence_none today _ VT VB) as O.
  destruct (occurrence today (Birthday.value b));
    destruct (lacks_occurrence today (Birthday.value b)); try reflexivity.
  - destruct O as [_ O]. discriminate (O eq_refl).
  - destruct O as [O _]. discriminate (O eq_refl).
Qed.

(** X11.  With a valid clock date and valid birthdays, the query
    returns when no birthday lacks its occurrence and raises [ValueError] when
    one does.  A birthday lacks it when it is 29 February and the year of the
    clock is no leap year or the day is past, or when the year of the clock is
    9999 and the day is past.  Before 9999 a directory without a birthday on
    29 February is always answered. *)
Theorem query_raises_exactly (book : AddressBook.t) (e : env) :
  valid (clock e) = true -> valid_birthdays book ->
  (existsb (raising (clock e)) (AddressBook.data book) = false ->
   exists out, AddressBook.get_upcoming_birthdays book e = Ok out)
  /\ (existsb (raising (clock e)) (AddressBook.data book) = true ->
      exists msg, AddressBook.get_upcoming_birthdays book e = Raise (ValueError msg))
  /\ (year (clock e) < 9999 ->
      (forall name record b,
          In (name, record) (AddressBook.data book) ->
          Record.birthday record = Some b ->
          ~ (month (Birthday.value b) = 2 /\ day (Birthday.value b) = 29)) ->
      exists out, AddressBook.get_upcoming_birthdays book e = Ok out).
Proof.
  intros VT VB. rewrite get_upcoming_birthdays_eq.
  assert (P : forallb (projectable (clock e)) (AddressBook.data book)
              = negb (existsb (raising (clock e)) (AddressBook.data book))).
  { unfold valid_birthdays in VB. induction (AddressBook.data book) as [|item items IH];
      [reflexivity|].
    inversion VB as [|? ? V1 V2]. subst. cbn [forallb existsb].
    rewrite (projectable_raising _ item VT V1), IH by exact V2.
    destruct (raising (clock e) item); reflexivity. }
  assert (A : existsb (raising (clock e)) (AddressBook.data book) = false ->
              exists out, AddressBook.loop e (clock e) (AddressBook.data book) [] = Ok out).
  { intros R. rewrite R in P. eexists. apply loop_projectable. exact P. }
  split; [exact A|]. split.
  - intros R. rewrite R in P. apply loop_not_projectable. exact P.
  - intros Y N. apply A. destruct (existsb _ _) eqn:R; [|reflexivity].
    exfalso. apply existsb_exists in R. destruct R as ([name record] & I & R).
    unfold raising in R. cbn [snd] in R.
    destruct (Record.birthday record) as [b|] eqn:B; [|discriminate].
    unfold lacks_occurrence, MAXYEAR in R. cbv zeta in R.
    replace (year (clock e) =? 9999) with false in R by (symmetry; apply Z.eqb_neq; lia).
    rewrite orb_false_r in R. rewrite !andb_true_iff, !Z.eqb_eq in R.
    apply (N name record b I B). tauto.
Qed.

Lemma query_raises_exactly_witness :
  let ann := run [call_add_birthday (str "28.02.2000")] (Record.__init__ (str "Ann")) in
  let book := after (AddressBook.add_record ann AddressBook.__init__) in
  exists out,
    AddressBook.get_upcoming_birthdays book (mkenv (mkdate 2023 2 25) 0 year_padded) = Ok out.
Proof.
  cbv zeta.
  refine (proj1 (query_raises_exactly
                   (after (AddressBook.add_record
                             (run [call_add_birthday (str "28.02.2000")]
                                  (Record.__init__ (str "Ann")))
                             AddressBook.__init__))
                   (mkenv (mkdate 2023 2 25) 0 year_padded) eq_refl _) eq_refl).
  repeat constructor. intros b H. inversion H. reflexivity.
Defined.

(** Choosing among the items of a directory keeps its keys distinct. *)
Lemma chosen_keys_distinct {V : Type} (keep : pystr * V -> bool) (items : dict.t V) :
  NoDup (dict.keys items) -> NoDup (dict.keys (filter keep items)).
Proof.
  unfold dict.keys. intros U. induction items as [|item items IH]; cbn [filter map] in *.
  - exact U.
  - apply NoDup_cons_iff in U. destruct U as [Fresh U].
    destruct (keep item); cbn [map]; [|exact (IH U)].
    apply NoDup_cons; [|exact (IH U)].
    intros Again. apply Fresh.
    apply in_map_iff in Again. destruct Again as (x & E & I).
    apply filter_In in I. rewrite <- E. apply in_map. exact (proj1 I).
Qed.

(** X12.  With distinct keys no name comes twice in what the query
    returns, and the query returns no more entries than the directory has
    records. *)
Theorem upcoming_names_distinct (book : AddressBook.t) (e : env)
  (out : list AddressBook.entry) :
  NoDup (dict.keys (AddressBook.data book)) ->
  AddressBook.get_upcoming_birthdays book e = Ok out ->
  NoDup (map AddressBook.name out)
  /\ (List.length out <= List.length (AddressBook.data book))%nat.
Proof.
  intros U H. apply query_returns in H. subst out. rewrite emitted_names. split.
  - apply chosen_keys_distinct. exact U.
  - rewrite <- (length_map AddressBook.name), emitted_names, length_map.
    apply filter_length_le.
Qed.

(** Two contacts, both due: Zed on a Saturday, Ann today. *)
Lemma upcoming_names_distinct_witness :
  NoDup (map AddressBook.name
           [AddressBook.mkentry (str "Zed") (str "20.05.2024");
            AddressBook.mkentry (str "Ann") (str "17.05.2024")])
  /\ (2 <= 2)%nat.
Proof.
  refine (upcoming_names_distinct
            (after (AddressBook.add_record
                      (run [call_add_birthday (str "17.05.1985")]
                           (Record.__init__ (str "Ann")))
                      (after (AddressBook.add_record
                                (run [call_add_birthday (str "18.05.1990")]
                                     (Record.__init__ (str "Zed")))
                                AddressBook.__init__))))
            (mkenv (mkdate 2024 5 17) 0 year_padded)
            [AddressBook.mkentry (str "Zed") (str "20.05.2024");
             AddressBook.mkentry (str "Ann") (str "17.05.2024")] _ eq_refl).
  repeat constructor; simpl; intuition discriminate.
Defined.

End MoreQuery.

(** * The command handlers *)

Section Handlers.

Lemma dict_setitem_same {V : Type} (k : pystr) (v : V) (d : dict.t V) :
  dict.get k d = Some v -> dict.setitem k v d = d.
Proof.
  induction d as [|[k' v'] d IH]; simpl; [discriminate|].
  destruct (pystr_eqb k' k) eqn:E.
  - intros H. inversion H. reflexivity.
  - intros H. rewrite IH by exact H. reflexivity.
Qed.

Lemma dict_setitem_setitem {V : Type} (k : pystr) (v v' : V) (d : dict.t V) :
  dict.setitem k v' (dict.setitem k v d) = dict.setitem k v' d.
Proof.
  induction d as [|[k0 v0] d IH]; simpl.
  - rewrite pystr_eqb_refl. reflexivity.
  - destruct (pystr_eqb k0 k) eqn:E; simpl; rewrite E; [reflexivity|].
    rewrite IH. reflexivity.
Qed.

Lemma store_same (name : pystr) (record : Record.t) (book : AddressBook.t) :
  AddressBook.find book name = Some record -> store name record book = book.
Proof.
  intros H. unfold store. rewrite dict_setitem_same by exact H. destruct book; reflexivity.
Qed.

Lemma store_store (name : pystr) (r r' : Record.t) (book : AddressBook.t) :
  store name r' (store name r book) = store name r' book.
Proof. unfold store. cbn [AddressBook.data]. rewrite dict_setitem_setitem. reflexivity. Qed.

Lemma find_store (name : pystr) (r : Record.t) (book : AddressBook.t) :
  AddressBook.find (store name r book) name = Some r.
Proof. apply dict_get_setitem_same. Qed.

Lemma find_store_other (name other : pystr) (r : Record.t) (book : AddressBook.t) :
  other <> name -> AddressBook.find (store name r book) other = AddressBook.find book other.
Proof. intros N. apply dict_get_setitem_other. exact N. Qed.

Lemma on_record_eq {A : Type} (name : pystr) (record : Record.t) (m : M Record.t A)
  (book : AddressBook.t) :
  on_record name record m book
  = (match outcome (m record) with
     | Ok a => Returns a
     | Raise x => Raises (Exn x)
     end, store name (after (m record)) book).
Proof.
  unfold on_record, outcome, after, store. destruct (m record) as [[a|x] r']; reflexivity.
Qed.

(** [add_contact] in one equation. *)
Lemma add_contact_eq (args : list pystr) (book : AddressBook.t) :
  add_contact args book =
  match args with
  | [] => (Returns (str "Error: Please provide at least a name."), book)
  | name :: rest =>
      let record :=
        match AddressBook.find book name with
        | Some record => record
        | None => Record.__init__ name
        end in
      let known :=
        match AddressBook.find book name with Some _ => true | None => false end in
      match rest with
      | (c :: cs) :: _ =>
          let phone := c :: cs in
          (match outcome (Record.add_phone phone record) with
           | Ok _ =>
               Returns (if known
                        then str "Phone " ++ phone ++ str " added to contact '"
                             ++ name ++ str "'."
                        else str "Contact '" ++ name ++ str "' created with phone "
                             ++ phone ++ str ".")
           | Raise (ValueError msg) => Returns msg
           | Raise x => Raises (Exn x)
           end,
           store name (after (Record.add_phone phone record)) book)
      | _ =>
          if known
          then (Returns (str "Contact '" ++ name ++ str "' already exists."), book)
          else (Returns (str "Contact '" ++ name ++ str "' created without phone."),
                store name record book)
      end
  end.
Proof.
  unfold add_contact, input_error, func.add_contact.
  destruct args as [|name rest]; [reflexivity|].
  cbv zeta.
  destruct (AddressBook.find book name) as [record|] eqn:F.
  - destruct rest as [|[|c cs] rest]; try reflexivity.
    unfold hbind. rewrite on_record_eq.
    destruct (outcome (Record.add_phone (c :: cs) record)) as [[]|[msg|msg|msg]]; reflexivity.
  - unfold hbind, of_book. rewrite add_record_eq. cbn [Record.__init__ Record.name Name.value Name.__init__].
    fold (store name (Record.__init__ name) book).
    destruct rest as [|[|c cs] rest]; try reflexivity.
    rewrite on_record_eq, store_store.
    destruct (outcome (Record.add_phone (c :: cs) (Record.__init__ name)))
      as [[]|[msg|msg|msg]]; reflexivity.
Qed.

Lemma add_phone_outcome (record : Record.t) (phone : pystr) :
  (In phone (phone_values record) ->
   Record.add_phone phone record = (Raise already_added, record))
  /\ (~ In phone (phone_values record) ->
      forall x, Phone.__init__ phone = Raise x ->
                Record.add_phone phone record = (Raise x, record))
  /\ (~ In phone (phone_values record) ->
      Phone.__init__ phone = Ok (Phone.mk phone) ->
      Record.add_phone phone record
      = (Ok tt, with_phones record (Record.phones record ++ [Phone.mk phone]))).
Proof.
  rewrite add_phone_eq. split; [|split].
  - intros I. apply find_phone_some in I. destruct I as [p ->]. reflexivity.
  - intros N x E. apply find_phone_none in N. rewrite N.
    apply Phone_init_validate in E. rewrite E. reflexivity.
  - intros N E. apply find_phone_none in N. rewrite N. rewrite Phone_init_eq in E.
    destruct (Phone._validate_phone phone); [reflexivity|discriminate].
Qed.

(** X15.  [add_contact] with a name and a phone.  For a new name the
    contact is stored at the end of the directory before the phone is
    checked: with a phone that is not valid the validation message is
    returned and the contact stays, without a phone.  For a known name a
    phone already there or not valid gives the message and no change, and a
    new valid phone is appended to the contact's phones. *)
Theorem add_contact_contract (book : AddressBook.t) (name : pystr) (c : char) (cs : pystr)
  (rest : list pystr) :
  let phone := c :: cs in
  let args := name :: phone :: rest in
  (AddressBook.find book name = None ->
   (forall msg, Phone.__init__ phone = Raise (ValueError msg) ->
                add_contact args book = (Returns msg, store name (Record.__init__ name) book))
   /\ (Phone.__init__ phone = Ok (Phone.mk phone) ->
       add_contact args book
       = (Returns (str "Contact '" ++ name ++ str "' created with phone " ++ phone ++ str "."),
          store name (with_phones (Record.__init__ name) [Phone.mk phone]) book))
   /\ dict.keys (AddressBook.data (snd (add_contact args book)))
      = dict.keys (AddressBook.data book) ++ [name])
  /\ (forall record, AddressBook.find book name = Some record ->
      (In phone (phone_values record) ->
       add_contact args book = (Returns (str "This phone is already added."), book))
      /\ (~ In phone (phone_values record) ->
          forall msg, Phone.__init__ phone = Raise (ValueError msg) ->
                      add_contact args book = (Returns msg, book))
      /\ (~ In phone (phone_values record) ->
          Phone.__init__ phone = Ok (Phone.mk phone) ->
          add_contact args book
          = (Returns (str "Phone " ++ phone ++ str " added to contact '" ++ name ++ str "'."),
             store name (with_phones record (Record.phones record ++ [Phone.mk phone])) book))).
Proof.
  cbv zeta. rewrite add_contact_eq. cbv zeta. split.
  - intros F. rewrite F.
    destruct (add_phone_outcome (Record.__init__ name) (c :: cs)) as (_ & B & C).
    split; [|split].
    + intros msg E. rewrite (B (fun H => H) _ E). reflexivity.
    + intros E. rewrite (C (fun H => H) E). reflexivity.
    + cbn [snd]. unfold store. cbn [AddressBook.data].
      apply dict_keys_setitem_absent. unfold dict.contains.
      unfold AddressBook.find in F. rewrite F. reflexivity.
  - intros record F. rewrite F.
    destruct (add_phone_outcome record (c :: cs)) as (A & B & C).
    split; [|split].
    + intros I. rewrite (A I). unfold outcome, after. cbn [fst snd].
      rewrite store_same by exact F. reflexivity.
    + intros N msg E. rewrite (B N _ E). unfold outcome, after. cbn [fst snd].
      rewrite store_same by exact F. reflexivity.
    + intros N E. rewrite (C N E). reflexivity.
Qed.

(** [change_contact] in one equation. *)
Lemma change_contact_eq (args : list pystr) (book : AddressBook.t) :
  change_contact args book =
  match args with
  | name :: old_phone :: new_phone :: _ =>
      match AddressBook.find book name with
      | None => (Returns (str "Error: Contact '" ++ name ++ str "' not found."), book)
      | Some record =>
          (match outcome (Record.edit_phone old_phone new_phone record) with
           | Ok true => Returns (str "Contact updated.")
           | Ok false => Returns (str "Error: Phone '" ++ old_phone ++ str "' not found.")
           | Raise (ValueError msg) => Returns msg
           | Raise x => Raises (Exn x)
           end,
           store name (after (Record.edit_phone old_phone new_phone record)) book)
      end
  | _ =>
      (Returns (str "not enough values to unpack (expected at least 3, got "
                ++ int_str (len args) ++ str ")"), book)
  end.
Proof.
  unfold change_contact, input_error, func.change_contact.
  destruct args as [|name [|old_phone [|new_phone rest]]]; try reflexivity.
  destruct (AddressBook.find book name) as [record|]; [|reflexivity].
  unfold hbind. rewrite on_record_eq.
  destruct (outcome (Record.edit_phone old_phone new_phone record))
    as [[|]|[msg|msg|msg]]; reflexivity.
Qed.

(** X16.  [change_contact] with three arguments.  An unknown name
    and an old phone that the contact does not have give a message and no
    change, whatever the new phone is.  With the old phone there, a new phone
    that is not valid gives the validation message and no change, and a valid
    one takes the place of the first phone with the old value. *)
Theorem change_contact_contract (book : AddressBook.t) (name old_phone new_phone : pystr)
  (rest : list pystr) :
  let args := name :: old_phone :: new_phone :: rest in
  (AddressBook.find book name = None ->
   change_contact args book
   = (Returns (str "Error: Contact '" ++ name ++ str "' not found."), book))
  /\ (forall record, AddressBook.find book name = Some record ->
      (~ In old_phone (phone_values record) ->
       change_contact args book
       = (Returns (str "Error: Phone '" ++ old_phone ++ str "' not found."), book))
      /\ (In old_phone (phone_values record) ->
          forall msg, Phone.__init__ new_phone = Raise (ValueError msg) ->
                      change_contact args book = (Returns msg, book))
      /\ (forall index,
             first_index (Record.has_value old_phone) (Record.phones record) = Some index ->
             Phone.__init__ new_phone = Ok (Phone.mk new_phone) ->
             change_contact args book
             = (Returns (str "Contact updated."),
                store name
                  (with_phones record
                     (setindex index (Phone.mk new_phone) (Record.phones record)))
                  book))).
Proof.
  cbv zeta. rewrite change_contact_eq. split.
  - intros ->. reflexivity.
  - intros record F. rewrite F. rewrite edit_phone_eq. split; [|split].
    + intros N.
      destruct (first_index (Record.has_value old_phone) (Record.phones record)) eqn:E.
      * exfalso. apply N. apply first_index_in. eauto.
      * unfold outcome, after. cbn [fst snd]. rewrite store_same by exact F. reflexivity.
    + intros I msg E. apply first_index_in in I. destruct I as [i ->].
      apply Phone_init_validate in E. rewrite E. unfold outcome, after. cbn [fst snd].
      rewrite store_same by exact F. reflexivity.
    + intros index E V. rewrite E. rewrite Phone_init_eq in V.
      destruct (Phone._validate_phone new_phone); [reflexivity|discriminate].
Qed.

(** [add_birthday] in one equation. *)
Lemma add_birthday_handler_eq (args : list pystr) (book : AddressBook.t) :
  add_birthday args book =
  match args with
  | name :: birthday :: _ =>
      let record :=
        match AddressBook.find book name with
        | Some record => record
        | None => Record.__init__ name
        end in
      (match Birthday.__init__ birthday with
       | Ok _ =>
           Returns (match AddressBook.find book name with
                    | Some _ => str "Birthday " ++ birthday ++ str " added to contact '"
                                ++ name ++ str "'."
                    | None => str "Contact '" ++ name ++ str "' created with birthday "
                              ++ birthday ++ str "."
                    end)
       | Raise (ValueError msg) => Returns msg
       | Raise x => Raises (Exn x)
       end,
       store name (match Birthday.__init__ birthday with
                   | Ok b => with_birthday record b
                   | Raise _ => record
                   end) book)
  | _ =>
      (Returns (str "not enough values to unpack (expected at least 2, got "
                ++ int_str (len args) ++ str ")"), book)
  end.
Proof.
  unfold add_birthday, input_error, func.add_birthday.
  destruct args as [|name [|birthday rest]]; try reflexivity.
  cbv zeta. destruct (AddressBook.find book name) as [record|] eqn:F.
  - unfold hbind. rewrite on_record_eq, add_birthday_eq.
    destruct (Birthday.__init__ birthday) as [b|[msg|msg|msg]]; reflexivity.
  - unfold hbind, of_book. rewrite add_record_eq.
    cbn [Record.__init__ Record.name Name.value Name.__init__].
    fold (store name (Record.__init__ name) book).
    rewrite on_record_eq, store_store, add_birthday_eq.
    destruct (Birthday.__init__ birthday) as [b|[msg|msg|msg]]; reflexivity.
Qed.

Lemma Birthday_init_cases (s : pystr) :
  (exists b, Birthday.__init__ s = Ok b) \/ Birthday.__init__ s = Raise invalid_date_format.
Proof.
  rewrite Birthday_init_parsed. destruct (parsed s) as [d|]; [|auto].
  destruct (datetime.valid d); eauto.
Qed.

(** X17.  [add_birthday] with a name and a date.  For a new name the
    contact is stored before the date is parsed: with a date that is not
    accepted the message of [Birthday] is returned and the contact stays,
    without a birthday.  For a known name a date that is not accepted changes
    nothing, and an accepted one replaces the birthday.  The handler always
    returns text. *)
Theorem add_birthday_contract (book : AddressBook.t) (name birthday : pystr)
  (rest : list pystr) :
  let args := name :: birthday :: rest in
  (AddressBook.find book name = None ->
   (Birthday.__init__ birthday = Raise invalid_date_format ->
    add_birthday args book
    = (Returns (str "Invalid date format. Use %d.%m.%Y"),
       store name (Record.__init__ name) book))
   /\ (forall b, Birthday.__init__ birthday = Ok b ->
         add_birthday args book
         = (Returns (str "Contact '" ++ name ++ str "' created with birthday "
                     ++ birthday ++ str "."),
            store name (with_birthday (Record.__init__ name) b) book)))
  /\ (forall record, AddressBook.find book name = Some record ->
      (Birthday.__init__ birthday = Raise invalid_date_format ->
       add_birthday args book = (Returns (str "Invalid date format. Use %d.%m.%Y"), book))
      /\ (forall b, Birthday.__init__ birthday = Ok b ->
            add_birthday args book
            = (Returns (str "Birthday " ++ birthday ++ str " added to contact '"
                        ++ name ++ str "'."),
               store name (with_birthday record b) book)))
  /\ (exists text, fst (add_birthday args book) = Returns text).
Proof.
  cbv zeta. rewrite add_birthday_handler_eq. cbv zeta. split; [|split].
  - intros F. rewrite F. split.
    + intros E. rewrite E. reflexivity.
    + intros b E. rewrite E. reflexivity.
  - intros record F. rewrite F. split.
    + intros E. rewrite E. rewrite store_same by exact F. reflexivity.
    + intros b E. rewrite E. reflexivity.
  - destruct (Birthday_init_cases birthday) as [[b E]|E]; rewrite E;
      unfold invalid_date_format; cbn [fst]; eexists; reflexivity.
Qed.

End Handlers.

Section Handlers2.

(** ** The read-only handlers *)

Lemma show_phone_eq (args : list pystr) (book : AddressBook.t) :
  show_phone args book =
  (Returns
     match args with
     | [] => str "Enter the argument for the command."
     | name :: _ =>
         match AddressBook.find book name with
         | Some record =>
             match Record.phones record with
             | _ :: _ => str "Phones of " ++ name ++ str ": " ++ phones_text record
             | [] => str "Contact '" ++ name ++ str "' has no phones."
             end
         | None => str "Error: Contact '" ++ name ++ str "' not found."
         end
     end, book).
Proof.
  unfold show_phone, input_error, func.show_phone.
  destruct args as [|name rest]; [reflexivity|].
  destruct (AddressBook.find book name) as [record|]; [|reflexivity].
  destruct (Record.phones record); reflexivity.
Qed.

Lemma show_birthday_eq (e : env) (args : list pystr) (book : AddressBook.t) :
  show_birthday e args book =
  (Returns
     match args with
     | [] => str "not enough values to unpack (expected at least 1, got 0)"
     | name :: _ =>
         match AddressBook.find book name with
         | Some record =>
             match Record.birthday record with
             | Some b =>
                 str "Birthday of " ++ name ++ str " is "
                 ++ strftime (libc_year e) (Birthday.value b) (read_format DATE_FORMAT)
             | None => str "Error: Contact '" ++ name ++ str "' has no birthday."
             end
         | None => str "Error: Contact '" ++ name ++ str "' not found."
         end
     end, book).
Proof.
  unfold show_birthday, input_error, func.show_birthday.
  destruct args as [|name rest]; [reflexivity|].
  destruct (AddressBook.find book name) as [record|]; [|reflexivity].
  destruct (Record.birthday record); reflexivity.
Qed.

Lemma show_all_eq (book : AddressBook.t) :
  show_all book =
  (Returns match AddressBook.data book with
           | [] => str "No contacts found."
           | items => join [0x0A%N] (map func.contact_line items)
           end, book).
Proof.
  unfold show_all, input_error, func.show_all, dict.items.
  destruct (AddressBook.data book); reflexivity.
Qed.

Lemma query_cases (book : AddressBook.t) (e : env) :
  (exists out, AddressBook.get_upcoming_birthdays book e = Ok out)
  \/ (exists msg, AddressBook.get_upcoming_birthdays book e = Raise (ValueError msg)).
Proof.
  rewrite get_upcoming_birthdays_eq.
  destruct (forallb (projectable (clock e)) (AddressBook.data book)) eqn:P.
  - left. eexists. apply loop_projectable. exact P.
  - right. apply loop_not_projectable. exact P.
Qed.

Lemma birthdays_eq (e : env) (book : AddressBook.t) :
  birthdays e book =
  (match AddressBook.get_upcoming_birthdays book e with
   | Ok [] => Returns (str "No upcoming birthdays.")
   | Ok upcoming =>
       Returns (join [0x0A%N] (str "Upcoming birthdays:" :: map func.birthday_line upcoming))
   | Raise (ValueError msg) => Returns msg
   | Raise x => Raises (Exn x)
   end, book).
Proof.
  unfold birthdays, input_error, func.birthdays.
  destruct (AddressBook.get_upcoming_birthdays book e) as [[|x l]|[msg|msg|msg]]; reflexivity.
Qed.

(** ** No handler raises *)

Lemma add_phone_raises_value_error (record : Record.t) (phone : pystr) :
  (exists a, outcome (Record.add_phone phone record) = Ok a)
  \/ (exists msg, outcome (Record.add_phone phone record) = Raise (ValueError msg)).
Proof.
  rewrite add_phone_eq. destruct (Record.find_phone record phone); [right; eexists; reflexivity|].
  destruct (validate_phone_raises phone) as [->|[msg ->]]; [left|right]; eexists; reflexivity.
Qed.

Lemma edit_phone_raises_value_error (record : Record.t) (old new : pystr) :
  (exists a, outcome (Record.edit_phone old new record) = Ok a)
  \/ (exists msg, outcome (Record.edit_phone old new record) = Raise (ValueError msg)).
Proof.
  rewrite edit_phone_eq. destruct (first_index _ _); [|left; eexists; reflexivity].
  destruct (validate_phone_raises new) as [->|[msg ->]]; [left|right]; eexists; reflexivity.
Qed.

Lemma add_contact_returns (args : list pystr) (book : AddressBook.t) :
  exists text, fst (add_contact args book) = Returns text.
Proof.
  rewrite add_contact_eq. destruct args as [|name rest]; [eexists; reflexivity|].
  cbv zeta. destruct rest as [|[|c cs] rest].
  - destruct (AddressBook.find book name); eexists; reflexivity.
  - destruct (AddressBook.find book name); eexists; reflexivity.
  - cbn [fst].
    match goal with |- context [Record.add_phone ?p ?r] =>
      destruct (add_phone_raises_value_error r p) as [[a ->]|[msg ->]] end;
      eexists; reflexivity.
Qed.

Lemma change_contact_returns (args : list pystr) (book : AddressBook.t) :
  exists text, fst (change_contact args book) = Returns text.
Proof.
  rewrite change_contact_eq.
  destruct args as [|name [|old [|new rest]]]; try (eexists; reflexivity).
  destruct (AddressBook.find book name) as [record|]; [|eexists; reflexivity].
  cbn [fst].
  destruct (edit_phone_raises_value_error record old new) as [[[|] ->]|[msg ->]];
    eexists; reflexivity.
Qed.

Lemma add_birthday_returns (args : list pystr) (book : AddressBook.t) :
  exists text, fst (add_birthday args book) = Returns text.
Proof.
  rewrite add_birthday_handler_eq.
  destruct args as [|name [|birthday rest]]; try (eexists; reflexivity).
  cbv zeta. cbn [fst].
  destruct (Birthday_init_cases birthday) as [[b E]|E]; rewrite E;
    unfold invalid_date_format; eexists; reflexivity.
Qed.

Lemma birthdays_returns (e : env) (book : AddressBook.t) :
  exists text, fst (birthdays e book) = Returns text.
Proof.
  rewrite birthdays_eq.
  destruct (query_cases book e) as [[[|x l] ->]|[msg ->]]; eexists; reflexivity.
Qed.

(** The handlers of the table, one by one. *)
Lemma commands_cases (e : env) (command : pystr) (handler : list pystr -> H pystr) :
  dict.get command (commands e) = Some handler ->
  handler = add_contact \/ handler = change_contact \/ handler = show_phone
  \/ handler = (fun _ => show_all) \/ handler = add_birthday
  \/ handler = show_birthday e \/ handler = (fun _ => birthdays e).
Proof.
  unfold commands. cbn [dict.get].
  repeat match goal with
         | |- context [if ?b then _ else _] => destruct b
         end;
    intros H; inversion H; tauto.
Qed.

(** X14.  No handler of the table [commands] raises: for every
    arguments, directory and clock each returns text.  ([input_error] does
    not catch [OverflowError] or [TypeError]; none is raised.) *)
Theorem handlers_return_text (e : env) (command : pystr)
  (handler : list pystr -> H pystr) (args : list pystr) (book : AddressBook.t) :
  dict.get command (commands e) = Some handler ->
  exists text, fst (handler args book) = Returns text.
Proof.
  intros G. destruct (commands_cases e command handler G)
    as [->|[->|[->|[->|[->|[->| ->]]]]]].
  - apply add_contact_returns.
  - apply change_contact_returns.
  - rewrite show_phone_eq. eexists. reflexivity.
  - rewrite show_all_eq. eexists. reflexivity.
  - apply add_birthday_returns.
  - rewrite show_birthday_eq. eexists. reflexivity.
  - apply birthdays_returns.
Qed.

Lemma handlers_return_text_witness :
  exists text,
    fst (birthdays (mkenv (datetime.mkdate 2023 5 17) 0 year_padded)
           (store (str "Bob")
                  (run [call_add_birthday (str "29.02.2000")] (Record.__init__ (str "Bob")))
                  AddressBook.__init__))
    = Returns text.
Proof.
  exact (handlers_return_text (mkenv (datetime.mkdate 2023 5 17) 0 year_padded)
           (str "birthdays") _ [] _ eq_refl).
Defined.

End Handlers2.

Section Handlers3.

(** ** The invariants of a session *)

Lemma dict_get_in {V : Type} (k : pystr) (v : V) (d : dict.t V) :
  dict.get k d = Some v -> In (k, v) d.
Proof.
  induction d as [|[k' v'] d IH]; simpl; [discriminate|].
  destruct (pystr_eqb k' k) eqn:E.
  - apply pystr_eqb_eq in E. intros H. inversion H. subst. left. reflexivity.
  - intros H. right. apply IH. exact H.
Qed.

Lemma Forall_setitem {V : Type} (P : pystr * V -> Prop) (k : pystr) (v : V) (d : dict.t V) :
  Forall P d -> P (k, v) -> Forall P (dict.setitem k v d).
Proof.
  intros F Pk. induction d as [|[k' v'] d IH]; simpl.
  - constructor; [exact Pk|constructor].
  - inversion F as [|? ? P1 P2]. subst. destruct (pystr_eqb k' k) eqn:E.
    + apply pystr_eqb_eq in E. subst k'. constructor; assumption.
    + constructor; [exact P1|]. apply IH. exact P2.
Qed.

Lemma NoDup_keys_setitem {V : Type} (k : pystr) (v : V) (d : dict.t V) :
  NoDup (dict.keys d) -> NoDup (dict.keys (dict.setitem k v d)).
Proof.
  intros N. destruct (dict.contains k d) eqn:C.
  - rewrite dict_keys_setitem_present by exact C. exact N.
  - rewrite dict_keys_setitem_absent by exact C. apply NoDup_snoc; [exact N|].
    apply dict_get_none. unfold dict.contains in C.
    destruct (dict.get k d); [discriminate|reflexivity].
Qed.

Lemma store_invariant (name : pystr) (r : Record.t) (book : AddressBook.t) :
  book_invariant book -> record_invariant name r -> book_invariant (store name r book).
Proof.
  intros [U F] R. split.
  - apply NoDup_keys_setitem. exact U.
  - apply Forall_setitem; assumption.
Qed.

Lemma run_invariant (name0 : pystr) (ops : list op) (self : Record.t) :
  record_invariant name0 self -> record_invariant name0 (run ops self).
Proof.
  revert self. induction ops as [|o ops IH]; intros self I; [exact I|].
  simpl. apply IH. apply step_invariant. exact I.
Qed.

Lemma fresh_invariant (name : pystr) : record_invariant name (Record.__init__ name).
Proof. split; [reflexivity|]. split; [constructor|]. intros b H. discriminate. Qed.

Lemma found_invariant (book : AddressBook.t) (name : pystr) (record : Record.t) :
  book_invariant book -> AddressBook.find book name = Some record ->
  record_invariant name record.
Proof.
  intros [_ F] G. apply dict_get_in in G. rewrite Forall_forall in F.
  exact (F (name, record) G).
Qed.

(** The record a handler works on: the one found, or a fresh one. *)
Lemma subject_invariant (book : AddressBook.t) (name : pystr) :
  book_invariant book ->
  record_invariant name match AddressBook.find book name with
                        | Some record => record
                        | None => Record.__init__ name
                        end.
Proof.
  intros I. destruct (AddressBook.find book name) as [record|] eqn:F.
  - exact (found_invariant book name record I F).
  - apply fresh_invariant.
Qed.

Lemma add_contact_invariant (args : list pystr) (book : AddressBook.t) :
  book_invariant book -> book_invariant (snd (add_contact args book)).
Proof.
  intros I. rewrite add_contact_eq. destruct args as [|name rest]; [exact I|].
  cbv zeta. pose proof (subject_invariant book name I) as S.
  destruct rest as [|[|c cs] rest]; cbn [snd].
  - destruct (AddressBook.find book name); [exact I|]. apply store_invariant; assumption.
  - destruct (AddressBook.find book name); [exact I|]. apply store_invariant; assumption.
  - apply store_invariant; [exact I|].
    exact (step_invariant name (call_add_phone (c :: cs)) _ S).
Qed.

Lemma change_contact_invariant (args : list pystr) (book : AddressBook.t) :
  book_invariant book -> book_invariant (snd (change_contact args book)).
Proof.
  intros I. rewrite change_contact_eq.
  destruct args as [|name [|old [|new rest]]]; try exact I.
  destruct (AddressBook.find book name) as [record|] eqn:F; [|exact I].
  cbn [snd]. apply store_invariant; [exact I|].
  exact (step_invariant name (call_edit_phone old new) _ (found_invariant _ _ _ I F)).
Qed.

Lemma add_birthday_invariant (args : list pystr) (book : AddressBook.t) :
  book_invariant book -> book_invariant (snd (add_birthday args book)).
Proof.
  intros I. rewrite add_birthday_handler_eq.
  destruct args as [|name [|birthday rest]]; try exact I.
  cbv zeta. cbn [snd]. pose proof (subject_invariant book name I) as S.
  apply store_invariant; [exact I|].
  pose proof (step_invariant name (call_add_birthday birthday) _ S) as T.
  cbn [step] in T. rewrite add_birthday_eq in T.
  destruct (Birthday.__init__ birthday); exact T.
Qed.

(** X18.  In every directory of a session the keys are distinct, and
    the record found under a name has that name, phones of exactly ten digits
    each, and a birthday that is a date of the calendar. *)
Theorem session_invariants (e : env) (book : AddressBook.t) :
  served e book ->
  unique_keys book
  /\ (forall name record,
         AddressBook.find book name = Some record ->
         Record.name record = Name.mk name
         /\ Forall (fun p => len (Phone.value p) = 10
                             /\ forallb unicode.isdigit (Phone.value p) = true)
                   (Record.phones record)
         /\ (forall b, Record.birthday record = Some b ->
                       datetime.valid (Birthday.value b) = true))
  /\ valid_birthdays book.
Proof.
  intros S.
  assert (I : book_invariant book).
  { induction S as [|book command handler args S IH G].
    - split; constructor.
    - destruct (commands_cases e command handler G)
        as [->|[->|[->|[->|[->|[->| ->]]]]]].
      + apply add_contact_invariant. exact IH.
      + apply change_contact_invariant. exact IH.
      + rewrite show_phone_eq. exact IH.
      + rewrite show_all_eq. exact IH.
      + apply add_birthday_invariant. exact IH.
      + rewrite show_birthday_eq. exact IH.
      + rewrite birthdays_eq. exact IH. }
  split; [exact (proj1 I)|]. split.
  - intros name record F. exact (found_invariant book name record I F).
  - destruct I as [_ F]. unfold valid_birthdays. rewrite Forall_forall in *.
    intros item In. destruct (F item In) as (_ & _ & B). exact B.
Qed.

Lemma session_invariants_witness :
  let e := mkenv (datetime.mkdate 2024 5 17) 0 year_padded in
  let book := snd (add_birthday [str "Ann"; str "18.05.1990"]
                     (snd (add_contact [str "Ann"; str "1111111111"] AddressBook.__init__))) in
  unique_keys book /\ valid_birthdays book.
Proof.
  cbv zeta.
  pose (e := mkenv (datetime.mkdate 2024 5 17) 0 year_padded).
  assert (S : served e (snd (add_birthday [str "Ann"; str "18.05.1990"]
                               (snd (add_contact [str "Ann"; str "1111111111"]
                                                 AddressBook.__init__))))).
  { apply (served_call e _ (str "add-birthday") add_birthday); [|reflexivity].
    apply (served_call e _ (str "add") add_contact); [|reflexivity].
    apply served_start. }
  destruct (session_invariants e _ S) as (U & _ & V). split; assumption.
Defined.

(** ** What was stored is what is shown *)

Lemma join_snoc (sep : pystr) (parts : list pystr) (p q : pystr) :
  join sep ((p :: parts) ++ [q]) = join sep (p :: parts) ++ sep ++ q.
Proof.
  revert p. induction parts as [|r parts IH]; intros p; [reflexivity|].
  change (join sep ((p :: r :: parts) ++ [q])) with (p ++ sep ++ join sep ((r :: parts) ++ [q])).
  rewrite IH. change (join sep (p :: r :: parts)) with (p ++ sep ++ join sep (r :: parts)).
  rewrite <- !app_assoc. reflexivity.
Qed.

(** X19.  After [add_contact] with a valid phone, [show_phone] of the
    name shows that phone: alone for a new contact, after the phones it had
    for a known contact that has some. *)
Theorem add_contact_then_show_phone (book : AddressBook.t) (name : pystr) (c : char)
  (cs : pystr) :
  let phone := c :: cs in
  Phone.__init__ phone = Ok (Phone.mk phone) ->
  let book' := snd (add_contact [name; phone] book) in
  (AddressBook.find book name = None ->
   show_phone [name] book' = (Returns (str "Phones of " ++ name ++ str ": " ++ phone), book'))
  /\ (forall record p ps,
         AddressBook.find book name = Some record ->
         Record.phones record = p :: ps ->
         ~ In phone (phone_values record) ->
         show_phone [name] book'
         = (Returns (str "Phones of " ++ name ++ str ": "
                     ++ phones_text record ++ str ", " ++ phone), book')).
Proof.
  cbv zeta. intros V. rewrite add_contact_eq. cbv zeta. split.
  - intros F. rewrite F.
    destruct (add_phone_outcome (Record.__init__ name) (c :: cs)) as (_ & _ & E).
    rewrite (E (fun H => H) V). unfold after. cbn [snd].
    rewrite show_phone_eq, find_store. reflexivity.
  - intros record p ps F P N. rewrite F.
    destruct (add_phone_outcome record (c :: cs)) as (_ & _ & E).
    rewrite (E N V). unfold after. cbn [snd]. rewrite show_phone_eq, find_store.
    unfold with_phones, phones_text. cbn [Record.phones]. rewrite P.
    rewrite map_app. cbn [map]. rewrite join_snoc. reflexivity.
Qed.

Lemma add_contact_then_show_phone_witness :
  show_phone [str "Ann"] (snd (add_contact [str "Ann"; str "1111111111"] AddressBook.__init__))
  = (Returns (str "Phones of Ann: 1111111111"),
     snd (add_contact [str "Ann"; str "1111111111"] AddressBook.__init__)).
Proof.
  exact (proj1 (add_contact_then_show_phone AddressBook.__init__ (str "Ann")
                  0x31%N (str "111111111") eq_refl) eq_refl).
Defined.

(** X20.  After [add_birthday] with a date in DD.MM.YYYY form,
    [show_birthday] of the name shows that very text, for a new name as for
    a known one, when the year is 1000 or later or the C library pads it. *)
Theorem add_birthday_then_show_birthday (e : env) (book : AddressBook.t)
  (name birthday : pystr) (d : datetime.date) (rest : list pystr) :
  dd_mm_yyyy birthday = Some d ->
  libc_year e = year_padded \/ 1000 <= datetime.year d ->
  let book' := snd (add_birthday (name :: birthday :: rest) book) in
  show_birthday e [name] book'
  = (Returns (str "Birthday of " ++ name ++ str " is " ++ birthday), book').
Proof.
  intros F Y. cbv zeta. rewrite add_birthday_handler_eq. cbv zeta. cbn [snd].
  assert (E : Birthday.__init__ birthday = Ok (Birthday.mk d)).
  { unfold Birthday.__init__. rewrite (strptime_dd_mm_yyyy _ _ F). reflexivity. }
  rewrite E, show_birthday_eq, find_store. unfold with_birthday.
  cbn [Record.birthday Birthday.value].
  rewrite (strftime_dd_mm_yyyy _ _ _ F Y). reflexivity.
Qed.

Lemma add_birthday_then_show_birthday_witness :
  let e := mkenv (datetime.mkdate 2024 5 17) 0 year_plain in
  let book' := snd (add_birthday [str "Ann"; str "29.02.2000"] AddressBook.__init__) in
  show_birthday e [str "Ann"] book' = (Returns (str "Birthday of Ann is 29.02.2000"), book').
Proof.
  cbv zeta.
  apply (add_birthday_then_show_birthday
           (mkenv (datetime.mkdate 2024 5 17) 0 year_plain) AddressBook.__init__
           (str "Ann") (str "29.02.2000") (datetime.mkdate 2000 2 29) []).
  - reflexivity.
  - right. simpl. lia.
Defined.

(** X21.  What the handlers return when arguments are missing, the
    directory unchanged: [add_contact] its own message, [show_phone] the
    message of the decorator for [IndexError], and [show_birthday],
    [add_birthday] and [change_contact] Python's message of the failed
    unpacking, with the numbers expected and given. *)
Theorem missing_arguments (e : env) (book : AddressBook.t) :
  add_contact [] book = (Returns (str "Error: Please provide at least a name."), book)
  /\ show_phone [] book = (Returns (str "Enter the argument for the command."), book)
  /\ show_birthday e [] book
     = (Returns (str "not enough values to unpack (expected at least 1, got 0)"), book)
  /\ (forall args, len args < 2 ->
        add_birthday args book
        = (Returns (str "not enough values to unpack (expected at least 2, got "
                    ++ int_str (len args) ++ str ")"), book))
  /\ (forall args, len args < 3 ->
        change_contact args book
        = (Returns (str "not enough values to unpack (expected at least 3, got "
                    ++ int_str (len args) ++ str ")"), book)).
Proof.
  split; [reflexivity|]. split; [reflexivity|]. split; [reflexivity|]. split.
  - intros args L. rewrite add_birthday_handler_eq.
    destruct args as [|a [|b rest]]; try reflexivity.
    unfold len in L. simpl in L. lia.
  - intros args L. rewrite change_contact_eq.
    destruct args as [|a [|b [|c rest]]]; try reflexivity.
    unfold len in L. simpl in L. lia.
Qed.

End Handlers3.

(** * What [birthdays] prints when the query raises *)

Section Message.
Import datetime.

Lemma new_message (y m d : Z) :
  1 <= y <= 9999 -> 1 <= m <= 12 ->
  new y m d = Ok (mkdate y m d) \/ new y m d = Raise day_out_of_range.
Proof.
  intros Hy Hm. unfold new, _check_date_fields, MINYEAR, MAXYEAR.
  replace ((1 <=? y) && (y <=? 9999)) with true
    by (symmetry; apply andb_true_iff; rewrite !Z.leb_le; lia).
  replace ((1 <=? m) && (m <=? 12)) with true
    by (symmetry; apply andb_true_iff; rewrite !Z.leb_le; lia).
  cbn [negb]. destruct ((1 <=? d) && (d <=? _days_in_month y m)); cbn [negb bind]; auto.
Qed.

(** Before the last year of the calendar, a turn of the loop raises nothing
    but the [ValueError] of a day the month does not have. *)
Lemma turn_message (e : env) (item : pystr * Record.t) (x : exn) :
  valid (clock e) = true -> year (clock e) < 9999 ->
  (forall b, Record.birthday (snd item) = Some b -> valid (Birthday.value b) = true) ->
  turn e item = Raise x -> x = day_out_of_range.
Proof.
  intros VT Y VB. apply valid_iff in VT. destruct VT as (Hy & _ & _).
  unfold turn. destruct (Record.birthday (snd item)) as [b|]; [|discriminate].
  specialize (VB b eq_refl). apply valid_iff in VB. destruct VB as (_ & Hm & _).
  cbv zeta. rewrite !replace_year.
  destruct (new_message (year (clock e)) (month (Birthday.value b)) (day (Birthday.value b))
              Hy Hm) as [E1|E1]; rewrite E1; cbn [bind]; [|congruence].
  destruct (new_message (year (clock e) + 1) (month (Birthday.value b))
              (day (Birthday.value b)) ltac:(lia) Hm) as [E2|E2].
  - assert (V : forall d1 : date,
               (if lt d1 (clock e)
                then new (year (clock e) + 1) (month (Birthday.value b)) (day (Birthday.value b))
                else Ok d1) = Ok (if lt d1 (clock e)
                                  then mkdate (year (clock e) + 1) (month (Birthday.value b))
                                         (day (Birthday.value b))
                                  else d1)).
    { intros d1. destruct (lt d1 (clock e)); [exact E2|reflexivity]. }
    rewrite V. cbn [bind].
    match goal with |- context [WEEKEND_DAYS <=? weekday ?c] => set (occ := c) end.
    assert (VO : valid occ = true).
    { subst occ. destruct (lt _ (clock e)).
      - destruct (new_inv _ _ _ _ E2) as [_ H]. exact H.
      - destruct (new_inv _ _ _ _ E1) as [_ H]. exact H. }
    destruct ((0 <=? days (sub occ (clock e))) && (days (sub occ (clock e)) <=? DAYS_IN_WEEK));
      [|discriminate].
    rewrite (shift_to_monday occ VO). discriminate.
  - destruct (lt _ (clock e)).
    + rewrite E2. cbn [bind]. congruence.
    + cbn [bind].
      match goal with |- context [WEEKEND_DAYS <=? weekday ?c] => set (occ := c) end.
      assert (VO : valid occ = true)
        by (destruct (new_inv _ _ _ _ E1) as [_ H]; exact H).
      destruct ((0 <=? days (sub occ (clock e))) && (days (sub occ (clock e)) <=? DAYS_IN_WEEK));
        [|discriminate].
      rewrite (shift_to_monday occ VO). discriminate.
Qed.

Lemma loop_message (e : env) (items : list (pystr * Record.t))
  (acc : list AddressBook.entry) (x : exn) :
  valid (clock e) = true -> year (clock e) < 9999 ->
  Forall (fun item : pystr * Record.t =>
            forall b, Record.birthday (snd item) = Some b ->
                      valid (Birthday.value b) = true) items ->
  AddressBook.loop e (clock e) items acc = Raise x -> x = day_out_of_range.
Proof.
  intros VT Y. revert acc. induction items as [|item items IH]; intros acc F; [discriminate|].
  inversion F as [|? ? F1 F2]. subst. rewrite loop_turn.
  destruct (turn e item) as [l|x'] eqn:T; cbn [bind].
  - apply IH. exact F2.
  - intros H. inversion H. subst x'. exact (turn_message e item x VT Y F1 T).
Qed.

(** X13.  Before the year 9999, when some birthday of the directory
    lacks its occurrence, the query raises the [ValueError] of a day out of
    range, and the handler [birthdays] prints that message and no birthday,
    whatever else is due. *)
Theorem birthdays_on_leap_day (e : env) (book : AddressBook.t) :
  valid (clock e) = true -> year (clock e) < 9999 -> valid_birthdays book ->
  existsb (raising (clock e)) (AddressBook.data book) = true ->
  AddressBook.get_upcoming_birthdays book e = Raise day_out_of_range
  /\ birthdays e book = (Returns (str "day is out of range for month"), book).
Proof.
  intros VT Y VB R.
  assert (Q : AddressBook.get_upcoming_birthdays book e = Raise day_out_of_range).
  { assert (P : forallb (projectable (clock e)) (AddressBook.data book) = false).
    { destruct (forallb (projectable (clock e)) (AddressBook.data book)) eqn:P; [|reflexivity].
      exfalso. apply existsb_exists in R. destruct R as (item & I & R).
      rewrite forallb_forall in P. specialize (P item I).
      unfold valid_birthdays in VB. rewrite Forall_forall in VB.
      rewrite (projectable_raising _ item VT (VB item I)), R in P. discriminate. }
    rewrite get_upcoming_birthdays_eq.
    destruct (loop_not_projectable e _ [] P) as [msg E].
    rewrite E. f_equal. exact (loop_message e _ [] _ VT Y VB E). }
  split; [exact Q|]. rewrite birthdays_eq, Q. reflexivity.
Qed.

Lemma birthdays_on_leap_day_witness :
  let ann := run [call_add_birthday (str "17.05.1990")] (Record.__init__ (str "Ann")) in
  let bob := run [call_add_birthday (str "29.02.2000")] (Record.__init__ (str "Bob")) in
  let book := store (str "Bob") bob (store (str "Ann") ann AddressBook.__init__) in
  let e := mkenv (mkdate 2023 5 17) 0 year_padded in
  birthdays e book = (Returns (str "day is out of range for month"), book).
Proof.
  cbv zeta.
  refine (proj2 (birthdays_on_leap_day (mkenv (mkdate 2023 5 17) 0 year_padded)
                   (store (str "Bob")
                      (run [call_add_birthday (str "29.02.2000")] (Record.__init__ (str "Bob")))
                      (store (str "Ann")
                         (run [call_add_birthday (str "17.05.1990")]
                              (Record.__init__ (str "Ann")))
                         AddressBook.__init__))
                   eq_refl _ _ eq_refl)).
  - simpl. lia.
  - repeat constructor; intros b H; inversion H; reflexivity.
Defined.

End Message.
